(** * queuebot: the suggestion lifecycle and the council voting engine

    A shallow embedding of [queuebot/cogs/queue/suggestion.py] (class
    [Suggestion]) and of the commands of [queuebot/cogs/queue/__init__.py]
    (class [BlobQueue]) that drive it.

    The Postgres tables are lists of rows, an [UPDATE ... WHERE idx = $1] is a
    map over the rows and a [fetchrow] is a search for the first match.  The
    Discord side (emoji and user caches, messages, everything the bot sends)
    is part of the world the coroutines run in.  A coroutine is a function
    from the world to the world it leaves behind and either a value or the
    exception it raised: what was written before a [raise] stays written.

    One event or command runs at a time.  A call to Discord fails where the
    world says so: a message that is not there, a NULL message id, a user
    whose direct messages are closed.  The emoji cache follows the emoji the
    bot creates and deletes.  Texts that the sources format from several
    values are events that carry those values. *)

From stdpp Require Import base option list gmap strings pretty.
From Stdlib Require Import ZArith Ascii String Lia.

Local Open Scope Z_scope.

(** ** Rows of the two tables *)

(** A row of [suggestions].  [council_approved] is the three-valued column the
    properties [is_in_public_queue] and [is_denied] read: NULL while the
    suggestion sits in the council queue. *)
Record Row := mkRow {
  idx : Z;
  user_id : Z;
  emoji_id : Z;
  emoji_name : string;
  emoji_animated : bool;
  upvotes : Z;
  downvotes : Z;
  council_approved : option bool;
  council_message_id : option Z;
  public_message_id : option Z;
  suggestions_message_id : option Z;
  forced_reason : option string;
  forced_by : option Z;
  validation_time : option Z;
  revoked : bool
}.

(** A row of [council_votes]; [voter_id] is its column [user_id].
    [process_vote] writes one of the two flag columns per statement; a flag
    that no statement has written yet holds the column default of the schema,
    which is [None] here. *)
Record VoteRow := mkVoteRow {
  suggestion_index : Z;
  voter_id : Z;
  has_approved : option bool;
  has_denied : option bool
}.

(** [Suggestion.VoteType]: [operator] is ['+'] for [YAY] and ['-'] otherwise.
    The listeners [on_raw_reaction_add] and [on_raw_reaction_remove] hand
    [process_raw_reaction] the vote type of a cast and of a revoke, which
    they spell [CAST] and [REVOKE]: the member that adds, [YAY], is the cast,
    and [NAY] is the revoke. *)
Inductive VoteType := YAY | NAY.

Definition operator (v : VoteType) : Z → Z → Z :=
  match v with YAY => Z.add | NAY => Z.sub end.

(** ** Exceptions *)

Inductive Exn :=
| OperationError (msg : string)      (* Suggestion.OperationError *)
| RuntimeError (msg : string)
| SuggestionNotFound (msg : string)  (* Suggestion.NotFound *)
| DiscordNotFound                    (* discord.NotFound, an HTTPException *)
| HTTPException                      (* any other discord.HTTPException *)
| TypeError.                         (* subscripting a record that is None *)

Definition is_discord_not_found (e : Exn) : bool :=
  match e with DiscordNotFound => true | _ => false end.

Definition is_http_exception (e : Exn) : bool :=
  match e with DiscordNotFound | HTTPException => true | _ => false end.

(** ** What the bot sends *)

Inductive Event :=
| Log_submitter_not_found (action : string) (suggestion : Row)
| Log_emoji_not_found (action : string) (suggestion : Row)
| Log_dm_failed (user : Z) (about : string)
| Log_suggestion_message_kept (suggestion : Z)
| Log_forced (verdict : string) (suggestion who : Z) (reason : option string)
| Changelog_moved (emoji submitter : Z)
| Changelog_closed (action : string) (emoji submitter : Z)
| Message_sent (channel message : Z) (emotes : list Z)
| Reaction_added (message : Z) (reaction : string)
| Message_deleted (channel message : Z)
| Emoji_created (emoji : Z) (animated : bool) (name : string)
| Emoji_deleted (emoji : Z)
| Direct_message (user : Z) (text : string)
| Ctx_send (text : string)
| Ctx_done (verb : string) (suggestion : Z)
| Ctx_vs_created (merged : list (Z * Z * Z)).

(** ** Configuration and world *)

Record Config := mkConfig {
  approve_emoji_id : Z;
  deny_emoji_id : Z;
  approve_emoji : string;
  deny_emoji : string;
  required_votes : Z;
  required_difference : Z;
  council_queue : Z;
  approval_queue : Z;
  council_changelog : Z;
  suggestions_channel : Z;
  verbose_vs : bool;
  bot_user_id : Z
}.

Record World := mkWorld {
  suggestions : list Row;        (* table suggestions *)
  council_votes : list VoteRow;  (* table council_votes *)
  emojis : gset Z;               (* ids bot.get_emoji resolves *)
  users : gset Z;                (* ids bot.get_user resolves *)
  dm_closed : gset Z;            (* users whose DMs raise HTTPException *)
  messages : gset (Z * Z);       (* (channel, message) pairs that exist *)
  next_id : Z;                   (* id of the next message or emoji created *)
  utcnow : Z;                    (* datetime.datetime.utcnow() *)
  vs_lock : bool;                (* BlobQueue.vs_lock.locked() *)
  outbox : list Event            (* everything sent so far, latest first *)
}.

Definition with_suggestions (f : list Row → list Row) (w : World) : World :=
  mkWorld (f (suggestions w)) (council_votes w) (emojis w) (users w)
    (dm_closed w) (messages w) (next_id w) (utcnow w) (vs_lock w) (outbox w).

Definition with_council_votes (f : list VoteRow → list VoteRow) (w : World) : World :=
  mkWorld (suggestions w) (f (council_votes w)) (emojis w) (users w)
    (dm_closed w) (messages w) (next_id w) (utcnow w) (vs_lock w) (outbox w).

Definition with_emojis (f : gset Z → gset Z) (w : World) : World :=
  mkWorld (suggestions w) (council_votes w) (f (emojis w)) (users w)
    (dm_closed w) (messages w) (next_id w) (utcnow w) (vs_lock w) (outbox w).

Definition with_messages (f : gset (Z * Z) → gset (Z * Z)) (w : World) : World :=
  mkWorld (suggestions w) (council_votes w) (emojis w) (users w)
    (dm_closed w) (f (messages w)) (next_id w) (utcnow w) (vs_lock w) (outbox w).

Definition with_next_id (n : Z) (w : World) : World :=
  mkWorld (suggestions w) (council_votes w) (emojis w) (users w)
    (dm_closed w) (messages w) n (utcnow w) (vs_lock w) (outbox w).

Definition with_vs_lock (b : bool) (w : World) : World :=
  mkWorld (suggestions w) (council_votes w) (emojis w) (users w)
    (dm_closed w) (messages w) (next_id w) (utcnow w) b (outbox w).

Definition with_outbox (f : list Event → list Event) (w : World) : World :=
  mkWorld (suggestions w) (council_votes w) (emojis w) (users w)
    (dm_closed w) (messages w) (next_id w) (utcnow w) (vs_lock w) (f (outbox w)).

(** ** Coroutines: state that survives an exception *)

Inductive Outcome (A : Type) :=
| Return (a : A)
| Raise (e : Exn).
Arguments Return {A} a.
Arguments Raise {A} e.

Definition M (A : Type) : Type := World → World * Outcome A.

Definition ret {A} (a : A) : M A := λ w, (w, Return a).

Definition raise {A} (e : Exn) : M A := λ w, (w, Raise e).

Definition bind {A B} (m : M A) (k : A → M B) : M B :=
  λ w, match m w with
       | (w', Return a) => k a w'
       | (w', Raise e) => (w', Raise e)
       end.

Notation "x <- m ;; k" := (bind m (λ x, k))
  (at level 100, m at next level, right associativity).
Notation "m ;;; k" := (bind m (λ _, k))
  (at level 100, right associativity).

Definition gets {A} (f : World → A) : M A := λ w, (w, Return (f w)).

Definition modify (f : World → World) : M unit := λ w, (f w, Return tt).

(** [try: m except handled: h] *)
Definition try_except {A} (m : M A) (handled : Exn → bool) (h : M A) : M A :=
  λ w, match m w with
       | (w', Raise e) => if handled e then h w' else (w', Raise e)
       | r => r
       end.

Definition emit (e : Event) : M unit := modify (with_outbox (cons e)).

Fixpoint for_each {A} (l : list A) (body : A → M unit) : M unit :=
  match l with
  | [] => ret tt
  | x :: l' => body x ;;; for_each l' body
  end.

(** ** SQL statements over the [suggestions] table *)

(** [SELECT * FROM suggestions WHERE idx = $1], first row. *)
Definition fetchrow_idx (i : Z) (rows : list Row) : option Row :=
  List.find (λ r, idx r =? i) rows.

(** [UPDATE suggestions SET ... WHERE idx = $1]. *)
Definition update_idx (i : Z) (set : Row → Row) (rows : list Row) : list Row :=
  List.map (λ r, if idx r =? i then set r else r) rows.

Definition opt_is (o : option Z) (x : Z) : bool :=
  match o with Some y => y =? x | None => false end.

(** [SELECT * FROM suggestions WHERE council_message_id = $1 OR
    public_message_id = $1], first row. *)
Definition fetchrow_message (m : Z) (rows : list Row) : option Row :=
  List.find (λ r, opt_is (council_message_id r) m || opt_is (public_message_id r) m) rows.

(** [SET {vote_target} = {vote_target} {operator} 1] *)
Definition set_vote_target (approval : bool) (v : VoteType) (r : Row) : Row :=
  mkRow (idx r) (user_id r) (emoji_id r) (emoji_name r) (emoji_animated r)
    (if approval then operator v (upvotes r) 1 else upvotes r)
    (if approval then downvotes r else operator v (downvotes r) 1)
    (council_approved r) (council_message_id r) (public_message_id r)
    (suggestions_message_id r) (forced_reason r) (forced_by r)
    (validation_time r) (revoked r).

(** [SET upvotes = 0, downvotes = 0] *)
Definition set_votes_zero (r : Row) : Row :=
  mkRow (idx r) (user_id r) (emoji_id r) (emoji_name r) (emoji_animated r)
    0 0
    (council_approved r) (council_message_id r) (public_message_id r)
    (suggestions_message_id r) (forced_reason r) (forced_by r)
    (validation_time r) (revoked r).

(** [SET council_message_id = NULL] *)
Definition set_council_message_null (r : Row) : Row :=
  mkRow (idx r) (user_id r) (emoji_id r) (emoji_name r) (emoji_animated r)
    (upvotes r) (downvotes r)
    (council_approved r) None (public_message_id r)
    (suggestions_message_id r) (forced_reason r) (forced_by r)
    (validation_time r) (revoked r).

(** [SET public_message_id = $1, council_approved = TRUE, forced_reason = $2,
    forced_by = $3, validation_time = $4] *)
Definition set_public (msg : Z) (reason : option string) (who : option Z)
    (now : Z) (r : Row) : Row :=
  mkRow (idx r) (user_id r) (emoji_id r) (emoji_name r) (emoji_animated r)
    (upvotes r) (downvotes r)
    (Some true) (council_message_id r) (Some msg)
    (suggestions_message_id r) reason who (Some now) (revoked r).

(** [SET council_approved = FALSE, forced_reason = $1, forced_by = $2,
    validation_time = $3] *)
Definition set_denied (reason : option string) (who : option Z) (now : Z)
    (r : Row) : Row :=
  mkRow (idx r) (user_id r) (emoji_id r) (emoji_name r) (emoji_animated r)
    (upvotes r) (downvotes r)
    (Some false) (council_message_id r) (public_message_id r)
    (suggestions_message_id r) reason who (Some now) (revoked r).

(** [SET revoked = TRUE] *)
Definition set_revoked (r : Row) : Row :=
  mkRow (idx r) (user_id r) (emoji_id r) (emoji_name r) (emoji_animated r)
    (upvotes r) (downvotes r)
    (council_approved r) (council_message_id r) (public_message_id r)
    (suggestions_message_id r) (forced_reason r) (forced_by r)
    (validation_time r) true.

(** ** SQL statements over the [council_votes] table *)

Inductive Column := Has_approved | Has_denied.

Definition same_key (i who : Z) (v : VoteRow) : bool :=
  (suggestion_index v =? i) && (voter_id v =? who).

Definition set_column (c : Column) (b : bool) (v : VoteRow) : VoteRow :=
  match c with
  | Has_approved => mkVoteRow (suggestion_index v) (voter_id v) (Some b) (has_denied v)
  | Has_denied => mkVoteRow (suggestion_index v) (voter_id v) (has_approved v) (Some b)
  end.

(** [INSERT INTO council_votes (suggestion_index, user_id, {column}) VALUES
    ($1, $2, b) ON CONFLICT (suggestion_index, user_id) DO UPDATE SET
    {column} = b] *)
Definition upsert_vote (i who : Z) (c : Column) (b : bool)
    (votes : list VoteRow) : list VoteRow :=
  if existsb (same_key i who) votes
  then List.map (λ v, if same_key i who v then set_column c b v else v) votes
  else votes ++ [set_column c b (mkVoteRow i who None None)].

Definition vote_entry (i who : Z) (votes : list VoteRow) : option VoteRow :=
  List.find (same_key i who) votes.

(** The label [vote_info] prints for a row of [council_votes]. *)
Definition truthy (o : option bool) : bool :=
  match o with Some true => true | _ => false end.

Definition vote_label (v : VoteRow) : string :=
  if truthy (has_approved v) && truthy (has_denied v) then "Both"
  else if truthy (has_approved v) then "Yes" else "No".

(** ** The Discord collaborators *)

Definition execute (i : Z) (set : Row → Row) : M unit :=
  modify (with_suggestions (update_idx i set)).

Definition get_emoji (id : Z) : M bool :=
  gets (λ w, bool_decide (id ∈ emojis w)).

Definition get_user (id : Z) : M bool :=
  gets (λ w, bool_decide (id ∈ users w)).

(** [emoji.delete()] *)
Definition emoji_delete (id : Z) : M unit :=
  modify (with_emojis (λ s, s ∖ {[id]})) ;;; emit (Emoji_deleted id).

(** [guild.create_custom_emoji(name=...)] in the buffer guild that
    [get_buffer_guild(animated=...)] picks. *)
Definition create_custom_emoji (animated : bool) (name : string) : M Z :=
  id <- gets next_id ;;
  modify (with_next_id (id + 1)) ;;;
  modify (with_emojis (λ s, {[id]} ∪ s)) ;;;
  emit (Emoji_created id animated name) ;;;
  ret id.

(** [channel.send(...)], returning the id of the new message. *)
Definition channel_send (channel : Z) (emotes : list Z) : M Z :=
  id <- gets next_id ;;
  modify (with_next_id (id + 1)) ;;;
  modify (with_messages (λ s, {[(channel, id)]} ∪ s)) ;;;
  emit (Message_sent channel id emotes) ;;;
  ret id.

(** [channel.get_message(id)]: a NULL id is a malformed request, an id of no
    message of the channel is [discord.NotFound]. *)
Definition get_message (channel : Z) (id : option Z) : M Z :=
  match id with
  | None => raise HTTPException
  | Some m =>
      there <- gets (λ w, bool_decide ((channel, m) ∈ messages w)) ;;
      if there : bool then ret m else raise DiscordNotFound
  end.

(** [message.delete()] *)
Definition message_delete (channel m : Z) : M unit :=
  modify (with_messages (λ s, s ∖ {[(channel, m)]})) ;;;
  emit (Message_deleted channel m).

(** [user.send(text)] *)
Definition user_send (user : Z) (text : string) : M unit :=
  closed <- gets (λ w, bool_decide (user ∈ dm_closed w)) ;;
  if closed : bool then raise HTTPException else emit (Direct_message user text).

(** ** class Suggestion *)

Module Suggestion.
Section methods.
Context (cfg : Config).

(** [record['council_approved'] is True] *)
Definition is_in_public_queue (self : Row) : bool :=
  match council_approved self with Some true => true | _ => false end.

(** [record['council_approved'] is False], NULL is not accepted *)
Definition is_denied (self : Row) : bool :=
  match council_approved self with Some false => true | _ => false end.

(** Reloads [self.record] from the table.  No statement of the program
    deletes a row; for a row that is gone the source stores [None], and the
    next subscript of the record raises the [TypeError] reported here. *)
Definition update_inplace (self : Row) : M Row :=
  found <- gets (λ w, fetchrow_idx (idx self) (suggestions w)) ;;
  match found with
  | Some r => ret r
  | None => raise TypeError
  end.

Definition get_from_id (suggestion_id : Z) : M Row :=
  found <- gets (λ w, fetchrow_idx suggestion_id (suggestions w)) ;;
  match found with
  | Some r => ret r
  | None => raise (SuggestionNotFound "Suggestion not found.")
  end.

Definition get_from_message (message_id : Z) : M Row :=
  found <- gets (λ w, fetchrow_message message_id (suggestions w)) ;;
  match found with
  | Some r => ret r
  | None => raise (SuggestionNotFound "Suggestion not found.")
  end.

Definition delete_from_council_queue (self : Row) : M Row :=
  council_message <- get_message (council_queue cfg) (council_message_id self) ;;
  message_delete (council_queue cfg) council_message ;;;
  execute (idx self) set_council_message_null ;;;
  update_inplace self.

Definition delete_from_suggestions_channel (self : Row) : M unit :=
  match suggestions_message_id self with
  | None => ret tt
  | Some message_id =>
      if message_id =? 0 then ret tt
      else
        try_except
          (message <- get_message (suggestions_channel cfg) (Some message_id) ;;
           message_delete (suggestions_channel cfg) message)
          is_http_exception
          (emit (Log_suggestion_message_kept (idx self)))
  end.

Definition move_to_public_queue (who : option Z) (reason : option string)
    (self : Row) : M Row :=
  if is_in_public_queue self then
    raise (OperationError
      "Cannot move this suggestion to the public approval queue -- it is already in the public approval queue. ")
  else
    user <- get_user (user_id self) ;;
    emoji <- get_emoji (emoji_id self) ;;
    (if user : bool then ret tt
     else emit (Log_submitter_not_found "move to PQ" self)) ;;;
    if negb emoji then
      emit (Log_emoji_not_found "move to PQ" self) ;;;
      ret self
    else
      emit (Changelog_moved (emoji_id self) (user_id self)) ;;;
      msg <- channel_send (approval_queue cfg) [emoji_id self] ;;
      emit (Reaction_added msg (approve_emoji cfg)) ;;;
      emit (Reaction_added msg (deny_emoji cfg)) ;;;
      emoji_delete (emoji_id self) ;;;
      self <- delete_from_council_queue self ;;
      delete_from_suggestions_channel self ;;;
      now <- gets utcnow ;;
      execute (idx self) (set_public msg reason who now) ;;;
      self <- update_inplace self ;;
      (if user : bool then
         try_except (user_send (user_id self) "SUGGESTION_APPROVED")
           is_http_exception
           (emit (Log_dm_failed (user_id self) "approved"))
       else ret tt) ;;;
      ret self.

Definition remove_from_public_queue (self : Row) : M unit :=
  found <- try_except
             (msg <- get_message (approval_queue cfg) (public_message_id self) ;;
              ret (Some msg))
             is_discord_not_found
             (ret None) ;;
  match found with
  | None => ret tt
  | Some msg => message_delete (approval_queue cfg) msg
  end.

Definition deny (who : option Z) (reason : option string) (revoke : bool)
    (self : Row) : M Row :=
  if is_in_public_queue self then
    raise (OperationError
      "Can't deny this suggestion -- it's already in the public queue.")
  else if is_denied self then
    raise (OperationError
      "Can't deny this suggestion -- it has already been denied.")
  else
    user <- get_user (user_id self) ;;
    emoji <- get_emoji (emoji_id self) ;;
    if negb emoji then
      emit (Log_emoji_not_found "deny" self) ;;;
      raise (RuntimeError "Error denying -- the uploaded emoji wasn't found.")
    else
      (if user : bool then ret tt
       else emit (Log_submitter_not_found "deny" self)) ;;;
      now <- gets utcnow ;;
      execute (idx self) (set_denied reason who now) ;;;
      (if revoke then execute (idx self) set_revoked else ret tt) ;;;
      self <- update_inplace self ;;
      emit (Changelog_closed (if revoke then "revoked" else "denied")
              (emoji_id self) (user_id self)) ;;;
      emoji_delete (emoji_id self) ;;;
      self <- delete_from_council_queue self ;;
      delete_from_suggestions_channel self ;;;
      (if user && negb revoke then
         try_except (user_send (user_id self) "SUGGESTION_DENIED")
           is_http_exception
           (emit (Log_dm_failed (user_id self) "denied"))
       else ret tt) ;;;
      ret self.

Definition reset_votes (self : Row) : M Row :=
  execute (idx self) set_votes_zero ;;;
  update_inplace self.

Definition check_council_votes (self : Row) : M Row :=
  let upvotes := upvotes self in
  let downvotes := downvotes self in
  if upvotes + downvotes <? required_votes cfg then
    ret self
  else if upvotes - downvotes >=? required_difference cfg then
    self <- reset_votes self ;;
    move_to_public_queue None None self
  else if downvotes - upvotes >=? required_difference cfg then
    deny None None false self
  else
    ret self.

(** [vote_emoji] is the id of the reaction's emoji, [None] for an emoji
    that is not a custom one. *)
Definition process_vote (vote_emoji : option Z) (vote_type : VoteType)
    (message_id who : Z) (self : Row) : M Row :=
  let approval := opt_is vote_emoji (approve_emoji_id cfg) in
  execute (idx self) (set_vote_target approval vote_type) ;;;
  self <- update_inplace self ;;
  match public_message_id self with
  | Some _ => ret self
  | None =>
      let column := if approval then Has_approved else Has_denied in
      match vote_type with
      | YAY =>
          modify (with_council_votes (upsert_vote (idx self) who column true))
      | NAY =>
          modify (with_council_votes (upsert_vote (idx self) who column false))
      end ;;;
      check_council_votes self
  end.
End methods.
End Suggestion.

(** ** class BlobQueue *)

(** A raw reaction payload. *)
Record Payload := mkPayload {
  payload_emoji : option Z;
  payload_channel_id : Z;
  payload_message_id : Z;
  payload_user_id : Z
}.

(** An argument of the [vs] command as [PublicQueueOrEmojiConverter] hands it
    over: the suggestion when there is one, then an id, a url and a name. *)
Record VsEntry := mkVsEntry {
  entry_suggestion : option Row;
  entry_id : Z;
  entry_url : string;
  entry_name : string
}.

(** [INVALID_EMOJI_NAME_RE] matches what is not in [[a-zA-Z0-9_]]. *)
Definition valid_name_char (c : ascii) : bool :=
  let n := Ascii.N_of_ascii c in
  ((48 <=? n) && (n <=? 57) || (65 <=? n) && (n <=? 90)
   || (97 <=? n) && (n <=? 122) || (n =? 95))%N.

Fixpoint clean_emoji_name (s : string) : string :=
  match s with
  | EmptyString => EmptyString
  | String c s' =>
      String (if valid_name_char c then c else "_"%char) (clean_emoji_name s')
  end.

(** [s.endswith(suffix)] *)
Definition endswith (s suffix : string) : bool :=
  let n := String.length s in
  let m := String.length suffix in
  (m <=? n)%nat && String.eqb (String.substring (n - m) m s) suffix.

(** What is falsy among the answers of [ctx.confirm]: a refusal, and the
    [None] of a prompt that timed out. *)
Definition declined (decision : option bool) : bool :=
  match decision with Some true => false | _ => true end.

Module BlobQueue.
Section commands.
Context (cfg : Config).

Definition is_vote (emoji : option Z) (channel_id : Z) : bool :=
  match emoji with
  | None => false
  | Some id =>
      if negb ((id =? approve_emoji_id cfg) || (id =? deny_emoji_id cfg))
      then false
      else (channel_id =? council_queue cfg) || (channel_id =? approval_queue cfg)
  end.

(** The body runs under [voting_lock], which one event at a time always
    finds free. *)
Definition process_raw_reaction (payload : Payload) (vote_type : VoteType)
    : M unit :=
  let is_vote := is_vote (payload_emoji payload) (payload_channel_id payload) in
  if (payload_user_id payload =? bot_user_id cfg) || negb is_vote then ret tt
  else
    suggestion <- Suggestion.get_from_message (payload_message_id payload) ;;
    Suggestion.process_vote cfg (payload_emoji payload) vote_type
      (payload_message_id payload) (payload_user_id payload) suggestion ;;;
    ret tt.

(** [reason or None] *)
Definition reason_or_none (reason : option string) : option string :=
  match reason with
  | Some EmptyString => None
  | r => r
  end.

(** [confirmed] is the answer the council member gives to [ctx.confirm]. *)
Definition approve (author : Z) (suggestion : Row) (reason : option string)
    (confirmed : option bool) : M unit :=
  if declined confirmed then ret tt
  else
    let reason := reason_or_none reason in
    suggestion <- Suggestion.move_to_public_queue cfg (Some author) reason suggestion ;;
    emit (Log_forced "approved" (idx suggestion) author reason) ;;;
    emit (Ctx_done "Successfully approved" (idx suggestion)).

Definition deny (author : Z) (suggestion : Row) (reason : option string)
    (confirmed : option bool) : M unit :=
  if declined confirmed then ret tt
  else
    let reason := reason_or_none reason in
    suggestion <- Suggestion.deny cfg (Some author) reason false suggestion ;;
    emit (Log_forced "denied" (idx suggestion) author reason) ;;;
    emit (Ctx_done "Successfully denied" (idx suggestion)).

(** [async with self.vs_lock]: released however the body ends. *)
Definition under_vs_lock {A} (body : M A) : M A :=
  λ w, let (w', r) := body (with_vs_lock true w) in (with_vs_lock false w', r).

(** The first loop of [vs]: one temporary emoji per entry, named after the
    entry and its position. *)
Fixpoint create_temp_emotes (index : nat) (emoji : list VsEntry) : M (list Z) :=
  match emoji with
  | [] => ret []
  | this_emoji :: rest =>
      let animated := endswith (entry_url this_emoji) ".gif" in
      let emoji_name :=
        clean_emoji_name
          (String.substring 0 30 (entry_name this_emoji) +:+ "_" +:+ pretty (S index)) in
      temp <- create_custom_emoji animated emoji_name ;;
      temps <- create_temp_emotes (S index) rest ;;
      ret (temp :: temps)
  end.

(** The loop over [enumerate(temp_emotes, 1)]. *)
Fixpoint react_and_delete (vs_message : Z) (index : nat) (temp_emotes : list Z)
    : M unit :=
  match temp_emotes with
  | [] => ret tt
  | this_emoji :: rest =>
      emit (Reaction_added vs_message (pretty index +:+ " keycap")) ;;;
      emoji_delete this_emoji ;;;
      react_and_delete vs_message (S index) rest
  end.

(** The last loop of [vs]: the tally of every entry that is a suggestion is
    reported and its message leaves the public queue. *)
Fixpoint merge (emoji : list VsEntry) : M (list (Z * Z * Z)) :=
  match emoji with
  | [] => ret []
  | this_emoji :: rest =>
      match entry_suggestion this_emoji with
      | None => merge rest
      | Some suggestion =>
          Suggestion.remove_from_public_queue cfg suggestion ;;;
          merge_list <- merge rest ;;
          ret ((idx suggestion, upvotes suggestion, downvotes suggestion) :: merge_list)
      end
  end.

(** [decision] is the answer to the prompt that shows the staged emoji. *)
Definition vs (emoji : list VsEntry) (decision : option bool) : M unit :=
  locked <- gets vs_lock ;;
  if locked : bool then
    emit (Ctx_send "A VS command is already being run, or has been run too recently.")
  else
    under_vs_lock (
      if (List.length emoji <? 2)%nat then
        emit (Ctx_send "Need at least 2 emoji to do VS vote.")
      else if (6 <? List.length emoji)%nat then
        emit (Ctx_send "Refusing to do VS vote of greater than 6 emoji.")
      else
        let id_set : gset Z := list_to_set (entry_id <$> emoji) in
        if (size id_set <? List.length emoji)%nat then
          emit (Ctx_send "Can't have a VS vote with the same emoji appearing more than once.")
        else
          temp_emotes <- create_temp_emotes 0 emoji ;;
          if declined decision then
            for_each temp_emotes emoji_delete
          else
            vs_message <- channel_send (approval_queue cfg) temp_emotes ;;
            react_and_delete vs_message 1 temp_emotes ;;;
            merge_list <- merge emoji ;;
            emit (Ctx_vs_created merge_list)).

(** [SELECT * FROM suggestions WHERE user_id = $1 AND council_approved IS
    NULL] *)
Definition fetch_pending (author : Z) (rows : list Row) : list Row :=
  List.filter (λ r, (user_id r =? author)
                    && match council_approved r with None => true | Some _ => false end)
    rows.

(** Where [revoke] returns: the author has nothing to revoke, or cannot be
    reached, or the loop gave up, or a submission was chosen; and where it
    does not return, still waiting for a message of the author when the
    answers run out. *)
Inductive Picked :=
| No_submissions | Cannot_dm | Gave_up | Still_waiting | Chose (chosen : Row).

(** The loop of [revoke].  An answer is what [int(message.content)] makes of
    the next direct message of the author, [None] where it raises
    [ValueError].  [first] is [submissions[0]]. *)
Fixpoint pick (author : Z) (first : Row) (submissions : list Row) (tries : nat)
    (answers : list (option Z)) : M Picked :=
  if (tries =? 3)%nat then
    user_send author "I give up!" ;;; ret Gave_up
  else
    match answers with
    | [] => ret Still_waiting
    | None :: rest =>
        user_send author
          "Invalid number. Please pick a suggestion to revoke by sending its number." ;;;
        pick author first submissions (S tries) rest
    | Some index :: rest =>
        if (index >? Z.of_nat (List.length submissions)) || (index <? 1) then
          user_send author
            "Invalid choice. Please pick a suggestion to revoke by sending its number." ;;;
          pick author first submissions (S tries) rest
        else
          ret (Chose (List.nth (Z.to_nat (index - 1)) submissions first))
    end.

(** The [revoke] command of [author].  [ctx_message] is the channel and the
    id of the message of the command when it was sent in a guild.  The answer
    that the author cannot be reached goes to the channel of the command, and
    mentions the author. *)
Definition revoke (author : Z) (ctx_message : option (Z * Z))
    (answers : list (option Z)) : M Picked :=
  match ctx_message with
  | Some (channel, message) => message_delete channel message
  | None => ret tt
  end ;;;
  submissions <- gets (λ w, fetch_pending author (suggestions w)) ;;
  let cannot_dm := emit (Ctx_send "I can't DM you, please adjust your settings.") in
  match submissions with
  | [] =>
      try_except
        (user_send author "You have no suggestions to revoke at this time.")
        is_http_exception cannot_dm ;;;
      ret No_submissions
  | first :: _ =>
      reached <- try_except
                   (user_send author
                      "Please pick a suggestion to revoke by sending its number." ;;;
                    ret true)
                   is_http_exception (cannot_dm ;;; ret false) ;;
      if reached : bool then
        picked <- pick author first submissions 0 answers ;;
        match picked with
        | Chose chosen =>
            suggestion <- Suggestion.deny cfg (Some author) (Some "Manually revoked")
                            true chosen ;;
            emit (Log_forced "manually revoked" (idx suggestion) author None) ;;;
            user_send author "Suggestion has been revoked." ;;;
            ret picked
        | _ => ret picked
        end
      else ret Cannot_dm
  end.
End commands.

(** The [WHERE] clause of [vote_info]: [$1 IN (suggestion_index, user_id) AND
    TRUE IN (has_approved, has_denied)], which holds for a row only where it
    is true, not where a NULL leaves it unknown. *)
Definition vote_info_where (which : Z) (v : VoteRow) : bool :=
  ((which =? suggestion_index v) || (which =? voter_id v))
  && (truthy (has_approved v) || truthy (has_denied v)).

Section test_image.
Context {Frame Rendered : Type}.

(** An image as [test_backend] uses it: its frames, and the one it is at. *)
Record Image := mkImage {
  image_frames : list Frame;
  image_tell : nat
}.

(** [image.seek(frame)]: [None] is the [EOFError] past the last frame. *)
Definition image_seek (image : Image) (frame : nat) : option Image :=
  if (frame <? List.length (image_frames image))%nat
  then Some (mkImage (image_frames image) frame)
  else None.

Context (generate_test_frame : Image → Rendered).

(** The loop [for _ in range(600)] of [test_backend], [range_left] rounds
    from its end. *)
Fixpoint render_frames (range_left : nat) (emoji_image : Image)
    (frame_listing : list Rendered) : list Rendered :=
  match range_left with
  | O => frame_listing
  | S range_left =>
      let frame_listing := frame_listing ++ [generate_test_frame emoji_image] in
      match image_seek emoji_image (image_tell emoji_image + 1) with
      | Some emoji_image => render_frames range_left emoji_image frame_listing
      | None => frame_listing
      end
  end.

(** What [test_backend] returns: the name of the file and the frames saved
    in it.  [None] is the [IndexError] of [frame_listing.pop(0)] on an empty
    list. *)
Definition test_backend (emoji_image : Image) : option (string * list Rendered) :=
  match render_frames 600 emoji_image [] with
  | [] => None
  | initial_frame :: frame_listing =>
      match frame_listing with
      | _ :: _ => Some ("test.gif", initial_frame :: frame_listing)
      | [] => Some ("test.png", [initial_frame])
      end
  end.
End test_image.
End BlobQueue.

(** ** queuebot/configuration.py *)

Module Configuration.
Section configuration.
(** The values of a YAML mapping, of which the strings are some, and the
    mapping of [default_config.yaml]. *)
Context {Value : Type} (of_str : string → Value).
Context (default_config : gmap string Value).

(** What [yaml.safe_load] makes of a file: a string, a mapping, or something
    else. *)
Inductive Loaded :=
| Loaded_str (s : string)
| Loaded_map (m : gmap string Value)
| Loaded_other.

(** [Configuration(config_dict)._dict], which is [{**default_config,
    **config_dict}]. *)
Definition Configuration (config_dict : gmap string Value) : gmap string Value :=
  config_dict ∪ default_config.

(** [__getattr__] and [get] with one argument *)
Definition getattr (self : gmap string Value) (item : string) : option Value :=
  self !! item.

(** [get] with a default *)
Definition get (self : gmap string Value) (item : string) (default : Value) : Value :=
  match self !! item with Some v => v | None => default end.

(** [config_from_file], from what the file loads as; what is neither a string
    nor a mapping cannot be unpacked with [**] and raises [TypeError]. *)
Definition config_from_file (configuration : Loaded) : Outcome (gmap string Value) :=
  match configuration with
  | Loaded_str s => Return (Configuration {[ "token" := of_str s ]})
  | Loaded_map m => Return (Configuration m)
  | Loaded_other => Raise TypeError
  end.
End configuration.
End Configuration.

(** ** The listeners, one event after the other

    Each reaction is handled in the world the one before it left; what a
    listener raises is logged by the dispatcher and stops nothing. *)
Definition reactions (cfg : Config) (events : list (Payload * VoteType)) (w : World)
    : World :=
  fold_left (λ w e, (BlobQueue.process_raw_reaction cfg e.1 e.2 w).1) events w.

(** * Notions the properties are stated with *)

(** ** Frames

    [spec R Q m]: the coroutine [m] ends, by value or by exception, in a
    world related by [R] to the one it started in, and a value it returns
    satisfies [Q]. *)

Definition spec {A} (R : World → World → Prop) (Q : A → Prop) (m : M A) : Prop :=
  ∀ w, R w (m w).1 ∧ match (m w).2 with Return a => Q a | Raise _ => True end.

(** A statement that writes neither the key nor the two counters of a row. *)
Definition keeps_tally (set : Row → Row) : Prop :=
  ∀ r, idx (set r) = idx r ∧ upvotes (set r) = upvotes r
       ∧ downvotes (set r) = downvotes r.

(** From [w] to [w'] the vote ledger is the same, and the [suggestions]
    table differs by such statements on row [i]. *)
Definition keeps (i : Z) (w w' : World) : Prop :=
  council_votes w' = council_votes w
  ∧ ∃ set, keeps_tally set ∧ suggestions w' = update_idx i set (suggestions w).

Definition same_idx (i : Z) (r : Row) : Prop := idx r = i.

Definition any {A} (_ : A) : Prop := True.

(** Whatever [m] raises is among the [allowed] exceptions. *)
Definition raises_only {A} (allowed : Exn → bool) (m : M A) : Prop :=
  ∀ w e, (m w).2 = Raise e → allowed e = true.

(** Everything but [Suggestion.OperationError]. *)
Definition other_than_operation_error (e : Exn) : bool :=
  match e with OperationError _ => false | _ => true end.

(** ** Tally, state and votes

    The two counters of suggestion [i] as the table has them. *)
Definition tally (i : Z) (w : World) : option (Z * Z) :=
  (λ r, (upvotes r, downvotes r)) <$> fetchrow_idx i (suggestions w).

(** The state of suggestion [i] as the table has it: [council_approved]. *)
Definition state (i : Z) (w : World) : option (option bool) :=
  council_approved <$> fetchrow_idx i (suggestions w).

(** The thresholds call for no transition at the tally of [r]. *)
Definition no_action (cfg : Config) (r : Row) : Prop :=
  upvotes r + downvotes r < required_votes cfg
  ∨ (upvotes r - downvotes r < required_difference cfg
     ∧ downvotes r - upvotes r < required_difference cfg).

(** A vote that leaves [r] behind is followed by no transition: [r] is in the
    public queue, or the thresholds call for none. *)
Definition quiet (cfg : Config) (r : Row) : Prop :=
  public_message_id r ≠ None ∨ no_action cfg r.

(** The thresholds call for a promotion at the tally of [r]. *)
Definition promotes (cfg : Config) (r : Row) : bool :=
  negb (upvotes r + downvotes r <? required_votes cfg)
  && (upvotes r - downvotes r >=? required_difference cfg).

(** The two tables once [process_vote] has written a vote for [self]: the
    counter, and for a suggestion without a public message the ledger. *)
Definition vote_written (cfg : Config) (vote_emoji : option Z)
    (vote_type : VoteType) (who : Z) (self : Row) (w : World) : World :=
  let approval := opt_is vote_emoji (approve_emoji_id cfg) in
  let w1 := with_suggestions (update_idx (idx self) (set_vote_target approval vote_type)) w in
  match public_message_id self with
  | Some _ => w1
  | None =>
      with_council_votes
        (upsert_vote (idx self) who (if approval then Has_approved else Has_denied)
           (match vote_type with YAY => true | NAY => false end)) w1
  end.

(** The reaction of [payload] counts as a vote, and finds [s] the way
    [get_from_message] and [update_inplace] look for it. *)
Definition counted (cfg : Config) (payload : Payload) : Prop :=
  payload_user_id payload ≠ bot_user_id cfg
  ∧ BlobQueue.is_vote cfg (payload_emoji payload) (payload_channel_id payload) = true.

Definition addressed (payload : Payload) (s : Row) (w : World) : Prop :=
  fetchrow_message (payload_message_id payload) (suggestions w) = Some s
  ∧ fetchrow_idx (idx s) (suggestions w) = Some s.

(** The pairs of suggestion and reviewer the ledger has rows for. *)
Definition keys (votes : list VoteRow) : list (Z * Z) :=
  (λ v, (suggestion_index v, voter_id v)) <$> votes.

(** The worlds that differ in what Discord holds only: the emoji set, the id
    counter and what was sent. *)
Definition same_tables (w w' : World) : Prop :=
  suggestions w' = suggestions w ∧ council_votes w' = council_votes w
  ∧ messages w' = messages w ∧ vs_lock w' = vs_lock w.

(** ** The resolution policy of the specification *)

Inductive Action := No_action | Promote | Deny.

(** The policy in the words of the specification, section 4.3: no action if
    [upvotes + downvotes < required_votes]; promote if [upvotes - downvotes >=
    required_difference]; deny if [downvotes - upvotes >=
    required_difference]; otherwise no action. *)
Definition resolution_policy (upvotes downvotes required_votes required_difference : Z)
    : Action :=
  if decide (upvotes + downvotes < required_votes) then No_action
  else if decide (upvotes - downvotes >= required_difference) then Promote
  else if decide (downvotes - upvotes >= required_difference) then Deny
  else No_action.

(** What [check_council_votes] does once the policy has spoken. *)
Definition perform (cfg : Config) (a : Action) (self : Row) : M Row :=
  match a with
  | No_action => ret self
  | Promote =>
      self <- Suggestion.reset_votes self ;;
      Suggestion.move_to_public_queue cfg None None self
  | Deny => Suggestion.deny cfg None None false self
  end.

(** ** Relations between the worlds before and after

    Neither table is written. *)
Definition untouched (w w' : World) : Prop :=
  suggestions w' = suggestions w ∧ council_votes w' = council_votes w.

(** The [suggestions] table differs by statements on the rows of key [i],
    each of which leaves the key alone and takes a row to one that [P]
    relates to it. *)
Definition changes (P : Row → Row → Prop) (i : Z) (w w' : World) : Prop :=
  ∃ set, (∀ r, idx (set r) = idx r ∧ P r (set r))
         ∧ suggestions w' = update_idx i set (suggestions w).

(** A row that has left the council queue has not come back. *)
Definition stays_resolved (r r' : Row) : Prop :=
  council_approved r ≠ None → council_approved r' ≠ None.

(** The thresholds call for a denial at the tally of [r]. *)
Definition denies (cfg : Config) (r : Row) : bool :=
  negb (upvotes r + downvotes r <? required_votes cfg)
  && negb (upvotes r - downvotes r >=? required_difference cfg)
  && (downvotes r - upvotes r >=? required_difference cfg).

(** Row [r] refers to message [m], as its council or its public message. *)
Definition refers (r : Row) (m : Z) : bool :=
  opt_is (council_message_id r) m || opt_is (public_message_id r) m.

(** What a list of reactions adds to the two counters. *)
Definition net_votes (cfg : Config) (events : list (Payload * VoteType)) : Z * Z :=
  fold_left
    (λ t e,
       if opt_is (payload_emoji e.1) (approve_emoji_id cfg)
       then (operator e.2 t.1 1, t.2) else (t.1, operator e.2 t.2 1))
    events (0, 0).

(** What a VS vote reports of its entries: key and tally of those that are
    suggestions, as the command received them. *)
Definition vs_report (emoji : list VsEntry) : list (Z * Z * Z) :=
  omap (λ e, (λ s, (idx s, upvotes s, downvotes s)) <$> entry_suggestion e) emoji.

(** The public messages of the entries of a VS vote. *)
Definition vs_withdrawn (cfg : Config) (emoji : list VsEntry) : list (Z * Z) :=
  omap (λ e, s ← entry_suggestion e; m ← public_message_id s;
             Some (approval_queue cfg, m)) emoji.

(** An answer the revoke wizard does not take as a choice among [n]
    submissions: not a number, or a number outside [1..n]. *)
Definition refused (n : nat) (answer : option Z) : bool :=
  match answer with
  | None => true
  | Some index => (index >? Z.of_nat n) || (index <? 1)
  end.

(** The messages the wizard sent to [author], oldest last. *)
Definition sent_to (author : Z) (w : World) : list string :=
  omap (λ e, match e with
             | Direct_message user text => if user =? author then Some text else None
             | _ => None
             end) (outbox w).

(** ** Concrete worlds *)

(** Thresholds of five votes and a margin of three. *)
Definition demo_config : Config :=
  mkConfig 100 101 "blobyes" "blobno" 5 3 10 11 12 13 false 999.

(** Suggestion [i] of user 50 as it sits in the council queue. *)
Definition council_row (i up down : Z) : Row :=
  mkRow i 50 (200 + i) "blob" false up down None (Some (300 + i)) None
    (Some (400 + i)) None None None false.

(** The messages a row refers to, each in its channel. *)
Definition row_messages (r : Row) : list (Z * Z) :=
  (pair 10 <$> option_list (council_message_id r))
  ++ (pair 11 <$> option_list (public_message_id r))
  ++ (pair 13 <$> option_list (suggestions_message_id r)).

(** A world that holds [rows], their emoji and their messages, and no vote. *)
Definition world_of (rows : list Row) : World :=
  mkWorld rows [] (list_to_set (emoji_id <$> rows)) {[50]} ∅
    (list_to_set (rows ≫= row_messages)) 1000 77 false [].

(** Reviewer [who] reacts to the council message of suggestion 1. *)
Definition approve_reaction (who : Z) : Payload := mkPayload (Some 100) 10 301 who.
Definition deny_reaction (who : Z) : Payload := mkPayload (Some 101) 10 301 who.

Definition cast (p : Payload) : M unit := BlobQueue.process_raw_reaction demo_config p YAY.
Definition revoke (p : Payload) : M unit := BlobQueue.process_raw_reaction demo_config p NAY.

(** Suggestion 1 as a denial leaves it when the changelog could not be
    written: denied in the table, with its emoji and its council message
    still there. *)
Definition half_denied_row : Row :=
  mkRow 1 50 201 "blob" false 1 4 (Some false) (Some 301) None (Some 401)
    None None (Some 70) false.

(** The world after council member 8 has denied suggestion 1. *)
Definition denied_world : World :=
  (BlobQueue.deny demo_config 8 (council_row 1 0 0) None (Some true)
     (world_of [council_row 1 0 0])).1.

(** Five reviewers bring suggestion 1 to (4, 1), and the policy moves it to
    the public queue, where its message is 1000. *)
Definition promoted_world : World :=
  ((cast (approve_reaction 1) ;;; cast (approve_reaction 2) ;;;
    cast (approve_reaction 3) ;;; cast (deny_reaction 4) ;;;
    cast (approve_reaction 5)) (world_of [council_row 1 0 0])).1.

(** Reviewer 4 brings suggestion 1 from (1, 3) to (1, 4), and the policy
    denies it. *)
Definition policy_denied_world : World :=
  (cast (deny_reaction 4) (world_of [council_row 1 1 3])).1.

(** Suggestion [i] as it sits in the public queue. *)
Definition queued_row (i up down : Z) : Row :=
  mkRow i 50 (200 + i) "blob" false up down (Some true) None (Some (500 + i))
    None None None (Some 70) false.

(** The row of suggestion [i] in [w]. *)
Definition reload (i : Z) (w : World) : Row :=
  default (council_row i 0 0) (fetchrow_idx i (suggestions w)).

(** Suggestion 1 in the council queue, in a world that has lost its emoji. *)
Definition world_without_emoji : World :=
  with_emojis (λ _, ∅) (world_of [council_row 1 2 0]).

(** * Properties *)

(** ** The tables *)

Lemma fetchrow_idx_key i rows r :
  fetchrow_idx i rows = Some r → idx r = i.
Proof.
  unfold fetchrow_idx. intros H. apply find_some in H as [_ H]. lia.
Qed.

Lemma fetchrow_update_idx i set rows :
  (∀ r, idx (set r) = idx r) →
  fetchrow_idx i (update_idx i set rows) = set <$> fetchrow_idx i rows.
Proof.
  intros Hkey. unfold fetchrow_idx, update_idx.
  induction rows as [|r rows IH]; [reflexivity|]. simpl.
  destruct (idx r =? i) eqn:E.
  - rewrite Hkey, E. reflexivity.
  - rewrite E. exact IH.
Qed.

Lemma fetchrow_update_other j i set rows :
  (∀ r, idx (set r) = idx r) → j ≠ i →
  fetchrow_idx j (update_idx i set rows) = fetchrow_idx j rows.
Proof.
  intros Hkey Hne. unfold fetchrow_idx, update_idx.
  induction rows as [|r rows IH]; [reflexivity|]. simpl.
  destruct (idx r =? i) eqn:E.
  - rewrite Hkey. apply Z.eqb_eq in E.
    destruct (idx r =? j) eqn:E'; [lia | exact IH].
  - destruct (idx r =? j); [reflexivity | exact IH].
Qed.

Lemma fetchrow_message_update m i set rows :
  (∀ r, council_message_id (set r) = council_message_id r) →
  (∀ r, public_message_id (set r) = public_message_id r) →
  fetchrow_message m (update_idx i set rows)
  = (λ r, if idx r =? i then set r else r) <$> fetchrow_message m rows.
Proof.
  intros Hc Hp. unfold fetchrow_message, update_idx.
  induction rows as [|r rows IH]; [reflexivity|]. simpl.
  assert (opt_is (council_message_id (if idx r =? i then set r else r)) m
          || opt_is (public_message_id (if idx r =? i then set r else r)) m
          = opt_is (council_message_id r) m || opt_is (public_message_id r) m) as ->.
  { destruct (idx r =? i); [rewrite Hc, Hp|]; reflexivity. }
  destruct (opt_is (council_message_id r) m || opt_is (public_message_id r) m);
    [reflexivity | exact IH].
Qed.

Lemma update_idx_compose i f g rows :
  (∀ r, idx (f r) = idx r) →
  update_idx i g (update_idx i f rows) = update_idx i (g ∘ f) rows.
Proof.
  intros Hkey. unfold update_idx. rewrite List.map_map.
  apply List.map_ext. intros r.
  destruct (idx r =? i) eqn:E; [rewrite Hkey, E | rewrite E]; reflexivity.
Qed.

(** What a vote does to the two counters of a row. *)
Lemma set_vote_target_counters approval v r :
  upvotes (set_vote_target approval v r)
  = (if approval then operator v (upvotes r) 1 else upvotes r)
  ∧ downvotes (set_vote_target approval v r)
  = (if approval then downvotes r else operator v (downvotes r) 1).
Proof. split; reflexivity. Qed.

Lemma set_vote_target_undo approval r :
  set_vote_target approval NAY (set_vote_target approval YAY r) = r.
Proof.
  destruct r, approval; unfold set_vote_target; simpl; f_equal; lia.
Qed.

(** ** A frame logic for coroutines

    The rules of [spec] for a relation that is reflexive and transitive. *)

Section frame.
Context (R : World → World → Prop).
Context (R_refl : ∀ w, R w w).
Context (R_trans : ∀ w1 w2 w3, R w1 w2 → R w2 w3 → R w1 w3).

Lemma spec_ret {A} (Q : A → Prop) a : Q a → spec R Q (ret a).
Proof. intros H w. split; [apply R_refl | exact H]. Qed.

Lemma spec_raise {A} (Q : A → Prop) e : spec R Q (raise e).
Proof. intros w. split; [apply R_refl | exact I]. Qed.

Lemma spec_gets {A} (Q : A → Prop) (f : World → A) :
  (∀ w, Q (f w)) → spec R Q (gets f).
Proof. intros H w. split; [apply R_refl | apply H]. Qed.

Lemma spec_modify (Q : unit → Prop) f :
  (∀ w, R w (f w)) → Q tt → spec R Q (modify f).
Proof. intros H HQ w. split; [apply H | exact HQ]. Qed.

Lemma spec_bind {A B} (P : A → Prop) (Q : B → Prop) (m : M A) (k : A → M B) :
  spec R P m → (∀ a, P a → spec R Q (k a)) → spec R Q (bind m k).
Proof.
  intros Hm Hk w. unfold bind. specialize (Hm w).
  destruct (m w) as [w' [a|e]]; simpl in *.
  - destruct Hm as [HR HP]. specialize (Hk a HP w').
    destruct Hk as [HR' HQ]. split; [eapply R_trans; eassumption | exact HQ].
  - destruct Hm as [HR _]. split; [exact HR | exact I].
Qed.

Lemma spec_try_except {A} (Q : A → Prop) (m h : M A) handled :
  spec R Q m → spec R Q h → spec R Q (try_except m handled h).
Proof.
  intros Hm Hh w. unfold try_except. specialize (Hm w).
  destruct (m w) as [w' [a|e]]; simpl in *; [exact Hm|].
  destruct (handled e); simpl.
  - destruct Hm as [HR _]. specialize (Hh w') as [HR' HQ].
    split; [eapply R_trans; eassumption | exact HQ].
  - exact Hm.
Qed.

Lemma spec_weaken {A} (P Q : A → Prop) (m : M A) :
  spec R P m → (∀ a, P a → Q a) → spec R Q m.
Proof.
  intros Hm HPQ w. specialize (Hm w) as [HR HP]. split; [exact HR|].
  destruct ((m w).2); [apply HPQ, HP | exact I].
Qed.
End frame.

(** ** What a transition leaves alone

    Every coroutine a transition is made of satisfies [keeps]: it writes
    neither the ledger nor the counters of a row. *)

Lemma keeps_refl i w : keeps i w w.
Proof.
  split; [reflexivity|]. exists id. split; [intros r; auto|].
  unfold update_idx. symmetry. rewrite (List.map_ext _ id).
  - apply List.map_id.
  - intros r. destruct (idx r =? i); reflexivity.
Qed.

Lemma keeps_trans i w1 w2 w3 : keeps i w1 w2 → keeps i w2 w3 → keeps i w1 w3.
Proof.
  intros [Hv (f & Hf & Hs)] [Hv' (g & Hg & Hs')].
  split; [congruence|]. exists (g ∘ f). split.
  - intros r. simpl. destruct (Hg (f r)) as (-> & -> & ->). apply Hf.
  - rewrite Hs', Hs. apply update_idx_compose. intros r. apply Hf.
Qed.

Lemma keeps_execute i set :
  keeps_tally set → ∀ w, keeps i w (with_suggestions (update_idx i set) w).
Proof. intros H w. split; [reflexivity|]. exists set. split; [exact H | reflexivity]. Qed.

Section keeps_rules.
Context (cfg : Config) (i : Z).

Ltac step :=
  first
    [ eapply spec_bind; [apply keeps_trans | | intros ? ?]
    | apply spec_try_except; [apply keeps_trans | | ] ].

Lemma keeps_pass {A} (a : A) : spec (keeps i) any (ret a).
Proof. apply spec_ret; [apply keeps_refl | exact I]. Qed.

Lemma keeps_gets {A} (f : World → A) : spec (keeps i) any (gets f).
Proof. apply spec_gets; [apply keeps_refl | intros; exact I]. Qed.

Lemma keeps_get_user id : spec (keeps i) any (get_user id).
Proof. apply keeps_gets. Qed.

Lemma keeps_get_emoji id : spec (keeps i) any (get_emoji id).
Proof. apply keeps_gets. Qed.

Lemma keeps_other_modify f :
  (∀ w, council_votes (f w) = council_votes w) →
  (∀ w, suggestions (f w) = suggestions w) →
  spec (keeps i) any (modify f).
Proof.
  intros Hv Hs. apply spec_modify; [|exact I]. intros w.
  destruct (keeps_refl i w) as [_ (set & Hset & Heq)].
  split; [apply Hv|]. exists set. rewrite Hs. auto.
Qed.

Lemma keeps_emit e : spec (keeps i) any (emit e).
Proof. apply keeps_other_modify; reflexivity. Qed.

Lemma keeps_emoji_delete id : spec (keeps i) any (emoji_delete id).
Proof.
  unfold emoji_delete. step; [|apply keeps_emit].
  apply keeps_other_modify; reflexivity.
Qed.

Lemma keeps_message_delete c m : spec (keeps i) any (message_delete c m).
Proof.
  unfold message_delete. step; [|apply keeps_emit].
  apply keeps_other_modify; reflexivity.
Qed.

Lemma keeps_channel_send c l : spec (keeps i) any (channel_send c l).
Proof.
  unfold channel_send. step; [apply keeps_gets|].
  step; [apply keeps_other_modify; reflexivity|].
  step; [apply keeps_other_modify; reflexivity|].
  step; [apply keeps_emit|]. apply keeps_pass.
Qed.

Lemma keeps_get_message c m : spec (keeps i) any (get_message c m).
Proof.
  destruct m as [m|]; simpl; [|apply spec_raise, keeps_refl].
  step; [apply keeps_gets|]. destruct a.
  - apply keeps_pass.
  - apply spec_raise, keeps_refl.
Qed.

Lemma keeps_user_send u t : spec (keeps i) any (user_send u t).
Proof.
  unfold user_send. step; [apply keeps_gets|]. destruct a.
  - apply spec_raise, keeps_refl.
  - apply keeps_emit.
Qed.

Lemma keeps_tally_execute set :
  keeps_tally set → spec (keeps i) any (execute i set).
Proof.
  intros H. apply spec_modify; [|exact I]. intros w. apply keeps_execute, H.
Qed.

Lemma keeps_update_inplace self :
  same_idx i self → spec (keeps i) (same_idx i) (Suggestion.update_inplace self).
Proof.
  intros Hi w. unfold Suggestion.update_inplace, bind, gets. simpl.
  destruct (fetchrow_idx (idx self) (suggestions w)) as [r|] eqn:E; simpl.
  - split; [apply keeps_refl|]. apply fetchrow_idx_key in E.
    unfold same_idx in *. congruence.
  - split; [apply keeps_refl | exact I].
Qed.

Lemma keeps_delete_from_council_queue self :
  same_idx i self →
  spec (keeps i) (same_idx i) (Suggestion.delete_from_council_queue cfg self).
Proof.
  intros Hi. unfold Suggestion.delete_from_council_queue.
  step; [apply keeps_get_message|].
  step; [apply keeps_message_delete|].
  step; [rewrite Hi; apply keeps_tally_execute; intros r; auto|].
  apply keeps_update_inplace, Hi.
Qed.

Lemma keeps_delete_from_suggestions_channel self :
  spec (keeps i) any (Suggestion.delete_from_suggestions_channel cfg self).
Proof.
  unfold Suggestion.delete_from_suggestions_channel.
  destruct (suggestions_message_id self) as [m|];
    [|apply keeps_pass].
  destruct (m =? 0); [apply keeps_pass|].
  step; [|apply keeps_emit].
  step; [apply keeps_get_message | apply keeps_message_delete].
Qed.

Lemma keeps_move_to_public_queue who reason self :
  same_idx i self →
  spec (keeps i) (same_idx i) (Suggestion.move_to_public_queue cfg who reason self).
Proof.
  intros Hi. unfold Suggestion.move_to_public_queue.
  destruct (Suggestion.is_in_public_queue self); [apply spec_raise, keeps_refl|].
  step; [apply keeps_get_user|]. rename a into user.
  step; [apply keeps_get_emoji|]. rename a into emoji.
  step; [destruct user; [apply keeps_pass
                        | apply keeps_emit]|].
  destruct emoji; simpl.
  - step; [apply keeps_emit|].
    step; [apply keeps_channel_send|].
    step; [apply keeps_emit|]. step; [apply keeps_emit|].
    step; [apply keeps_emoji_delete|].
    step; [apply keeps_delete_from_council_queue, Hi|].
    step; [apply keeps_delete_from_suggestions_channel|].
    step; [apply keeps_gets|].
    step; [match goal with H : same_idx i _ |- _ => rewrite H end;
           apply keeps_tally_execute; intros r; auto|].
    step; [apply keeps_update_inplace; assumption|].
    step; [|apply spec_ret; [apply keeps_refl | assumption]].
    destruct user; [|apply keeps_pass].
    step; [apply keeps_user_send | apply keeps_emit].
  - step; [apply keeps_emit|]. apply spec_ret; [apply keeps_refl | exact Hi].
Qed.

Lemma keeps_deny who reason revoke self :
  same_idx i self →
  spec (keeps i) (same_idx i) (Suggestion.deny cfg who reason revoke self).
Proof.
  intros Hi. unfold Suggestion.deny.
  destruct (Suggestion.is_in_public_queue self); [apply spec_raise, keeps_refl|].
  destruct (Suggestion.is_denied self); [apply spec_raise, keeps_refl|].
  step; [apply keeps_get_user|]. rename a into user.
  step; [apply keeps_get_emoji|]. rename a into emoji.
  destruct emoji; simpl.
  - step; [destruct user; [apply keeps_pass
                          | apply keeps_emit]|].
    step; [apply keeps_gets|].
    step; [rewrite Hi; apply keeps_tally_execute; intros r; auto|].
    step; [destruct revoke;
             [rewrite Hi; apply keeps_tally_execute; intros r; auto
             | apply keeps_pass]|].
    step; [apply keeps_update_inplace, Hi|].
    step; [apply keeps_emit|].
    step; [apply keeps_emoji_delete|].
    step; [apply keeps_delete_from_council_queue; assumption|].
    step; [apply keeps_delete_from_suggestions_channel|].
    step; [|apply spec_ret; [apply keeps_refl | assumption]].
    destruct (user && negb revoke); [|apply keeps_pass].
    step; [apply keeps_user_send | apply keeps_emit].
  - step; [apply keeps_emit|]. apply spec_raise, keeps_refl.
Qed.
End keeps_rules.

(** ** The tally after a vote *)

Lemma keeps_same_tally i w w' : keeps i w w' → tally i w' = tally i w.
Proof.
  intros [_ (set & Hset & Hs)]. unfold tally. rewrite Hs.
  rewrite fetchrow_update_idx by (intros r; apply Hset).
  destruct (fetchrow_idx i (suggestions w)) as [r|]; [|reflexivity].
  simpl. destruct (Hset r) as (_ & -> & ->). reflexivity.
Qed.

Lemma check_council_votes_no_action cfg r :
  no_action cfg r → Suggestion.check_council_votes cfg r = ret r.
Proof.
  intros H. unfold Suggestion.check_council_votes, no_action in *.
  destruct (Z.ltb_spec (upvotes r + downvotes r) (required_votes cfg));
    [reflexivity|].
  rewrite !Z.geb_leb.
  destruct (Z.leb_spec (required_difference cfg) (upvotes r - downvotes r)); [lia|].
  destruct (Z.leb_spec (required_difference cfg) (downvotes r - upvotes r)); [lia|].
  reflexivity.
Qed.

Lemma update_inplace_found self r w :
  fetchrow_idx (idx self) (suggestions w) = Some r →
  Suggestion.update_inplace self w = (w, Return r).
Proof.
  intros H. unfold Suggestion.update_inplace, bind, gets. rewrite H. reflexivity.
Qed.

Lemma reset_votes_found self w :
  fetchrow_idx (idx self) (suggestions w) = Some self →
  Suggestion.reset_votes self w
  = (with_suggestions (update_idx (idx self) set_votes_zero) w,
     Return (set_votes_zero self)).
Proof.
  intros H. unfold Suggestion.reset_votes, bind, execute, modify.
  apply update_inplace_found. simpl.
  rewrite fetchrow_update_idx by reflexivity. rewrite H. reflexivity.
Qed.

(** The policy leaves the ledger alone, and the tally too unless it promotes,
    which zeroes it. *)
Lemma check_council_votes_effect cfg self w :
  fetchrow_idx (idx self) (suggestions w) = Some self →
  let w' := (Suggestion.check_council_votes cfg self w).1 in
  council_votes w' = council_votes w
  ∧ tally (idx self) w'
    = Some (if promotes cfg self then (0, 0) else (upvotes self, downvotes self)).
Proof.
  intros Hs. unfold Suggestion.check_council_votes, promotes.
  assert (tally (idx self) w = Some (upvotes self, downvotes self)) as Ht.
  { unfold tally. rewrite Hs. reflexivity. }
  destruct (upvotes self + downvotes self <? required_votes cfg); simpl;
    [split; [reflexivity | exact Ht]|].
  destruct (upvotes self - downvotes self >=? required_difference cfg); simpl.
  - unfold bind. rewrite reset_votes_found by exact Hs.
    pose proof (keeps_move_to_public_queue cfg (idx self) None None
                  (set_votes_zero self) eq_refl
                  (with_suggestions (update_idx (idx self) set_votes_zero) w))
      as [[Hv Hk] _].
    split; [exact Hv|].
    rewrite (keeps_same_tally _ _ _ (conj Hv Hk)). unfold tally. simpl.
    rewrite fetchrow_update_idx by reflexivity. rewrite Hs. reflexivity.
  - destruct (downvotes self - upvotes self >=? required_difference cfg);
      [|split; [reflexivity | exact Ht]].
    pose proof (keeps_deny cfg (idx self) None None false self eq_refl w)
      as [[Hv Hk] _].
    split; [exact Hv|]. rewrite (keeps_same_tally _ _ _ (conj Hv Hk)). exact Ht.
Qed.

Lemma process_vote_found cfg vote_emoji vote_type message_id who self w :
  fetchrow_idx (idx self) (suggestions w) = Some self →
  let approval := opt_is vote_emoji (approve_emoji_id cfg) in
  let self' := set_vote_target approval vote_type self in
  Suggestion.process_vote cfg vote_emoji vote_type message_id who self w
  = match public_message_id self with
    | Some _ => (vote_written cfg vote_emoji vote_type who self w, Return self')
    | None =>
        Suggestion.check_council_votes cfg self'
          (vote_written cfg vote_emoji vote_type who self w)
    end.
Proof.
  intros Hs approval self'.
  unfold Suggestion.process_vote, vote_written, bind, execute, modify. simpl.
  fold approval.
  rewrite (update_inplace_found self self')
    by (simpl; rewrite fetchrow_update_idx by reflexivity; rewrite Hs; reflexivity).
  change (public_message_id self') with (public_message_id self).
  destruct (public_message_id self); [reflexivity|].
  destruct vote_type; reflexivity.
Qed.

Lemma vote_written_found cfg vote_emoji vote_type who self w :
  fetchrow_idx (idx self) (suggestions w) = Some self →
  fetchrow_idx (idx self)
    (suggestions (vote_written cfg vote_emoji vote_type who self w))
  = Some (set_vote_target (opt_is vote_emoji (approve_emoji_id cfg)) vote_type self).
Proof.
  intros Hs. unfold vote_written.
  destruct (public_message_id self); simpl;
    rewrite fetchrow_update_idx by reflexivity; rewrite Hs; reflexivity.
Qed.

(** The tally a vote leaves behind, whatever transition follows it. *)
Lemma process_vote_tally cfg vote_emoji vote_type message_id who self w :
  fetchrow_idx (idx self) (suggestions w) = Some self →
  let self' := set_vote_target (opt_is vote_emoji (approve_emoji_id cfg)) vote_type self in
  tally (idx self)
    (Suggestion.process_vote cfg vote_emoji vote_type message_id who self w).1
  = Some (match public_message_id self with
          | Some _ => (upvotes self', downvotes self')
          | None => if promotes cfg self' then (0, 0)
                    else (upvotes self', downvotes self')
          end).
Proof.
  intros Hs self'. rewrite process_vote_found by exact Hs.
  pose proof (vote_written_found cfg vote_emoji vote_type who self w Hs) as Hw.
  fold self' in Hw.
  destruct (public_message_id self) eqn:Hp.
  - simpl. unfold tally. rewrite Hw. reflexivity.
  - change (idx self) with (idx self').
    apply (check_council_votes_effect cfg self'). exact Hw.
Qed.

(** A vote that no transition follows: exactly the two writes. *)
Lemma process_vote_quiet cfg vote_emoji vote_type message_id who self w :
  fetchrow_idx (idx self) (suggestions w) = Some self →
  let self' := set_vote_target (opt_is vote_emoji (approve_emoji_id cfg)) vote_type self in
  quiet cfg self' →
  Suggestion.process_vote cfg vote_emoji vote_type message_id who self w
  = (vote_written cfg vote_emoji vote_type who self w, Return self').
Proof.
  intros Hs self' Hq. rewrite process_vote_found by exact Hs. fold self'.
  destruct Hq as [Hq|Hq].
  - change (public_message_id self') with (public_message_id self) in Hq.
    destruct (public_message_id self); [reflexivity | congruence].
  - destruct (public_message_id self); [reflexivity|].
    rewrite check_council_votes_no_action by exact Hq. reflexivity.
Qed.

(** ** Votes as the listeners receive them *)

Lemma process_raw_reaction_quiet cfg payload vote_type s w :
  counted cfg payload → addressed payload s w →
  let s' := set_vote_target (opt_is (payload_emoji payload) (approve_emoji_id cfg))
              vote_type s in
  quiet cfg s' →
  let w' := vote_written cfg (payload_emoji payload) vote_type
              (payload_user_id payload) s w in
  BlobQueue.process_raw_reaction cfg payload vote_type w = (w', Return tt)
  ∧ addressed payload s' w'.
Proof.
  intros [Hbot Hvote] [Hm Hs] s' Hq w'. split.
  - unfold BlobQueue.process_raw_reaction. rewrite Hvote.
    destruct (Z.eqb_spec (payload_user_id payload) (bot_user_id cfg)); [done|].
    simpl. unfold bind at 1. unfold Suggestion.get_from_message, bind at 1, gets.
    rewrite Hm. unfold ret at 1. unfold bind.
    rewrite process_vote_quiet by assumption. reflexivity.
  - unfold addressed, w', vote_written.
    assert (suggestions
              (match public_message_id s with
               | Some _ =>
                   with_suggestions (update_idx (idx s)
                     (set_vote_target (opt_is (payload_emoji payload) (approve_emoji_id cfg))
                        vote_type)) w
               | None =>
                   with_council_votes
                     (upsert_vote (idx s) (payload_user_id payload)
                        (if opt_is (payload_emoji payload) (approve_emoji_id cfg)
                         then Has_approved else Has_denied)
                        (match vote_type with YAY => true | NAY => false end))
                     (with_suggestions (update_idx (idx s)
                        (set_vote_target (opt_is (payload_emoji payload) (approve_emoji_id cfg))
                           vote_type)) w)
               end)
            = update_idx (idx s)
                (set_vote_target (opt_is (payload_emoji payload) (approve_emoji_id cfg))
                   vote_type) (suggestions w)) as ->
      by (destruct (public_message_id s); reflexivity).
    split.
    + rewrite fetchrow_message_update by reflexivity. rewrite Hm. simpl.
      rewrite Z.eqb_refl. reflexivity.
    + change (idx s') with (idx s).
      rewrite fetchrow_update_idx by reflexivity. rewrite Hs. reflexivity.
Qed.

Lemma tally_addressed payload s w i :
  addressed payload s w → idx s = i → tally i w = Some (upvotes s, downvotes s).
Proof. intros [_ Hs] <-. unfold tally. rewrite Hs. reflexivity. Qed.

(** C1, as the code has it.  Every cast adds 1 to the counter of its
    direction, whatever the ledger says about the reviewer: while the
    suggestion is in the public queue or the thresholds call for no
    transition, the same cast twice in a row adds 2, and a cast followed by a
    revoke leaves the tally where it was before the cast. *)
Theorem cast_twice_counts_twice cfg payload s w :
  counted cfg payload → addressed payload s w →
  let approval := opt_is (payload_emoji payload) (approve_emoji_id cfg) in
  let s1 := set_vote_target approval YAY s in
  let s2 := set_vote_target approval YAY s1 in
  quiet cfg s → quiet cfg s1 → quiet cfg s2 →
  let cast := BlobQueue.process_raw_reaction cfg payload YAY in
  let revoke := BlobQueue.process_raw_reaction cfg payload NAY in
  tally (idx s) (cast w).1
  = Some (if approval then (upvotes s + 1, downvotes s)
          else (upvotes s, downvotes s + 1))
  ∧ tally (idx s) ((cast ;;; cast) w).1
    = Some (if approval then (upvotes s + 2, downvotes s)
            else (upvotes s, downvotes s + 2))
  ∧ tally (idx s) ((cast ;;; revoke) w).1 = Some (upvotes s, downvotes s).
Proof.
  intros Hc Ha approval s1 s2 Hq Hq1 Hq2 cast revoke.
  destruct (process_raw_reaction_quiet cfg payload YAY s w Hc Ha Hq1) as [E1 Ha1].
  fold approval s1 cast in E1, Ha1.
  destruct (process_raw_reaction_quiet cfg payload YAY s1 _ Hc Ha1 Hq2) as [E2 Ha2].
  fold approval s2 cast in E2, Ha2.
  assert (quiet cfg (set_vote_target approval NAY s1)) as Hq'
    by (unfold s1; rewrite set_vote_target_undo; exact Hq).
  destruct (process_raw_reaction_quiet cfg payload NAY s1 _ Hc Ha1 Hq') as [E3 Ha3].
  fold approval revoke in E3, Ha3.
  unfold bind. rewrite E1. simpl. rewrite E2, E3. simpl.
  rewrite (tally_addressed _ _ _ (idx s) Ha1 eq_refl).
  rewrite (tally_addressed _ _ _ (idx s) Ha2 eq_refl).
  rewrite (tally_addressed _ _ _ (idx s) Ha3 eq_refl).
  unfold s2, s1. rewrite set_vote_target_undo.
  destruct approval; simpl; repeat split; do 2 f_equal; lia.
Qed.

(** C2, as the code has it.  A revoke is no error for want of a cast, and no
    no-op either: it takes 1 from the counter of its direction whatever the
    ledger says, and nothing floors the counter, which from 0 goes to -1. *)
Theorem revoke_always_subtracts cfg payload s w :
  counted cfg payload → addressed payload s w →
  let approval := opt_is (payload_emoji payload) (approve_emoji_id cfg) in
  quiet cfg (set_vote_target approval NAY s) →
  let r := BlobQueue.process_raw_reaction cfg payload NAY w in
  r.2 = Return tt
  ∧ tally (idx s) r.1
    = Some (if approval then (upvotes s - 1, downvotes s)
            else (upvotes s, downvotes s - 1)).
Proof.
  intros Hc Ha approval Hq.
  destruct (process_raw_reaction_quiet cfg payload NAY s w Hc Ha Hq) as [E Ha'].
  fold approval in E, Ha'. simpl. rewrite E. simpl. split; [reflexivity|].
  rewrite (tally_addressed _ _ _ (idx s) Ha' eq_refl).
  destruct approval; reflexivity.
Qed.

Lemma cast_twice_counts_twice_witness :
  counted demo_config (approve_reaction 7)
  ∧ addressed (approve_reaction 7) (council_row 1 0 0) (world_of [council_row 1 0 0])
  ∧ tally 1 (cast (approve_reaction 7) (world_of [council_row 1 0 0])).1 = Some (1, 0)
  ∧ tally 1 ((cast (approve_reaction 7) ;;; cast (approve_reaction 7))
               (world_of [council_row 1 0 0])).1 = Some (2, 0)
  ∧ tally 1 ((cast (approve_reaction 7) ;;; revoke (approve_reaction 7))
               (world_of [council_row 1 0 0])).1 = Some (0, 0).
Proof.
  assert (counted demo_config (approve_reaction 7)) as Hc
    by (split; [simpl; lia | reflexivity]).
  assert (addressed (approve_reaction 7) (council_row 1 0 0)
            (world_of [council_row 1 0 0])) as Ha
    by (split; reflexivity).
  split; [exact Hc|]. split; [exact Ha|].
  apply (cast_twice_counts_twice demo_config (approve_reaction 7)
           (council_row 1 0 0) (world_of [council_row 1 0 0]) Hc Ha);
    right; left; simpl; lia.
Defined.

(** C1 fails on the code: reviewer 7 approves suggestion 1 twice in a row.
    After the first cast the ledger has the reviewer as approving and the
    tally is (1, 0); the second cast makes it (2, 0), and the revoke that
    follows leaves (1, 0), not the (0, 0) from before the casts. *)
Lemma duplicate_cast_counts_again :
  let w0 := world_of [council_row 1 0 0] in
  let w1 := (cast (approve_reaction 7) w0).1 in
  let w2 := (cast (approve_reaction 7) w1).1 in
  let w3 := (revoke (approve_reaction 7) w2).1 in
  tally 1 w0 = Some (0, 0)
  ∧ (has_approved <$> vote_entry 1 7 (council_votes w1)) = Some (Some true)
  ∧ tally 1 w1 = Some (1, 0)
  ∧ tally 1 w2 = Some (2, 0)
  ∧ tally 1 w3 = Some (1, 0).
Proof. vm_compute. repeat split. Qed.

Lemma revoke_always_subtracts_witness :
  counted demo_config (approve_reaction 7)
  ∧ addressed (approve_reaction 7) (council_row 1 3 1) (world_of [council_row 1 3 1])
  ∧ (revoke (approve_reaction 7) (world_of [council_row 1 3 1])).2 = Return tt
  ∧ tally 1 (revoke (approve_reaction 7) (world_of [council_row 1 3 1])).1
    = Some (2, 1).
Proof.
  assert (counted demo_config (approve_reaction 7)) as Hc
    by (split; [simpl; lia | reflexivity]).
  assert (addressed (approve_reaction 7) (council_row 1 3 1)
            (world_of [council_row 1 3 1])) as Ha
    by (split; reflexivity).
  split; [exact Hc|]. split; [exact Ha|].
  apply (revoke_always_subtracts demo_config (approve_reaction 7)
           (council_row 1 3 1) (world_of [council_row 1 3 1]) Hc Ha).
  right; left; simpl; lia.
Defined.

(** C2 fails on the code: nobody has voted on suggestion 1 and its tally is
    (0, 0); reviewer 7 withdraws an approval that was never cast.  The handler
    returns normally, and the upvote counter is -1. *)
Lemma revoke_without_cast_goes_negative :
  let w0 := world_of [council_row 1 0 0] in
  let r := revoke (approve_reaction 7) w0 in
  council_votes w0 = []
  ∧ tally 1 w0 = Some (0, 0)
  ∧ r.2 = Return tt
  ∧ tally 1 r.1 = Some (-1, 0)
  ∧ tally 1 r.1 ≠ tally 1 w0.
Proof. vm_compute. repeat split. discriminate. Qed.

(** ** The resolution policy *)

Lemma move_to_public_queue_succeeds cfg who reason self w m :
  fetchrow_idx (idx self) (suggestions w) = Some self →
  council_approved self ≠ Some true →
  emoji_id self ∈ emojis w →
  council_message_id self = Some m →
  (council_queue cfg, m) ∈ messages w →
  let r := Suggestion.move_to_public_queue cfg who reason self w in
  let row := set_public (next_id w) reason who (utcnow w) (set_council_message_null self) in
  r.2 = Return row
  ∧ fetchrow_idx (idx self) (suggestions r.1) = Some row.
Proof.
  intros Hs Hnp He Hm Hin.
  assert (Suggestion.is_in_public_queue self = false) as Hq.
  { unfold Suggestion.is_in_public_queue.
    destruct (council_approved self) as [[|]|]; congruence. }
  assert (fetchrow_idx (idx self)
            (update_idx (idx self) set_council_message_null (suggestions w))
          = Some (set_council_message_null self)) as Hs1
    by (rewrite fetchrow_update_idx by reflexivity; rewrite Hs; reflexivity).
  assert (∀ now,
            fetchrow_idx (idx self)
              (update_idx (idx self) (set_public (next_id w) reason who now)
                 (update_idx (idx self) set_council_message_null (suggestions w)))
            = Some (set_public (next_id w) reason who now (set_council_message_null self)))
    as Hs2
    by (intros now; rewrite fetchrow_update_idx by reflexivity; rewrite Hs1; reflexivity).
  unfold Suggestion.move_to_public_queue. rewrite Hq.
  cbv [bind get_user get_emoji gets ret raise emit modify channel_send emoji_delete
         Suggestion.delete_from_council_queue get_message message_delete execute
         Suggestion.update_inplace Suggestion.delete_from_suggestions_channel
         try_except user_send].
  simpl. rewrite (bool_decide_eq_true_2 _ He). rewrite Hm.
  destruct (bool_decide (user_id self ∈ users w)); simpl.
  all: rewrite bool_decide_eq_true_2 by set_solver; simpl.
  all: rewrite Hs1; simpl.
  all: destruct (suggestions_message_id self) as [sm|]; simpl.
  all: try (destruct (sm =? 0); simpl).
  all: repeat match goal with
       | |- context [bool_decide ?P] => destruct (bool_decide P); simpl
       end.
  all: rewrite ?Hs2; simpl.
  all: repeat match goal with
       | |- context [bool_decide ?P] => destruct (bool_decide P); simpl
       end.
  all: try (split; reflexivity).
  all: rewrite ?Hs2; simpl; split; reflexivity.
Qed.

Lemma deny_succeeds cfg who reason revoke self w m :
  fetchrow_idx (idx self) (suggestions w) = Some self →
  council_approved self = None →
  emoji_id self ∈ emojis w →
  council_message_id self = Some m →
  (council_queue cfg, m) ∈ messages w →
  let r := Suggestion.deny cfg who reason revoke self w in
  let row := set_council_message_null
               ((if revoke then set_revoked else id)
                  (set_denied reason who (utcnow w) self)) in
  r.2 = Return row
  ∧ fetchrow_idx (idx self) (suggestions r.1) = Some row.
Proof.
  intros Hs Hp He Hm Hin.
  assert (∀ f g h : Row → Row,
            (∀ r, idx (f r) = idx r) → (∀ r, idx (g r) = idx r) →
            (∀ r, idx (h r) = idx r) →
            fetchrow_idx (idx self)
              (update_idx (idx self) h
                 (update_idx (idx self) g (update_idx (idx self) f (suggestions w))))
            = Some (h (g (f self)))) as Hs3.
  { intros f g h Hf Hg Hh. rewrite !fetchrow_update_idx by assumption.
    rewrite Hs. reflexivity. }
  assert (∀ f g : Row → Row,
            (∀ r, idx (f r) = idx r) → (∀ r, idx (g r) = idx r) →
            fetchrow_idx (idx self)
              (update_idx (idx self) g (update_idx (idx self) f (suggestions w)))
            = Some (g (f self))) as Hs2.
  { intros f g Hf Hg. rewrite !fetchrow_update_idx by assumption.
    rewrite Hs. reflexivity. }
  assert (∀ f : Row → Row,
            (∀ r, idx (f r) = idx r) →
            fetchrow_idx (idx self) (update_idx (idx self) f (suggestions w))
            = Some (f self)) as Hs1.
  { intros f Hf. rewrite !fetchrow_update_idx by assumption.
    rewrite Hs. reflexivity. }
  unfold Suggestion.deny, Suggestion.is_in_public_queue, Suggestion.is_denied.
  rewrite Hp.
  cbv [bind get_user get_emoji gets ret raise emit modify channel_send emoji_delete
         Suggestion.delete_from_council_queue get_message message_delete execute
         Suggestion.update_inplace Suggestion.delete_from_suggestions_channel try_except user_send].
  simpl. rewrite (bool_decide_eq_true_2 _ He). simpl.
  destruct (bool_decide (user_id self ∈ users w)), revoke; simpl.
  all: rewrite ?Hs2, ?Hs1 by reflexivity; simpl.
  all: rewrite Hm; simpl.
  all: rewrite (bool_decide_eq_true_2 _ Hin); simpl.
  all: rewrite ?Hs3, ?Hs2 by reflexivity; simpl.
  all: destruct (suggestions_message_id self) as [sm|]; simpl.
  all: try (destruct (sm =? 0); simpl).
  all: repeat match goal with
       | |- context [bool_decide ?P] => destruct (bool_decide P); simpl
       end.
  all: rewrite ?Hs3, ?Hs2 by reflexivity; simpl.
  all: try (split; reflexivity).
Qed.

(** C3.  [check_council_votes] does what the policy of the specification
    decides at the tally of the suggestion and the configured thresholds:
    nothing, the reset and the move to the public queue, or the denial.  For
    a suggestion of the council queue whose emoji and council message are
    there, the move ends with the suggestion in the public queue and the
    denial with the suggestion denied.  With five votes and a margin of three
    required, the policy takes no action at (4, 0) and at (3, 3), promotes at
    (4, 1) and denies at (1, 4). *)
Theorem check_council_votes_policy :
  (∀ cfg self,
     Suggestion.check_council_votes cfg self
     = perform cfg
         (resolution_policy (upvotes self) (downvotes self)
            (required_votes cfg) (required_difference cfg)) self)
  ∧ (∀ cfg self w m,
       fetchrow_idx (idx self) (suggestions w) = Some self →
       council_approved self = None →
       emoji_id self ∈ emojis w →
       council_message_id self = Some m →
       (council_queue cfg, m) ∈ messages w →
       let r := Suggestion.check_council_votes cfg self w in
       match resolution_policy (upvotes self) (downvotes self)
               (required_votes cfg) (required_difference cfg) with
       | No_action => r = (w, Return self)
       | Promote =>
           (∃ row, r.2 = Return row) ∧ state (idx self) r.1 = Some (Some true)
       | Deny =>
           (∃ row, r.2 = Return row) ∧ state (idx self) r.1 = Some (Some false)
       end)
  ∧ resolution_policy 4 0 5 3 = No_action
  ∧ resolution_policy 4 1 5 3 = Promote
  ∧ resolution_policy 1 4 5 3 = Deny
  ∧ resolution_policy 3 3 5 3 = No_action.
Proof.
  assert (∀ cfg self,
            Suggestion.check_council_votes cfg self
            = perform cfg
                (resolution_policy (upvotes self) (downvotes self)
                   (required_votes cfg) (required_difference cfg)) self) as Hpolicy.
  { intros cfg self. unfold Suggestion.check_council_votes, resolution_policy.
    rewrite !Z.geb_leb.
    destruct (Z.ltb_spec (upvotes self + downvotes self) (required_votes cfg));
      destruct (decide (upvotes self + downvotes self < required_votes cfg));
      try lia; [reflexivity|].
    destruct (Z.leb_spec (required_difference cfg) (upvotes self - downvotes self));
      destruct (decide (upvotes self - downvotes self >= required_difference cfg));
      try lia; [reflexivity|].
    destruct (Z.leb_spec (required_difference cfg) (downvotes self - upvotes self));
      destruct (decide (downvotes self - upvotes self >= required_difference cfg));
      try lia; reflexivity. }
  split; [exact Hpolicy|]. split; [|repeat split].
  intros cfg self w m Hs Hp He Hm Hin. simpl. rewrite Hpolicy.
  destruct (resolution_policy _ _ _ _); simpl.
  - reflexivity.
  - unfold bind. rewrite reset_votes_found by exact Hs.
    destruct (move_to_public_queue_succeeds cfg None None (set_votes_zero self)
                (with_suggestions (update_idx (idx self) set_votes_zero) w) m)
      as [Hret Hrow]; try assumption.
    + simpl. rewrite fetchrow_update_idx by reflexivity. rewrite Hs. reflexivity.
    + simpl. rewrite Hp. discriminate.
    + split; [eauto|]. unfold state.
      change (idx (set_votes_zero self)) with (idx self) in Hrow.
      rewrite Hrow. reflexivity.
  - destruct (deny_succeeds cfg None None false self w m Hs Hp He Hm Hin)
      as [Hret Hrow].
    split; [eauto|]. unfold state. rewrite Hrow. reflexivity.
Qed.

Lemma check_council_votes_policy_witness :
  fetchrow_idx 1 (suggestions (world_of [council_row 1 4 1])) = Some (council_row 1 4 1)
  ∧ council_approved (council_row 1 4 1) = None
  ∧ emoji_id (council_row 1 4 1) ∈ emojis (world_of [council_row 1 4 1])
  ∧ council_message_id (council_row 1 4 1) = Some 301
  ∧ (council_queue demo_config, 301) ∈ messages (world_of [council_row 1 4 1])
  ∧ state 1 (Suggestion.check_council_votes demo_config (council_row 1 4 1)
               (world_of [council_row 1 4 1])).1 = Some (Some true).
Proof.
  assert (emoji_id (council_row 1 4 1) ∈ emojis (world_of [council_row 1 4 1])) as He
    by (apply (bool_decide_unpack _); vm_compute; exact I).
  assert ((council_queue demo_config, 301) ∈ messages (world_of [council_row 1 4 1]))
    as Hin by (apply (bool_decide_unpack _); vm_compute; exact I).
  split; [reflexivity|]. split; [reflexivity|]. split; [exact He|].
  split; [reflexivity|]. split; [exact Hin|].
  destruct check_council_votes_policy as (_ & Hrun & _).
  apply (Hrun demo_config (council_row 1 4 1) (world_of [council_row 1 4 1]) 301
           eq_refl eq_refl He eq_refl Hin).
Defined.

(** ** Promotion and the tally *)

(** The move to the public queue writes neither counter, on any path. *)
Lemma move_to_public_queue_same_tally cfg who reason self w :
  tally (idx self) (Suggestion.move_to_public_queue cfg who reason self w).1
  = tally (idx self) w.
Proof.
  apply keeps_same_tally.
  apply (keeps_move_to_public_queue cfg (idx self) who reason self eq_refl w).
Qed.

(** The promotion the policy decides starts from a tally of zero. *)
Lemma policy_promotion_resets cfg self w :
  fetchrow_idx (idx self) (suggestions w) = Some self →
  promotes cfg self = true →
  tally (idx self) (Suggestion.check_council_votes cfg self w).1 = Some (0, 0).
Proof.
  intros Hs Hp.
  destruct (check_council_votes_effect cfg self w Hs) as [_ Ht].
  rewrite Hp in Ht. exact Ht.
Qed.

(** C4 fails on the code.  The [approve] command moves a suggestion with the
    tally it has: suggestion 1 stands at (2, 1) in the council queue, council
    member 8 approves it and confirms, the command succeeds, the suggestion
    is in the public queue and its tally is still (2, 1).  The same
    suggestion promoted by the policy at (4, 1) arrives there with (0, 0). *)
Theorem forced_approve_keeps_tally :
  (∀ cfg who reason self w,
     tally (idx self) (Suggestion.move_to_public_queue cfg who reason self w).1
     = tally (idx self) w)
  ∧ (let r := BlobQueue.approve demo_config 8 (council_row 1 2 1) None (Some true)
                (world_of [council_row 1 2 1]) in
     r.2 = Return tt
     ∧ state 1 r.1 = Some (Some true)
     ∧ tally 1 r.1 = Some (2, 1))
  ∧ (let r := Suggestion.check_council_votes demo_config (council_row 1 4 1)
                (world_of [council_row 1 4 1]) in
     state 1 r.1 = Some (Some true) ∧ tally 1 r.1 = Some (0, 0)).
Proof.
  split; [exact move_to_public_queue_same_tally|].
  vm_compute. repeat split.
Qed.

(** ** Transitions that are refused *)

Lemma deny_refused cfg who reason revoke self w :
  council_approved self ≠ None →
  ∃ msg, Suggestion.deny cfg who reason revoke self w = (w, Raise (OperationError msg)).
Proof.
  intros H. unfold Suggestion.deny, Suggestion.is_in_public_queue, Suggestion.is_denied.
  destruct (council_approved self) as [[|]|]; [eauto | eauto | congruence].
Qed.

Lemma move_to_public_queue_refused cfg who reason self w :
  council_approved self = Some true →
  ∃ msg, Suggestion.move_to_public_queue cfg who reason self w
         = (w, Raise (OperationError msg)).
Proof.
  intros H. unfold Suggestion.move_to_public_queue, Suggestion.is_in_public_queue.
  rewrite H. eauto.
Qed.

Section raises.
Context {allowed : Exn → bool}.

Lemma raises_only_ret {A} (a : A) : raises_only allowed (ret a).
Proof. intros w e. discriminate. Qed.

Lemma raises_only_gets {A} (f : World → A) : raises_only allowed (gets f).
Proof. intros w e. discriminate. Qed.

Lemma raises_only_modify f : raises_only allowed (modify f).
Proof. intros w e. discriminate. Qed.

Lemma raises_only_raise {A} e : allowed e = true → raises_only allowed (@raise A e).
Proof. intros H w e' [= <-]. exact H. Qed.

Lemma raises_only_bind {A B} (m : M A) (k : A → M B) :
  raises_only allowed m → (∀ a, raises_only allowed (k a)) →
  raises_only allowed (bind m k).
Proof.
  intros Hm Hk w e. unfold bind. specialize (Hm w).
  destruct (m w) as [w' [a|e']]; simpl in *.
  - apply Hk.
  - intros [= <-]. apply Hm. reflexivity.
Qed.

Lemma raises_only_try_except {A} (m h : M A) handled :
  raises_only allowed m → raises_only allowed h →
  raises_only allowed (try_except m handled h).
Proof.
  intros Hm Hh w e. unfold try_except. specialize (Hm w).
  destruct (m w) as [w' [a|e']]; simpl in *; [discriminate|].
  destruct (handled e'); simpl.
  - apply Hh.
  - intros [= <-]. apply Hm. reflexivity.
Qed.
End raises.

Ltac raises_step :=
  lazymatch goal with
  | |- raises_only _ (bind _ _) => apply raises_only_bind; [|intros ?]
  | |- raises_only _ (try_except _ _ _) => apply raises_only_try_except
  | |- raises_only _ (ret _) => apply raises_only_ret
  | |- raises_only _ (gets _) => apply raises_only_gets
  | |- raises_only _ (modify _) => apply raises_only_modify
  | |- raises_only _ (emit _) => apply raises_only_modify
  | |- raises_only _ (execute _ _) => apply raises_only_modify
  | |- raises_only _ (get_user _) => apply raises_only_gets
  | |- raises_only _ (get_emoji _) => apply raises_only_gets
  | |- raises_only _ (raise _) => apply raises_only_raise; reflexivity
  | |- raises_only _ (if ?b then _ else _) => destruct b
  | |- raises_only _ (match ?x with _ => _ end) => destruct x
  end.

Lemma get_message_raises c m :
  raises_only other_than_operation_error (get_message c m).
Proof. unfold get_message. repeat raises_step. Qed.

Lemma message_delete_raises c m :
  raises_only other_than_operation_error (message_delete c m).
Proof. unfold message_delete. repeat raises_step. Qed.

Lemma emoji_delete_raises id :
  raises_only other_than_operation_error (emoji_delete id).
Proof. unfold emoji_delete. repeat raises_step. Qed.

Lemma channel_send_raises c l :
  raises_only other_than_operation_error (channel_send c l).
Proof. unfold channel_send. repeat raises_step. Qed.

Lemma user_send_raises u t :
  raises_only other_than_operation_error (user_send u t).
Proof. unfold user_send. repeat raises_step. Qed.

Lemma update_inplace_raises self :
  raises_only other_than_operation_error (Suggestion.update_inplace self).
Proof. unfold Suggestion.update_inplace. repeat raises_step. Qed.

Lemma delete_from_council_queue_raises cfg self :
  raises_only other_than_operation_error
    (Suggestion.delete_from_council_queue cfg self).
Proof.
  unfold Suggestion.delete_from_council_queue.
  raises_step; [apply get_message_raises|].
  raises_step; [apply message_delete_raises|].
  raises_step; [raises_step | apply update_inplace_raises].
Qed.

Lemma delete_from_suggestions_channel_raises cfg self :
  raises_only other_than_operation_error
    (Suggestion.delete_from_suggestions_channel cfg self).
Proof.
  unfold Suggestion.delete_from_suggestions_channel.
  destruct (suggestions_message_id self) as [m|]; [|raises_step].
  destruct (m =? 0); [raises_step|].
  raises_step; [|raises_step].
  raises_step; [apply get_message_raises | apply message_delete_raises].
Qed.

(** A suggestion that is not in the public queue, a denied one too, is never
    refused by [move_to_public_queue]. *)
Lemma move_to_public_queue_never_refuses cfg who reason self w msg :
  council_approved self ≠ Some true →
  (Suggestion.move_to_public_queue cfg who reason self w).2
  ≠ Raise (OperationError msg).
Proof.
  intros Hnp Hraise.
  assert (raises_only other_than_operation_error
            (Suggestion.move_to_public_queue cfg who reason self)) as H;
    [|apply H in Hraise; discriminate].
  assert (Suggestion.is_in_public_queue self = false) as Hq.
  { unfold Suggestion.is_in_public_queue.
    destruct (council_approved self) as [[|]|]; congruence. }
  unfold Suggestion.move_to_public_queue. rewrite Hq.
  raises_step; [raises_step|]. raises_step; [raises_step|].
  raises_step; [repeat raises_step|].
  raises_step; [repeat raises_step|].
  raises_step; [raises_step|].
  raises_step; [apply channel_send_raises|].
  raises_step; [raises_step|]. raises_step; [raises_step|].
  raises_step; [apply emoji_delete_raises|].
  raises_step; [apply delete_from_council_queue_raises|].
  raises_step; [apply delete_from_suggestions_channel_raises|].
  raises_step; [raises_step|]. raises_step; [raises_step|].
  raises_step; [apply update_inplace_raises|].
  raises_step; [|raises_step].
  raises_step; [|raises_step].
  raises_step; [apply user_send_raises | raises_step].
Qed.

(** C5 fails on the code where a denied suggestion is approved:
    [move_to_public_queue] refuses a suggestion of the public queue only, and
    no denied suggestion makes it raise [OperationError].  After the denial
    of suggestion 1 its emoji is gone, and the [approve] command returns
    without any error and answers that the suggestion was approved.  Where
    the emoji and the council message of a denied suggestion are still there,
    the command moves it to the public queue. *)
Theorem approve_after_deny_not_refused :
  (∀ cfg who reason self w msg,
     Suggestion.is_denied self = true →
     (Suggestion.move_to_public_queue cfg who reason self w).2
     ≠ Raise (OperationError msg))
  ∧ (let r := BlobQueue.approve demo_config 8 (reload 1 denied_world) None (Some true)
                denied_world in
     state 1 denied_world = Some (Some false)
     ∧ r.2 = Return tt
     ∧ head (outbox r.1) = Some (Ctx_done "Successfully approved" 1)
     ∧ state 1 r.1 = Some (Some false))
  ∧ (let r := BlobQueue.approve demo_config 8 half_denied_row None (Some true)
                (world_of [half_denied_row]) in
     state 1 (world_of [half_denied_row]) = Some (Some false)
     ∧ r.2 = Return tt
     ∧ state 1 r.1 = Some (Some true)).
Proof.
  split.
  - intros cfg who reason self w msg Hd.
    apply move_to_public_queue_never_refuses.
    unfold Suggestion.is_denied in Hd.
    destruct (council_approved self) as [[|]|]; congruence.
  - vm_compute. repeat split.
Qed.

(** ** Votes on a suggestion of the public queue *)

(** C6, as the code has it.  For a suggestion that has a public message,
    [process_vote] writes the counter and returns: the ledger is not written
    and [check_council_votes] is not called, so nothing is sent and the state
    stays what it was. *)
Theorem public_vote_only_tallied cfg vote_emoji vote_type message_id who self w :
  fetchrow_idx (idx self) (suggestions w) = Some self →
  public_message_id self ≠ None →
  let set := set_vote_target (opt_is vote_emoji (approve_emoji_id cfg)) vote_type in
  let r := Suggestion.process_vote cfg vote_emoji vote_type message_id who self w in
  r = (with_suggestions (update_idx (idx self) set) w, Return (set self))
  ∧ council_votes r.1 = council_votes w
  ∧ outbox r.1 = outbox w
  ∧ state (idx self) r.1 = state (idx self) w.
Proof.
  intros Hs Hp set r.
  assert (r = (with_suggestions (update_idx (idx self) set) w, Return (set self)))
    as ->.
  { unfold r. rewrite process_vote_found by exact Hs. unfold vote_written.
    destruct (public_message_id self); [reflexivity | congruence]. }
  repeat split. unfold state. simpl.
  rewrite fetchrow_update_idx by reflexivity.
  destruct (fetchrow_idx (idx self) (suggestions w)); reflexivity.
Qed.

Lemma public_vote_only_tallied_witness :
  fetchrow_idx 1 (suggestions (world_of [queued_row 1 2 0])) = Some (queued_row 1 2 0)
  ∧ public_message_id (queued_row 1 2 0) ≠ None
  ∧ Suggestion.process_vote demo_config (Some 100) YAY 501 9 (queued_row 1 2 0)
      (world_of [queued_row 1 2 0])
    = (world_of [queued_row 1 3 0], Return (queued_row 1 3 0)).
Proof.
  assert (fetchrow_idx (idx (queued_row 1 2 0)) (suggestions (world_of [queued_row 1 2 0]))
          = Some (queued_row 1 2 0)) as Hs by reflexivity.
  assert (public_message_id (queued_row 1 2 0) ≠ None) as Hp by discriminate.
  split; [exact Hs|]. split; [exact Hp|].
  destruct (public_vote_only_tallied demo_config (Some 100) YAY 501 9
              (queued_row 1 2 0) (world_of [queued_row 1 2 0]) Hs Hp) as [H _].
  exact H.
Defined.

(** C6 fails on the code, both ways.  Reviewer 9 approves suggestion 1 on its
    public message: the tally counts the vote and the ledger has no entry for
    the reviewer.  And a denied suggestion has no public message, so a vote
    processed for it is written to the ledger and judged by the policy:
    reviewer 5 votes against suggestion 1 after its denial, and
    [process_vote] ends in the error of a second denial. *)
Lemma late_vote_counterexample :
  (let r := cast (mkPayload (Some 100) 11 1000 9) promoted_world in
   state 1 promoted_world = Some (Some true)
   ∧ tally 1 promoted_world = Some (0, 0)
   ∧ tally 1 r.1 = Some (1, 0)
   ∧ vote_entry 1 9 (council_votes r.1) = None)
  ∧ (let r := Suggestion.process_vote demo_config (Some 101) YAY 301 5
                (reload 1 policy_denied_world) policy_denied_world in
     state 1 policy_denied_world = Some (Some false)
     ∧ tally 1 r.1 = Some (1, 5)
     ∧ (has_denied <$> vote_entry 1 5 (council_votes r.1)) = Some (Some true)
     ∧ r.2 = Raise (OperationError
                "Can't deny this suggestion -- it has already been denied.")).
Proof. vm_compute. repeat split. Qed.

(** ** The ledger *)

Lemma same_key_set_column i who c b v :
  same_key i who (set_column c b v) = same_key i who v.
Proof. destruct c; reflexivity. Qed.

Lemma same_key_true i who v :
  same_key i who v = true ↔ (suggestion_index v, voter_id v) = (i, who).
Proof.
  unfold same_key. rewrite andb_true_iff, !Z.eqb_eq. split.
  - intros [-> ->]. reflexivity.
  - intros [= -> ->]. auto.
Qed.

Lemma existsb_same_key i who votes :
  existsb (same_key i who) votes = true ↔ (i, who) ∈ keys votes.
Proof.
  unfold keys. rewrite existsb_exists, list_elem_of_fmap. split.
  - intros (v & Hin & Hk). exists v. apply same_key_true in Hk.
    split; [done | by apply list_elem_of_In].
  - intros (v & Hk & Hin). exists v.
    split; [by apply list_elem_of_In | by apply same_key_true].
Qed.

Lemma vote_entry_none i who votes :
  existsb (same_key i who) votes = false → vote_entry i who votes = None.
Proof.
  unfold vote_entry. induction votes as [|v votes IH]; [reflexivity|]. simpl.
  destruct (same_key i who v); [discriminate | exact IH].
Qed.

Lemma keys_upsert_vote i who c b votes :
  keys (upsert_vote i who c b votes)
  = if existsb (same_key i who) votes then keys votes else keys votes ++ [(i, who)].
Proof.
  unfold upsert_vote, keys. destruct (existsb (same_key i who) votes).
  - rewrite <- list_fmap_compose. apply list_fmap_ext. intros _ v _. simpl.
    destruct (same_key i who v), c; reflexivity.
  - rewrite fmap_app. destruct c; reflexivity.
Qed.

(** The upsert keeps one row per pair of suggestion and reviewer. *)
Lemma upsert_vote_NoDup i who c b votes :
  NoDup (keys votes) → NoDup (keys (upsert_vote i who c b votes)).
Proof.
  intros Hnd. rewrite keys_upsert_vote.
  destruct (existsb (same_key i who) votes) eqn:E; [exact Hnd|].
  apply NoDup_app. split; [exact Hnd|]. split; [|apply NoDup_singleton].
  intros k Hk ->%list_elem_of_singleton.
  apply existsb_same_key in Hk. congruence.
Qed.

(** The row of the pair after the upsert: the row it had, or a new one, with
    the one flag overwritten. *)
Lemma vote_entry_upsert i who c b votes :
  vote_entry i who (upsert_vote i who c b votes)
  = Some (set_column c b
            (default (mkVoteRow i who None None) (vote_entry i who votes))).
Proof.
  unfold upsert_vote, vote_entry.
  destruct (existsb (same_key i who) votes) eqn:E.
  - induction votes as [|v votes IH]; [discriminate|]. simpl in *.
    destruct (same_key i who v) eqn:K.
    + simpl. rewrite same_key_set_column, K. reflexivity.
    + simpl. rewrite K. apply IH, E.
  - induction votes as [|v votes IH]; simpl in *.
    + rewrite same_key_set_column. unfold same_key. simpl.
      rewrite !Z.eqb_refl. reflexivity.
    + destruct (same_key i who v); [discriminate | apply IH, E].
Qed.

Lemma vote_entry_upsert_other i who c b j u votes :
  (j, u) ≠ (i, who) →
  vote_entry j u (upsert_vote i who c b votes) = vote_entry j u votes.
Proof.
  intros Hne. unfold upsert_vote, vote_entry.
  assert (∀ v, same_key i who v = true → same_key j u v = false) as Hoff.
  { intros v Hv. apply same_key_true in Hv.
    destruct (same_key j u v) eqn:K; [|reflexivity].
    apply same_key_true in K. congruence. }
  destruct (existsb (same_key i who) votes).
  - induction votes as [|v votes IH]; [reflexivity|]. simpl.
    destruct (same_key i who v) eqn:K.
    + rewrite same_key_set_column, (Hoff v K). exact IH.
    + destruct (same_key j u v); [reflexivity | exact IH].
  - induction votes as [|v votes IH]; simpl.
    + rewrite same_key_set_column.
      rewrite (Hoff (mkVoteRow i who None None)); [reflexivity|].
      unfold same_key. simpl. rewrite !Z.eqb_refl. reflexivity.
    + destruct (same_key j u v); [reflexivity | exact IH].
Qed.

(** The policy and the transitions it starts never write the ledger. *)
Lemma check_council_votes_ledger cfg self w :
  council_votes (Suggestion.check_council_votes cfg self w).1 = council_votes w.
Proof.
  unfold Suggestion.check_council_votes.
  destruct (upvotes self + downvotes self <? required_votes cfg); [reflexivity|].
  destruct (upvotes self - downvotes self >=? required_difference cfg).
  - cbv [bind Suggestion.reset_votes execute modify Suggestion.update_inplace gets
         ret raise].
    simpl.
    destruct (fetchrow_idx (idx self) (update_idx (idx self) set_votes_zero (suggestions w)))
      as [r|]; simpl; [|reflexivity].
    destruct (keeps_move_to_public_queue cfg (idx r) None None r eq_refl
                (with_suggestions (update_idx (idx self) set_votes_zero) w))
      as [[Hv _] _].
    exact Hv.
  - destruct (downvotes self - upvotes self >=? required_difference cfg);
      [|reflexivity].
    destruct (keeps_deny cfg (idx self) None None false self eq_refl w) as [[Hv _] _].
    exact Hv.
Qed.

(** C7, as the code has it.  A vote keeps the ledger at one row per pair of
    suggestion and reviewer.  In the row of the voting pair it overwrites the
    flag of its own direction, true for a cast and false for a revoke, and
    leaves the flag of the other direction as it was; the rows of the other
    pairs stay as they were. *)
Theorem ledger_one_row_per_pair cfg vote_emoji vote_type message_id who self w :
  NoDup (keys (council_votes w)) →
  fetchrow_idx (idx self) (suggestions w) = Some self →
  public_message_id self = None →
  let approval := opt_is vote_emoji (approve_emoji_id cfg) in
  let column := if approval then Has_approved else Has_denied in
  let flag := match vote_type with YAY => true | NAY => false end in
  let before := default (mkVoteRow (idx self) who None None)
                  (vote_entry (idx self) who (council_votes w)) in
  let votes :=
    council_votes
      (Suggestion.process_vote cfg vote_emoji vote_type message_id who self w).1 in
  NoDup (keys votes)
  ∧ vote_entry (idx self) who votes = Some (set_column column flag before)
  ∧ (if approval then has_denied (set_column column flag before) = has_denied before
     else has_approved (set_column column flag before) = has_approved before)
  ∧ ∀ j u, (j, u) ≠ (idx self, who) →
           vote_entry j u votes = vote_entry j u (council_votes w).
Proof.
  intros Hnd Hs Hp approval column flag before votes.
  assert (votes = upsert_vote (idx self) who column flag (council_votes w)) as ->.
  { unfold votes. rewrite process_vote_found by exact Hs. rewrite Hp.
    rewrite check_council_votes_ledger. unfold vote_written. rewrite Hp.
    reflexivity. }
  split; [apply upsert_vote_NoDup, Hnd|].
  split; [apply vote_entry_upsert|].
  split; [unfold column; destruct approval; reflexivity|].
  intros j u Hne. apply vote_entry_upsert_other, Hne.
Qed.

Lemma ledger_one_row_per_pair_witness :
  NoDup (keys (council_votes (world_of [council_row 1 0 0])))
  ∧ fetchrow_idx 1 (suggestions (world_of [council_row 1 0 0]))
    = Some (council_row 1 0 0)
  ∧ public_message_id (council_row 1 0 0) = None
  ∧ vote_entry 1 7
      (council_votes
         (Suggestion.process_vote demo_config (Some 100) YAY 301 7
            (council_row 1 0 0) (world_of [council_row 1 0 0])).1)
    = Some (mkVoteRow 1 7 (Some true) None).
Proof.
  assert (NoDup (keys (council_votes (world_of [council_row 1 0 0])))) as Hnd
    by apply NoDup_nil_2.
  split; [exact Hnd|]. split; [reflexivity|]. split; [reflexivity|].
  destruct (ledger_one_row_per_pair demo_config (Some 100) YAY 301 7
              (council_row 1 0 0) (world_of [council_row 1 0 0])
              Hnd eq_refl eq_refl) as (_ & H & _).
  exact H.
Defined.

(** C7 fails on the code: reviewer 7 approves suggestion 1 and then, without
    a revoke, votes against it.  The ledger has one row for the pair, and in
    it the reviewer both approves and denies, which [vote_info] prints as
    Both. *)
Lemma opposite_cast_stands_both_ways :
  let w := ((cast (approve_reaction 7) ;;; cast (deny_reaction 7))
              (world_of [council_row 1 0 0])).1 in
  council_votes w = [mkVoteRow 1 7 (Some true) (Some true)]
  ∧ (vote_label <$> vote_entry 1 7 (council_votes w)) = Some "Both".
Proof. vm_compute. split; reflexivity. Qed.

(** ** The VS command *)

Lemma size_list_to_set_le (l : list Z) :
  (size (list_to_set (C:=gset Z) l) ≤ List.length l)%nat
  ∧ (¬ NoDup l → (size (list_to_set (C:=gset Z) l) < List.length l)%nat).
Proof.
  induction l as [|x l [IHle IHlt]].
  - rewrite list_to_set_nil, size_empty. split; [simpl; lia|].
    intros H. destruct H. constructor.
  - rewrite list_to_set_cons. simpl List.length.
    destruct (decide (x ∈ l)) as [Hin|Hnin].
    + assert ({[x]} ∪ list_to_set l = list_to_set (C:=gset Z) l) as Heq
        by (apply leibniz_equiv; set_solver).
      rewrite Heq. split; [lia|]. intros _. lia.
    + rewrite size_union by set_solver. rewrite size_singleton.
      split; [lia|]. intros Hdup.
      assert (¬ NoDup l) as Hl by (intros Hl; apply Hdup; by constructor).
      specialize (IHlt Hl). lia.
Qed.

Lemma under_vs_lock_emit e w :
  vs_lock w = false →
  BlobQueue.under_vs_lock (emit e) w = (with_outbox (cons e) w, Return tt).
Proof.
  intros H. destruct w. simpl in H. subst. reflexivity.
Qed.

(** C8.  With the VS lock free, a request of fewer than two entries, of more
    than six, or with an emoji that appears twice is answered with the reason
    of the refusal and nothing else happens: the world differs by that one
    answer, so no suggestion, no vote, no emoji and no message has changed. *)
Theorem vs_rejects_malformed cfg emoji decision w :
  vs_lock w = false →
  (List.length emoji < 2)%nat ∨ (6 < List.length emoji)%nat
  ∨ ¬ NoDup (entry_id <$> emoji) →
  ∃ reason,
    BlobQueue.vs cfg emoji decision w = (with_outbox (cons (Ctx_send reason)) w, Return tt)
    ∧ suggestions (BlobQueue.vs cfg emoji decision w).1 = suggestions w
    ∧ (((List.length emoji < 2)%nat
        ∧ reason = "Need at least 2 emoji to do VS vote.")
       ∨ ((6 < List.length emoji)%nat
          ∧ reason = "Refusing to do VS vote of greater than 6 emoji.")
       ∨ (¬ NoDup (entry_id <$> emoji)
          ∧ reason = "Can't have a VS vote with the same emoji appearing more than once.")).
Proof.
  intros Hlock Hbad.
  assert (∀ e, BlobQueue.vs cfg emoji decision w
               = BlobQueue.under_vs_lock (emit (Ctx_send e)) w →
          BlobQueue.vs cfg emoji decision w = (with_outbox (cons (Ctx_send e)) w, Return tt)
          ∧ suggestions (BlobQueue.vs cfg emoji decision w).1 = suggestions w) as Hrun.
  { intros e ->. rewrite under_vs_lock_emit by exact Hlock. split; reflexivity. }
  assert (∀ body : M unit,
            BlobQueue.vs cfg emoji decision w
            = BlobQueue.under_vs_lock
                (if (List.length emoji <? 2)%nat
                 then emit (Ctx_send "Need at least 2 emoji to do VS vote.")
                 else if (6 <? List.length emoji)%nat
                 then emit (Ctx_send "Refusing to do VS vote of greater than 6 emoji.")
                 else if (size (list_to_set (C:=gset Z) (entry_id <$> emoji))
                          <? List.length emoji)%nat
                 then emit (Ctx_send "Can't have a VS vote with the same emoji appearing more than once.")
                 else body) w →
            ∃ reason,
              BlobQueue.vs cfg emoji decision w
              = BlobQueue.under_vs_lock (emit (Ctx_send reason)) w
              ∧ (((List.length emoji < 2)%nat
                  ∧ reason = "Need at least 2 emoji to do VS vote.")
                 ∨ ((6 < List.length emoji)%nat
                    ∧ reason = "Refusing to do VS vote of greater than 6 emoji.")
                 ∨ (¬ NoDup (entry_id <$> emoji)
                    ∧ reason = "Can't have a VS vote with the same emoji appearing more than once."))) as Hcases.
  { intros body ->.
    destruct (Nat.ltb_spec (List.length emoji) 2); [eauto 6|].
    destruct (Nat.ltb_spec 6 (List.length emoji)); [eauto 8|].
    destruct Hbad as [?|[?|Hdup]]; [lia | lia |].
    pose proof (proj2 (size_list_to_set_le (entry_id <$> emoji)) Hdup) as Hlt.
    rewrite length_fmap in Hlt.
    destruct (Nat.ltb_spec (size (list_to_set (C:=gset Z) (entry_id <$> emoji)))
                (List.length emoji)); [eauto 8 | lia]. }
  edestruct Hcases as (reason & E & Hwhy).
  { unfold BlobQueue.vs, bind, gets. rewrite Hlock. reflexivity. }
  exists reason. destruct (Hrun reason E) as [E1 E2]. auto.
Qed.

Lemma vs_rejects_malformed_witness :
  vs_lock (world_of [queued_row 1 2 0; queued_row 2 0 1]) = false
  ∧ ¬ NoDup (entry_id <$> [mkVsEntry (Some (queued_row 1 2 0)) 201 "201.png" "a";
                            mkVsEntry (Some (queued_row 1 2 0)) 201 "201.png" "a";
                            mkVsEntry (Some (queued_row 2 0 1)) 202 "202.png" "b"])
  ∧ ∃ reason,
      BlobQueue.vs demo_config
        [mkVsEntry (Some (queued_row 1 2 0)) 201 "201.png" "a";
         mkVsEntry (Some (queued_row 1 2 0)) 201 "201.png" "a";
         mkVsEntry (Some (queued_row 2 0 1)) 202 "202.png" "b"]
        (Some true) (world_of [queued_row 1 2 0; queued_row 2 0 1])
      = (with_outbox (cons (Ctx_send reason))
           (world_of [queued_row 1 2 0; queued_row 2 0 1]), Return tt).
Proof.
  assert (¬ NoDup (entry_id <$> [mkVsEntry (Some (queued_row 1 2 0)) 201 "201.png" "a";
                                  mkVsEntry (Some (queued_row 1 2 0)) 201 "201.png" "a";
                                  mkVsEntry (Some (queued_row 2 0 1)) 202 "202.png" "b"]))
    as Hdup.
  { simpl. intros H. apply NoDup_cons in H as [H _]. apply H. left. }
  split; [reflexivity|]. split; [exact Hdup|].
  destruct (vs_rejects_malformed demo_config
              [mkVsEntry (Some (queued_row 1 2 0)) 201 "201.png" "a";
               mkVsEntry (Some (queued_row 1 2 0)) 201 "201.png" "a";
               mkVsEntry (Some (queued_row 2 0 1)) 202 "202.png" "b"]
              (Some true) (world_of [queued_row 1 2 0; queued_row 2 0 1])
              eq_refl (or_intror (or_intror Hdup))) as (reason & E & _).
  exists reason. exact E.
Defined.

Lemma create_temp_emotes_run index emoji w :
  ∃ w',
    BlobQueue.create_temp_emotes index emoji w
    = (w', Return (seqZ (next_id w) (Z.of_nat (List.length emoji))))
    ∧ same_tables w w'
    ∧ emojis w' = list_to_set (seqZ (next_id w) (Z.of_nat (List.length emoji))) ∪ emojis w.
Proof.
  revert index w. induction emoji as [|e emoji IH]; intros index w.
  - exists w. change (Z.of_nat (List.length (@nil VsEntry))) with 0.
    rewrite seqZ_nil by lia. rewrite list_to_set_nil.
    unfold same_tables. repeat split.
    apply leibniz_equiv. set_solver.
  - simpl BlobQueue.create_temp_emotes.
    change (List.length (e :: emoji)) with (S (List.length emoji)).
    rewrite Nat2Z.inj_succ, (seqZ_cons (next_id w)) by lia.
    rewrite Z.pred_succ.
    set (name := clean_emoji_name _).
    set (animated := endswith _ _).
    set (w1 := with_outbox (cons (Emoji_created (next_id w) animated name))
                 (with_emojis (λ s, {[next_id w]} ∪ s)
                    (with_next_id (next_id w + 1) w))).
    destruct (IH (S index) w1) as (w' & E & (Hs & Hv & Hm & Hl) & He).
    exists w'. split; [|split].
    + unfold bind at 1. unfold create_custom_emoji. fold w1.
      change ((id <- gets next_id;; modify (with_next_id (id + 1));;;
               modify (with_emojis (λ s, {[id]} ∪ s));;;
               emit (Emoji_created id animated name);;; ret id) w)
        with (w1, Return (next_id w)).
      unfold bind. rewrite E. reflexivity.
    + unfold same_tables. rewrite Hs, Hv, Hm, Hl. repeat split.
    + rewrite He, list_to_set_cons.
      change (next_id w1) with (Z.succ (next_id w)).
      change (emojis w1) with ({[next_id w]} ∪ emojis w).
      apply leibniz_equiv. set_solver.
Qed.

Lemma delete_temp_emotes_run ids w :
  ∃ w',
    for_each ids emoji_delete w = (w', Return tt)
    ∧ same_tables w w'
    ∧ emojis w' = emojis w ∖ list_to_set ids.
Proof.
  revert w. induction ids as [|id ids IH]; intros w.
  - exists w. rewrite list_to_set_nil. unfold same_tables. repeat split.
    apply leibniz_equiv. set_solver.
  - simpl for_each.
    set (w1 := with_outbox (cons (Emoji_deleted id))
                 (with_emojis (λ s, s ∖ {[id]}) w)).
    destruct (IH w1) as (w' & E & (Hs & Hv & Hm & Hl) & He).
    exists w'. split; [|split].
    + unfold bind at 1.
      change (emoji_delete id w) with (w1, Return tt). exact E.
    + unfold same_tables. rewrite Hs, Hv, Hm, Hl. repeat split.
    + rewrite He, list_to_set_cons.
      change (emojis w1) with (emojis w ∖ {[id]}).
      apply leibniz_equiv. set_solver.
Qed.

(** C9.  A comparison that was staged and then declined, by a refusal or by
    the prompt timing out, ends normally.  The two tables are what they were,
    so every suggestion has the tally and the state it had; no message was
    posted or deleted; and none of the temporary emoji is left. *)
Theorem vs_declined_changes_nothing cfg emoji decision w :
  vs_lock w = false →
  (2 ≤ List.length emoji ≤ 6)%nat →
  NoDup (entry_id <$> emoji) →
  declined decision = true →
  let r := BlobQueue.vs cfg emoji decision w in
  let temp_emotes := seqZ (next_id w) (Z.of_nat (List.length emoji)) in
  r.2 = Return tt
  ∧ suggestions r.1 = suggestions w
  ∧ council_votes r.1 = council_votes w
  ∧ messages r.1 = messages w
  ∧ vs_lock r.1 = false
  ∧ emojis r.1 = emojis w ∖ list_to_set temp_emotes
  ∧ ∀ id, id ∈ temp_emotes → id ∉ emojis r.1.
Proof.
  intros Hlock [Hlo Hhi] Hnd Hno r temp_emotes.
  destruct (create_temp_emotes_run 0 emoji (with_vs_lock true w))
    as (w1 & E1 & (Hs1 & Hv1 & Hm1 & _) & He1).
  destruct (delete_temp_emotes_run temp_emotes w1)
    as (w2 & E2 & (Hs2 & Hv2 & Hm2 & _) & He2).
  assert (r = (with_vs_lock false w2, Return tt)) as ->.
  { unfold r, BlobQueue.vs, bind at 1, gets. rewrite Hlock.
    unfold BlobQueue.under_vs_lock.
    destruct (Nat.ltb_spec (List.length emoji) 2); [lia|].
    destruct (Nat.ltb_spec 6 (List.length emoji)); [lia|].
    rewrite size_list_to_set, length_fmap by exact Hnd.
    rewrite Nat.ltb_irrefl. unfold bind. rewrite E1, Hno.
    change (next_id (with_vs_lock true w)) with (next_id w). fold temp_emotes.
    rewrite E2. reflexivity. }
  simpl. rewrite Hs2, Hs1, Hv2, Hv1, Hm2, Hm1, He2, He1. simpl.
  change (next_id (with_vs_lock true w)) with (next_id w). fold temp_emotes.
  assert ((list_to_set temp_emotes ∪ emojis w) ∖ list_to_set temp_emotes
          = emojis w ∖ list_to_set temp_emotes) as Heq
    by (apply leibniz_equiv; set_solver).
  rewrite Heq. repeat split. intros id Hid. set_solver.
Qed.

Lemma vs_declined_changes_nothing_witness :
  vs_lock (world_of [queued_row 1 2 0; queued_row 2 0 1]) = false
  ∧ declined None = true
  ∧ suggestions
      (BlobQueue.vs demo_config
         [mkVsEntry (Some (queued_row 1 2 0)) 201 "201.png" "a";
          mkVsEntry (Some (queued_row 2 0 1)) 202 "202.gif" "b"]
         None (world_of [queued_row 1 2 0; queued_row 2 0 1])).1
    = [queued_row 1 2 0; queued_row 2 0 1].
Proof.
  split; [reflexivity|]. split; [reflexivity|].
  assert (NoDup (entry_id <$> [mkVsEntry (Some (queued_row 1 2 0)) 201 "201.png" "a";
                                mkVsEntry (Some (queued_row 2 0 1)) 202 "202.gif" "b"]))
    as Hnd.
  { simpl. apply NoDup_cons. split; [|apply NoDup_singleton].
    intros H%list_elem_of_singleton. discriminate H. }
  destruct (vs_declined_changes_nothing demo_config
              [mkVsEntry (Some (queued_row 1 2 0)) 201 "201.png" "a";
               mkVsEntry (Some (queued_row 2 0 1)) 202 "202.gif" "b"]
              None (world_of [queued_row 1 2 0; queued_row 2 0 1])
              eq_refl (conj (le_n 2) (le_S _ _ (le_S _ _ (le_S _ _ (le_S _ _ (le_n 2))))))
              Hnd eq_refl) as (_ & H & _).
  exact H.
Defined.

(** ** A suggestion whose emoji is gone *)

(** C10.  For a suggestion of the council queue whose emoji the bot cannot
    resolve, [move_to_public_queue] returns normally without a write to
    either table, so the [approve] command goes on to answer that the
    suggestion was approved, while its row is what it was.  [deny] in the
    same world raises a [RuntimeError], also without a write. *)
Theorem approve_without_emoji_reports_success cfg author self reason confirmed w :
  council_approved self = None →
  emoji_id self ∉ emojis w →
  declined confirmed = false →
  let moved := Suggestion.move_to_public_queue cfg (Some author)
                 (BlobQueue.reason_or_none reason) self w in
  let approved := BlobQueue.approve cfg author self reason confirmed w in
  let denied := BlobQueue.deny cfg author self reason confirmed w in
  moved.2 = Return self
  ∧ suggestions moved.1 = suggestions w
  ∧ approved.2 = Return tt
  ∧ head (outbox approved.1) = Some (Ctx_done "Successfully approved" (idx self))
  ∧ suggestions approved.1 = suggestions w
  ∧ council_votes approved.1 = council_votes w
  ∧ emojis approved.1 = emojis w
  ∧ messages approved.1 = messages w
  ∧ denied.2 = Raise (RuntimeError "Error denying -- the uploaded emoji wasn't found.")
  ∧ suggestions denied.1 = suggestions w.
Proof.
  intros Hpending Hgone Hyes.
  unfold BlobQueue.approve, BlobQueue.deny. rewrite Hyes.
  unfold Suggestion.move_to_public_queue, Suggestion.deny,
    Suggestion.is_in_public_queue, Suggestion.is_denied.
  rewrite Hpending.
  cbv [bind get_user get_emoji gets ret raise emit modify].
  rewrite (bool_decide_eq_false_2 _ Hgone).
  destruct (bool_decide (user_id self ∈ users w)); simpl; repeat split.
Qed.

Lemma approve_without_emoji_reports_success_witness :
  council_approved (council_row 1 2 0) = None
  ∧ (emoji_id (council_row 1 2 0) ∉ emojis world_without_emoji)
  ∧ declined (Some true) = false
  ∧ (BlobQueue.approve demo_config 8 (council_row 1 2 0) None (Some true)
       world_without_emoji).2 = Return tt
  ∧ state 1 (BlobQueue.approve demo_config 8 (council_row 1 2 0) None (Some true)
               world_without_emoji).1 = Some None.
Proof.
  assert (emoji_id (council_row 1 2 0) ∉ emojis world_without_emoji) as Hgone
    by (simpl; apply not_elem_of_empty).
  split; [reflexivity|]. split; [exact Hgone|]. split; [reflexivity|].
  destruct (approve_without_emoji_reports_success demo_config 8 (council_row 1 2 0)
              None (Some true) world_without_emoji eq_refl Hgone eq_refl)
    as (_ & _ & Hret & _ & Hrows & _).
  split; [exact Hret|]. unfold state. rewrite Hrows. reflexivity.
Defined.

(** * More of the code *)

(** ** Coroutines that only talk to Discord

    The rules hold for every relation between worlds that is reflexive and
    transitive and that relates a world to what a change outside the two
    tables makes of it. *)

Section discord_rules.
Context (R : World → World → Prop).
Context (R_refl : ∀ w, R w w).
Context (R_trans : ∀ w1 w2 w3, R w1 w2 → R w2 w3 → R w1 w3).
Context (R_discord :
  ∀ f, (∀ w, suggestions (f w) = suggestions w) →
       (∀ w, council_votes (f w) = council_votes w) → ∀ w, R w (f w)).

Lemma discord_pass {A} (a : A) : spec R any (ret a).
Proof. apply spec_ret; [exact R_refl | exact I]. Qed.

Lemma discord_raise {A} e : spec R any (@raise A e).
Proof. apply spec_raise, R_refl. Qed.

Lemma discord_gets {A} (f : World → A) : spec R any (gets f).
Proof. apply spec_gets; [exact R_refl | intros; exact I]. Qed.

Lemma discord_modify f :
  (∀ w, suggestions (f w) = suggestions w) →
  (∀ w, council_votes (f w) = council_votes w) →
  spec R any (modify f).
Proof. intros Hs Hv. apply spec_modify; [apply R_discord; assumption | exact I]. Qed.

Lemma discord_emit e : spec R any (emit e).
Proof. apply discord_modify; reflexivity. Qed.

Lemma discord_any {A} (Q : A → Prop) (m : M A) : spec R Q m → spec R any m.
Proof. intros H. apply (spec_weaken R Q any m H). intros; exact I. Qed.

Ltac discord_step :=
  lazymatch goal with
  | |- spec _ _ (bind _ _) => eapply (spec_bind R R_trans); [|intros ? ?]
  | |- spec _ _ (try_except _ _ _) => apply (spec_try_except R R_trans)
  | |- spec _ _ (ret _) => apply discord_pass
  | |- spec _ _ (raise _) => apply discord_raise
  | |- spec _ _ (gets _) => apply discord_gets
  | |- spec _ _ (emit _) => apply discord_emit
  | |- spec _ _ (modify _) => apply discord_modify; reflexivity
  | |- spec _ _ (if ?b then _ else _) => destruct b
  | |- spec _ _ (match ?x with _ => _ end) => destruct x
  end.

Lemma discord_emoji_delete id : spec R any (emoji_delete id).
Proof. unfold emoji_delete. repeat discord_step. Qed.

Lemma discord_message_delete c m : spec R any (message_delete c m).
Proof. unfold message_delete. repeat discord_step. Qed.

Lemma discord_channel_send c l : spec R any (channel_send c l).
Proof. unfold channel_send. repeat discord_step. Qed.

Lemma discord_create_custom_emoji a n : spec R any (create_custom_emoji a n).
Proof. unfold create_custom_emoji. repeat discord_step. Qed.

Lemma discord_get_message c m : spec R any (get_message c m).
Proof. unfold get_message. repeat discord_step. Qed.

Lemma discord_user_send u t : spec R any (user_send u t).
Proof. unfold user_send. repeat discord_step. Qed.

Lemma discord_delete_from_suggestions_channel cfg self :
  spec R any (Suggestion.delete_from_suggestions_channel cfg self).
Proof.
  unfold Suggestion.delete_from_suggestions_channel.
  destruct (suggestions_message_id self) as [m|]; [|discord_step].
  destruct (m =? 0); [discord_step|].
  discord_step; [|discord_step].
  discord_step; [apply discord_get_message | apply discord_message_delete].
Qed.

Lemma discord_remove_from_public_queue cfg self :
  spec R any (Suggestion.remove_from_public_queue cfg self).
Proof.
  unfold Suggestion.remove_from_public_queue.
  discord_step.
  - discord_step; [|discord_step].
    discord_step; [apply discord_get_message | discord_step].
  - destruct a; [apply discord_message_delete | discord_step].
Qed.

Lemma discord_delete_all ids : spec R any (for_each ids emoji_delete).
Proof.
  induction ids as [|id ids IH]; simpl; [discord_step|].
  discord_step; [apply discord_emoji_delete | exact IH].
Qed.

Lemma discord_create_temp_emotes index emoji :
  spec R any (BlobQueue.create_temp_emotes index emoji).
Proof.
  revert index. induction emoji as [|e emoji IH]; intros index; simpl;
    [discord_step|].
  discord_step; [apply discord_create_custom_emoji|].
  discord_step; [apply IH | discord_step].
Qed.

Lemma discord_react_and_delete msg index temps :
  spec R any (BlobQueue.react_and_delete msg index temps).
Proof.
  revert index. induction temps as [|t temps IH]; intros index; simpl;
    [discord_step|].
  discord_step; [discord_step|].
  discord_step; [apply discord_emoji_delete | apply IH].
Qed.

Lemma discord_merge cfg emoji : spec R any (BlobQueue.merge cfg emoji).
Proof.
  induction emoji as [|e emoji IH]; simpl; [discord_step|].
  destruct (entry_suggestion e); [|exact IH].
  discord_step; [apply discord_remove_from_public_queue|].
  discord_step; [exact IH | discord_step].
Qed.

Lemma discord_pick author first submissions tries answers :
  spec R (λ p, match p with
               | BlobQueue.Chose c => c = first ∨ In c submissions
               | _ => True
               end)
    (BlobQueue.pick author first submissions tries answers).
Proof.
  revert tries. induction answers as [|a answers IH]; intros tries; simpl.
  - destruct (tries =? 3)%nat.
    + eapply (spec_bind R R_trans); [apply discord_user_send|].
      intros _ _. apply spec_ret; [exact R_refl | exact I].
    + apply spec_ret; [exact R_refl | exact I].
  - destruct (tries =? 3)%nat.
    + eapply (spec_bind R R_trans); [apply discord_user_send|].
      intros _ _. apply spec_ret; [exact R_refl | exact I].
    + destruct a as [index|].
      * destruct ((index >? Z.of_nat (List.length submissions)) || (index <? 1)).
        -- eapply (spec_bind R R_trans); [apply discord_user_send|].
           intros _ _. apply IH.
        -- apply spec_ret; [exact R_refl|].
           destruct (Nat.lt_ge_cases (Z.to_nat (index - 1)) (List.length submissions)).
           ++ right. apply nth_In. assumption.
           ++ left. apply nth_overflow. assumption.
      * eapply (spec_bind R R_trans); [apply discord_user_send|].
        intros _ _. apply IH.
Qed.
End discord_rules.

(** ** Neither table is written *)

Lemma untouched_refl w : untouched w w.
Proof. split; reflexivity. Qed.

Lemma untouched_trans w1 w2 w3 : untouched w1 w2 → untouched w2 w3 → untouched w1 w3.
Proof. intros [H1 H2] [H3 H4]. split; congruence. Qed.

Lemma untouched_discord f :
  (∀ w, suggestions (f w) = suggestions w) →
  (∀ w, council_votes (f w) = council_votes w) → ∀ w, untouched w (f w).
Proof. intros Hs Hv w. split; [apply Hs | apply Hv]. Qed.

(** ** Statements on one row *)

Section changes_rules.
Context (cfg : Config) (P : Row → Row → Prop) (i : Z).
Context (P_refl : ∀ r, P r r).
Context (P_trans : ∀ r1 r2 r3, P r1 r2 → P r2 r3 → P r1 r3).
Context (P_vote : ∀ a v r, P r (set_vote_target a v r)).
Context (P_zero : ∀ r, P r (set_votes_zero r)).
Context (P_null : ∀ r, P r (set_council_message_null r)).
Context (P_public : ∀ m reason who now r, P r (set_public m reason who now r)).
Context (P_denied : ∀ reason who now r, P r (set_denied reason who now r)).
Context (P_revoked : ∀ r, P r (set_revoked r)).

Lemma changes_refl w : changes P i w w.
Proof.
  exists id. split; [intros r; split; [reflexivity | apply P_refl]|].
  unfold update_idx. symmetry. rewrite (List.map_ext _ id).
  - apply List.map_id.
  - intros r. destruct (idx r =? i); reflexivity.
Qed.

Lemma changes_trans w1 w2 w3 :
  changes P i w1 w2 → changes P i w2 w3 → changes P i w1 w3.
Proof.
  intros (f & Hf & Hs) (g & Hg & Hs'). exists (g ∘ f). split.
  - intros r. simpl. destruct (Hf r) as [Hk Hp], (Hg (f r)) as [Hk' Hp'].
    split; [congruence | eapply P_trans; eassumption].
  - rewrite Hs', Hs. apply update_idx_compose. intros r. apply Hf.
Qed.

Lemma changes_discord f :
  (∀ w, suggestions (f w) = suggestions w) →
  (∀ w, council_votes (f w) = council_votes w) → ∀ w, changes P i w (f w).
Proof.
  intros Hs _ w. destruct (changes_refl w) as (set & Hset & Heq).
  exists set. rewrite Hs. auto.
Qed.

Lemma changes_ledger f : spec (changes P i) any (modify (with_council_votes f)).
Proof.
  apply spec_modify; [|exact I]. intros w.
  destruct (changes_refl w) as (set & Hset & Heq). exists set. auto.
Qed.

Lemma changes_execute set :
  (∀ r, idx (set r) = idx r ∧ P r (set r)) → spec (changes P i) any (execute i set).
Proof.
  intros H. apply spec_modify; [|exact I]. intros w. exists set. auto.
Qed.

Lemma changes_update_inplace self :
  same_idx i self → spec (changes P i) (same_idx i) (Suggestion.update_inplace self).
Proof.
  intros Hi w. unfold Suggestion.update_inplace, bind, gets. simpl.
  destruct (fetchrow_idx (idx self) (suggestions w)) as [r|] eqn:E; simpl.
  - split; [apply changes_refl|]. apply fetchrow_idx_key in E.
    unfold same_idx in *. congruence.
  - split; [apply changes_refl | exact I].
Qed.

Lemma changes_row self : same_idx i self → spec (changes P i) (same_idx i) (ret self).
Proof. intros H. apply spec_ret; [exact changes_refl | exact H]. Qed.

Ltac side := first [exact changes_refl | exact changes_trans | exact changes_discord].

Ltac changes_step :=
  lazymatch goal with
  | |- spec _ _ (bind _ _) => eapply (spec_bind _ changes_trans); [|intros ? ?]
  | |- spec _ _ (try_except _ _ _) => apply (spec_try_except _ changes_trans)
  | |- spec _ (same_idx _) (ret _) => apply changes_row; assumption
  | |- spec _ _ (ret _) => apply discord_pass; side
  | |- spec _ _ (raise _) => apply spec_raise, changes_refl
  | |- spec _ _ (gets _) => apply discord_gets; side
  | |- spec _ _ (get_user _) => apply discord_gets; side
  | |- spec _ _ (get_emoji _) => apply discord_gets; side
  | |- spec _ _ (emit _) => apply discord_emit; side
  | |- spec _ _ (emoji_delete _) => apply discord_emoji_delete; side
  | |- spec _ _ (message_delete _ _) => apply discord_message_delete; side
  | |- spec _ _ (channel_send _ _) => apply discord_channel_send; side
  | |- spec _ _ (get_message _ _) => apply discord_get_message; side
  | |- spec _ _ (user_send _ _) => apply discord_user_send; side
  | |- spec _ _ (Suggestion.delete_from_suggestions_channel _ _) =>
      apply discord_delete_from_suggestions_channel; side
  | |- spec _ _ (Suggestion.update_inplace _) =>
      apply changes_update_inplace; assumption
  | |- spec _ _ (execute (idx ?s) _) =>
      match goal with H : same_idx i s |- _ => rewrite H end;
      apply changes_execute; intros r; split; [reflexivity | auto]
  | |- spec _ _ (if ?b then _ else _) => destruct b
  end.

Lemma changes_delete_from_council_queue self :
  same_idx i self →
  spec (changes P i) (same_idx i) (Suggestion.delete_from_council_queue cfg self).
Proof. intros Hi. unfold Suggestion.delete_from_council_queue. repeat changes_step. Qed.

Lemma changes_reset_votes self :
  same_idx i self → spec (changes P i) (same_idx i) (Suggestion.reset_votes self).
Proof. intros Hi. unfold Suggestion.reset_votes. repeat changes_step. Qed.

Lemma changes_move_to_public_queue who reason self :
  same_idx i self →
  spec (changes P i) (same_idx i) (Suggestion.move_to_public_queue cfg who reason self).
Proof.
  intros Hi. unfold Suggestion.move_to_public_queue.
  repeat first [ apply changes_delete_from_council_queue; assumption
               | changes_step ].
Qed.

Lemma changes_deny who reason revoke self :
  same_idx i self →
  spec (changes P i) (same_idx i) (Suggestion.deny cfg who reason revoke self).
Proof.
  intros Hi. unfold Suggestion.deny.
  repeat first [ apply changes_delete_from_council_queue; assumption
               | changes_step ].
Qed.

Lemma changes_check_council_votes self :
  same_idx i self →
  spec (changes P i) (same_idx i) (Suggestion.check_council_votes cfg self).
Proof.
  intros Hi. unfold Suggestion.check_council_votes.
  repeat first [ apply changes_reset_votes; assumption
               | apply changes_move_to_public_queue; assumption
               | apply changes_deny; assumption
               | changes_step ].
Qed.

Lemma changes_process_vote vote_emoji vote_type message_id who self :
  same_idx i self →
  spec (changes P i) (same_idx i)
    (Suggestion.process_vote cfg vote_emoji vote_type message_id who self).
Proof.
  intros Hi. unfold Suggestion.process_vote.
  changes_step; [changes_step|]. changes_step; [changes_step|].
  destruct (public_message_id a0); [changes_step|].
  changes_step; [destruct vote_type; apply changes_ledger|].
  apply changes_check_council_votes. assumption.
Qed.
End changes_rules.

(** ** What a vote or a command leaves alone *)

Lemma changes_other_rows P i w w' j :
  changes P i w w' → j ≠ i →
  fetchrow_idx j (suggestions w') = fetchrow_idx j (suggestions w).
Proof.
  intros (set & Hset & ->) Hne.
  apply fetchrow_update_other; [intros r; apply Hset | exact Hne].
Qed.

Lemma changes_stays_resolved i w w' j b :
  changes stays_resolved i w w' →
  state j w = Some (Some b) → ∃ b', state j w' = Some (Some b').
Proof.
  intros Hch Hst. destruct (decide (j = i)) as [->|Hne].
  - destruct Hch as (set & Hset & Hs). unfold state in *. rewrite Hs.
    rewrite fetchrow_update_idx by (intros r; apply Hset).
    destruct (fetchrow_idx i (suggestions w)) as [r|]; [|discriminate].
    simpl in *. destruct (Hset r) as [_ Hres].
    destruct (council_approved (set r)) as [b'|] eqn:E; [eauto|].
    exfalso. apply Hres; [congruence | exact E].
  - unfold state in *. rewrite (changes_other_rows _ _ _ _ _ Hch Hne). eauto.
Qed.

(** The ledger after a vote: as it was, or with the one upsert of the voting
    pair. *)
Lemma process_vote_ledger cfg vote_emoji vote_type message_id who self w :
  let votes :=
    council_votes
      (Suggestion.process_vote cfg vote_emoji vote_type message_id who self w).1 in
  votes = council_votes w
  ∨ ∃ c b, votes = upsert_vote (idx self) who c b (council_votes w).
Proof.
  unfold Suggestion.process_vote.
  cbv [bind execute modify Suggestion.update_inplace gets ret raise]. simpl.
  destruct (fetchrow_idx (idx self) _) as [r|] eqn:E; simpl; [|left; reflexivity].
  apply fetchrow_idx_key in E.
  destruct (public_message_id r); simpl; [left; reflexivity|].
  right. destruct vote_type; simpl; rewrite check_council_votes_ledger; simpl;
    rewrite E; eauto.
Qed.

(** A vote for one suggestion leaves every other suggestion as it was: its
    row in the table and the votes of all reviewers on it. *)
Theorem process_vote_isolated cfg vote_emoji vote_type message_id who self w j :
  j ≠ idx self →
  let w' := (Suggestion.process_vote cfg vote_emoji vote_type message_id who self w).1 in
  fetchrow_idx j (suggestions w') = fetchrow_idx j (suggestions w)
  ∧ ∀ u, vote_entry j u (council_votes w') = vote_entry j u (council_votes w).
Proof.
  intros Hne. split.
  - eapply (changes_other_rows (λ _ _, True)); [|exact Hne].
    apply (changes_process_vote cfg (λ _ _, True) (idx self)); auto. reflexivity.
  - intros u.
    destruct (process_vote_ledger cfg vote_emoji vote_type message_id who self w)
      as [->|(c & b & ->)]; [reflexivity|].
    apply vote_entry_upsert_other. congruence.
Qed.

Lemma process_vote_isolated_witness :
  2 ≠ idx (council_row 1 3 1)
  ∧ fetchrow_idx 2
      (suggestions
         (Suggestion.process_vote demo_config (Some 100) YAY 301 7 (council_row 1 3 1)
            (world_of [council_row 1 3 1; council_row 2 4 4])).1)
    = Some (council_row 2 4 4).
Proof.
  assert (2 ≠ idx (council_row 1 3 1)) as Hne by (simpl; lia).
  split; [exact Hne|].
  destruct (process_vote_isolated demo_config (Some 100) YAY 301 7 (council_row 1 3 1)
              (world_of [council_row 1 3 1; council_row 2 4 4]) 2 Hne) as [H _].
  exact H.
Defined.

Lemma stays_resolved_refl r : stays_resolved r r.
Proof. intros H. exact H. Qed.

Lemma stays_resolved_trans r1 r2 r3 :
  stays_resolved r1 r2 → stays_resolved r2 r3 → stays_resolved r1 r3.
Proof. unfold stays_resolved. auto. Qed.

Lemma changes_resolved_process_vote cfg vote_emoji vote_type message_id who self :
  spec (changes stays_resolved (idx self)) (same_idx (idx self))
    (Suggestion.process_vote cfg vote_emoji vote_type message_id who self).
Proof.
  apply changes_process_vote;
    [apply stays_resolved_refl | apply stays_resolved_trans | ..];
    try (intros; intros H; exact H); try reflexivity.
  all: intros; intros _; discriminate.
Qed.

Lemma changes_resolved_move cfg who reason self :
  spec (changes stays_resolved (idx self)) (same_idx (idx self))
    (Suggestion.move_to_public_queue cfg who reason self).
Proof.
  apply changes_move_to_public_queue;
    [apply stays_resolved_refl | apply stays_resolved_trans | ..];
    try (intros; intros H; exact H); try reflexivity.
  all: intros; intros _; discriminate.
Qed.

Lemma changes_resolved_deny cfg who reason revoke self :
  spec (changes stays_resolved (idx self)) (same_idx (idx self))
    (Suggestion.deny cfg who reason revoke self).
Proof.
  apply changes_deny;
    [apply stays_resolved_refl | apply stays_resolved_trans | ..];
    try (intros; intros H; exact H); try reflexivity.
  all: intros; intros _; discriminate.
Qed.

Lemma approve_world cfg author suggestion reason confirmed w :
  suggestions (BlobQueue.approve cfg author suggestion reason confirmed w).1
  = suggestions
      (Suggestion.move_to_public_queue cfg (Some author)
         (BlobQueue.reason_or_none reason) suggestion w).1
  ∨ suggestions (BlobQueue.approve cfg author suggestion reason confirmed w).1
    = suggestions w.
Proof.
  unfold BlobQueue.approve. destruct (declined confirmed); [right; reflexivity|].
  left. unfold bind.
  destruct (Suggestion.move_to_public_queue _ _ _ _ w) as [w' [a|e]]; reflexivity.
Qed.

Lemma deny_world cfg author suggestion reason confirmed w :
  suggestions (BlobQueue.deny cfg author suggestion reason confirmed w).1
  = suggestions
      (Suggestion.deny cfg (Some author) (BlobQueue.reason_or_none reason) false
         suggestion w).1
  ∨ suggestions (BlobQueue.deny cfg author suggestion reason confirmed w).1
    = suggestions w.
Proof.
  unfold BlobQueue.deny. destruct (declined confirmed); [right; reflexivity|].
  left. unfold bind.
  destruct (Suggestion.deny _ _ _ _ _ w) as [w' [a|e]]; reflexivity.
Qed.

(** No vote and no command of a council member takes a suggestion back to
    the council queue: one that is in the public queue or denied before
    [process_vote], [approve] or [deny] runs, on it or on another
    suggestion, is in one of these two states afterwards. *)
Theorem resolved_never_pending_again cfg j b w :
  state j w = Some (Some b) →
  (∀ vote_emoji vote_type message_id who self,
     ∃ b', state j
             (Suggestion.process_vote cfg vote_emoji vote_type message_id who self w).1
           = Some (Some b'))
  ∧ (∀ author suggestion reason confirmed,
       ∃ b', state j (BlobQueue.approve cfg author suggestion reason confirmed w).1
             = Some (Some b'))
  ∧ (∀ author suggestion reason confirmed,
       ∃ b', state j (BlobQueue.deny cfg author suggestion reason confirmed w).1
             = Some (Some b')).
Proof.
  intros Hst. split; [|split].
  - intros. eapply changes_stays_resolved; [|exact Hst].
    apply changes_resolved_process_vote.
  - intros.
    destruct (approve_world cfg author suggestion reason confirmed w) as [E|E];
      unfold state in *; rewrite E; [|eauto].
    eapply (changes_stays_resolved (idx suggestion)); [|exact Hst].
    apply changes_resolved_move.
  - intros.
    destruct (deny_world cfg author suggestion reason confirmed w) as [E|E];
      unfold state in *; rewrite E; [|eauto].
    eapply (changes_stays_resolved (idx suggestion)); [|exact Hst].
    apply changes_resolved_deny.
Qed.

Lemma resolved_never_pending_again_witness :
  state 1 (world_of [half_denied_row]) = Some (Some false)
  ∧ ∃ b', state 1 (BlobQueue.approve demo_config 8 half_denied_row None (Some true)
                     (world_of [half_denied_row])).1 = Some (Some b').
Proof.
  split; [reflexivity|].
  destruct (resolved_never_pending_again demo_config 1 false
              (world_of [half_denied_row]) eq_refl) as (_ & H & _).
  apply H.
Defined.

(** ** The public queue is the end *)

Lemma check_council_votes_public cfg self w :
  fetchrow_idx (idx self) (suggestions w) = Some self →
  council_approved self = Some true →
  state (idx self) (Suggestion.check_council_votes cfg self w).1 = Some (Some true).
Proof.
  intros Hs Hp.
  assert (state (idx self) w = Some (Some true)) as Hst
    by (unfold state; rewrite Hs; simpl; congruence).
  unfold Suggestion.check_council_votes.
  destruct (upvotes self + downvotes self <? required_votes cfg); [exact Hst|].
  destruct (upvotes self - downvotes self >=? required_difference cfg).
  - unfold bind. rewrite reset_votes_found by exact Hs.
    destruct (move_to_public_queue_refused cfg None None (set_votes_zero self)
                (with_suggestions (update_idx (idx self) set_votes_zero) w) Hp)
      as [msg ->].
    unfold state. simpl. rewrite fetchrow_update_idx by reflexivity.
    rewrite Hs. simpl. congruence.
  - destruct (downvotes self - upvotes self >=? required_difference cfg);
      [|exact Hst].
    destruct (deny_refused cfg None None false self w) as [msg ->];
      [congruence | exact Hst].
Qed.

(** A suggestion of the public queue stays there: whatever vote is processed
    for it and whatever a council member answers to [approve] or [deny], its
    state afterwards is the one of the public queue, and the two commands,
    once confirmed, end in [OperationError] with nothing written. *)
Theorem public_queue_is_final cfg self w :
  fetchrow_idx (idx self) (suggestions w) = Some self →
  council_approved self = Some true →
  (∀ vote_emoji vote_type message_id who,
     state (idx self)
       (Suggestion.process_vote cfg vote_emoji vote_type message_id who self w).1
     = Some (Some true))
  ∧ (∀ author reason confirmed,
       state (idx self) (BlobQueue.approve cfg author self reason confirmed w).1
       = Some (Some true)
       ∧ state (idx self) (BlobQueue.deny cfg author self reason confirmed w).1
         = Some (Some true))
  ∧ (∀ author reason,
       (∃ msg, BlobQueue.approve cfg author self reason (Some true) w
               = (w, Raise (OperationError msg)))
       ∧ (∃ msg, BlobQueue.deny cfg author self reason (Some true) w
                 = (w, Raise (OperationError msg)))).
Proof.
  intros Hs Hp.
  assert (state (idx self) w = Some (Some true)) as Hst
    by (unfold state; rewrite Hs; simpl; congruence).
  assert (∀ author reason,
            (∃ msg, BlobQueue.approve cfg author self reason (Some true) w
                    = (w, Raise (OperationError msg)))
            ∧ (∃ msg, BlobQueue.deny cfg author self reason (Some true) w
                      = (w, Raise (OperationError msg)))) as Hcmd.
  { intros author reason. unfold BlobQueue.approve, BlobQueue.deny, bind. simpl.
    destruct (move_to_public_queue_refused cfg (Some author)
                (BlobQueue.reason_or_none reason) self w Hp) as [msg ->].
    destruct (deny_refused cfg (Some author) (BlobQueue.reason_or_none reason)
                false self w) as [msg' ->]; [congruence|].
    eauto. }
  split; [|split; [|exact Hcmd]].
  - intros. rewrite process_vote_found by exact Hs.
    pose proof (vote_written_found cfg vote_emoji vote_type who self w Hs) as Hw.
    destruct (public_message_id self).
    + unfold state. simpl. rewrite Hw. simpl. congruence.
    + apply (check_council_votes_public cfg
               (set_vote_target (opt_is vote_emoji (approve_emoji_id cfg)) vote_type self));
        [exact Hw | exact Hp].
  - intros author reason confirmed.
    destruct (Hcmd author reason) as [[msg Ha] [msg' Hd]].
    unfold BlobQueue.approve, BlobQueue.deny in *.
    destruct (declined confirmed) eqn:Hc; simpl in *.
    + split; exact Hst.
    + rewrite Ha, Hd. split; exact Hst.
Qed.

Lemma public_queue_is_final_witness :
  fetchrow_idx 1 (suggestions (world_of [queued_row 1 2 0])) = Some (queued_row 1 2 0)
  ∧ council_approved (queued_row 1 2 0) = Some true
  ∧ ∃ msg, BlobQueue.deny demo_config 8 (queued_row 1 2 0) None (Some true)
             (world_of [queued_row 1 2 0])
           = (world_of [queued_row 1 2 0], Raise (OperationError msg)).
Proof.
  split; [reflexivity|]. split; [reflexivity|].
  destruct (public_queue_is_final demo_config (queued_row 1 2 0)
              (world_of [queued_row 1 2 0]) eq_refl eq_refl) as (_ & _ & H).
  destruct (H 8 None) as [_ Hd]. exact Hd.
Defined.

(** ** The two transitions where they succeed *)

(** A denial of a suggestion of the council queue whose emoji and council
    message are there returns normally, also where the submitter is unknown,
    cannot be written to, or the message in the suggestions channel is gone.
    The row is denied, with who did it, why and when; it is marked revoked
    exactly when the submitter revoked it; it has lost its council message
    and kept its tally.  The emoji and the council message are deleted, and
    the ledger is what it was. *)
Theorem deny_effect cfg who reason revoke self w m :
  fetchrow_idx (idx self) (suggestions w) = Some self →
  council_approved self = None →
  emoji_id self ∈ emojis w →
  council_message_id self = Some m →
  (council_queue cfg, m) ∈ messages w →
  let r := Suggestion.deny cfg who reason revoke self w in
  ∃ row,
    r.2 = Return row
    ∧ fetchrow_idx (idx self) (suggestions r.1) = Some row
    ∧ council_approved row = Some false
    ∧ revoked row = revoke || revoked self
    ∧ forced_by row = who ∧ forced_reason row = reason
    ∧ validation_time row = Some (utcnow w)
    ∧ council_message_id row = None
    ∧ public_message_id row = public_message_id self
    ∧ upvotes row = upvotes self ∧ downvotes row = downvotes self
    ∧ emojis r.1 = emojis w ∖ {[emoji_id self]}
    ∧ (council_queue cfg, m) ∉ messages r.1
    ∧ council_votes r.1 = council_votes w.
Proof.
  intros Hs Hp He Hm Hin.
  destruct (deny_succeeds cfg who reason revoke self w m Hs Hp He Hm Hin)
    as [Hret Hrow].
  eexists. split; [exact Hret|]. split; [exact Hrow|].
  destruct (keeps_deny cfg (idx self) who reason revoke self eq_refl w)
    as [[Hv _] _].
  assert (emojis (Suggestion.deny cfg who reason revoke self w).1
          = emojis w ∖ {[emoji_id self]}
          ∧ (council_queue cfg, m)
            ∉ messages (Suggestion.deny cfg who reason revoke self w).1) as [Hem Hmsg].
  { clear Hret Hrow Hv.
    assert (∀ f g h : Row → Row,
              (∀ r, idx (f r) = idx r) → (∀ r, idx (g r) = idx r) →
              (∀ r, idx (h r) = idx r) →
              fetchrow_idx (idx self)
                (update_idx (idx self) h
                   (update_idx (idx self) g (update_idx (idx self) f (suggestions w))))
              = Some (h (g (f self)))) as Hs3.
    { intros f g h Hf Hg Hh. rewrite !fetchrow_update_idx by assumption.
      rewrite Hs. reflexivity. }
    assert (∀ f g : Row → Row,
              (∀ r, idx (f r) = idx r) → (∀ r, idx (g r) = idx r) →
              fetchrow_idx (idx self)
                (update_idx (idx self) g (update_idx (idx self) f (suggestions w)))
              = Some (g (f self))) as Hs2.
    { intros f g Hf Hg. rewrite !fetchrow_update_idx by assumption.
      rewrite Hs. reflexivity. }
    assert (∀ f : Row → Row,
              (∀ r, idx (f r) = idx r) →
              fetchrow_idx (idx self) (update_idx (idx self) f (suggestions w))
              = Some (f self)) as Hs1.
    { intros f Hf. rewrite !fetchrow_update_idx by assumption.
      rewrite Hs. reflexivity. }
    unfold Suggestion.deny, Suggestion.is_in_public_queue, Suggestion.is_denied.
    rewrite Hp.
    cbv [bind get_user get_emoji gets ret raise emit modify channel_send emoji_delete
           Suggestion.delete_from_council_queue get_message message_delete execute
           Suggestion.update_inplace Suggestion.delete_from_suggestions_channel
           try_except user_send].
    simpl. rewrite (bool_decide_eq_true_2 _ He). simpl.
    destruct (bool_decide (user_id self ∈ users w)), revoke; simpl.
    all: rewrite ?Hs2, ?Hs1 by reflexivity; simpl.
    all: rewrite Hm; simpl.
    all: rewrite (bool_decide_eq_true_2 _ Hin); simpl.
    all: rewrite ?Hs3, ?Hs2 by reflexivity; simpl.
    all: destruct (suggestions_message_id self) as [sm|]; simpl.
    all: try (destruct (sm =? 0); simpl).
    all: repeat match goal with
         | |- context [bool_decide ?P] => destruct (bool_decide P); simpl
         end.
    all: rewrite ?Hs3, ?Hs2 by reflexivity; simpl.
    all: split; [reflexivity | set_solver]. }
  destruct revoke; simpl; repeat split; try assumption; reflexivity.
Qed.

Lemma deny_effect_witness :
  fetchrow_idx 1 (suggestions (world_of [council_row 1 1 4])) = Some (council_row 1 1 4)
  ∧ council_approved (council_row 1 1 4) = None
  ∧ emoji_id (council_row 1 1 4) ∈ emojis (world_of [council_row 1 1 4])
  ∧ council_message_id (council_row 1 1 4) = Some 301
  ∧ (council_queue demo_config, 301) ∈ messages (world_of [council_row 1 1 4])
  ∧ ∃ row,
      (Suggestion.deny demo_config (Some 8) None false (council_row 1 1 4)
         (world_of [council_row 1 1 4])).2 = Return row
      ∧ council_approved row = Some false.
Proof.
  assert (emoji_id (council_row 1 1 4) ∈ emojis (world_of [council_row 1 1 4])) as He
    by (apply (bool_decide_unpack _); vm_compute; exact I).
  assert ((council_queue demo_config, 301) ∈ messages (world_of [council_row 1 1 4]))
    as Hin by (apply (bool_decide_unpack _); vm_compute; exact I).
  split; [reflexivity|]. split; [reflexivity|]. split; [exact He|].
  split; [reflexivity|]. split; [exact Hin|].
  destruct (deny_effect demo_config (Some 8) None false (council_row 1 1 4)
              (world_of [council_row 1 1 4]) 301 eq_refl eq_refl He eq_refl Hin)
    as (row & Hret & _ & Hden & _).
  exists row. split; [exact Hret | exact Hden].
Defined.

(** A move to the public queue of a suggestion of the council queue whose
    emoji and council message are there returns normally, also where the
    submitter is unknown or cannot be written to.  One message is posted in
    the approval queue and the row refers to it; the row is in the public
    queue, with who forced the move, why and when; it has lost its council
    message.  The emoji and the council message are deleted, and the ledger
    is what it was. *)
Theorem move_to_public_queue_effect cfg who reason self w m :
  fetchrow_idx (idx self) (suggestions w) = Some self →
  council_approved self = None →
  emoji_id self ∈ emojis w →
  council_message_id self = Some m →
  (council_queue cfg, m) ∈ messages w →
  let r := Suggestion.move_to_public_queue cfg who reason self w in
  ∃ row,
    r.2 = Return row
    ∧ fetchrow_idx (idx self) (suggestions r.1) = Some row
    ∧ council_approved row = Some true
    ∧ public_message_id row = Some (next_id w)
    ∧ forced_by row = who ∧ forced_reason row = reason
    ∧ validation_time row = Some (utcnow w)
    ∧ council_message_id row = None
    ∧ Message_sent (approval_queue cfg) (next_id w) [emoji_id self] ∈ outbox r.1
    ∧ next_id r.1 = next_id w + 1
    ∧ emojis r.1 = emojis w ∖ {[emoji_id self]}
    ∧ (council_queue cfg, m) ∉ messages r.1
    ∧ council_votes r.1 = council_votes w.
Proof.
  intros Hs Hp He Hm Hin.
  assert (council_approved self ≠ Some true) as Hnp by congruence.
  destruct (move_to_public_queue_succeeds cfg who reason self w m Hs Hnp He Hm Hin)
    as [Hret Hrow].
  eexists. split; [exact Hret|]. split; [exact Hrow|].
  destruct (keeps_move_to_public_queue cfg (idx self) who reason self eq_refl w)
    as [[Hv _] _].
  assert (Message_sent (approval_queue cfg) (next_id w) [emoji_id self]
            ∈ outbox (Suggestion.move_to_public_queue cfg who reason self w).1
          ∧ next_id (Suggestion.move_to_public_queue cfg who reason self w).1
            = next_id w + 1
          ∧ emojis (Suggestion.move_to_public_queue cfg who reason self w).1
            = emojis w ∖ {[emoji_id self]}
          ∧ (council_queue cfg, m)
            ∉ messages (Suggestion.move_to_public_queue cfg who reason self w).1)
    as (Hout & Hid & Hem & Hmsg).
  { clear Hret Hrow Hv.
    assert (fetchrow_idx (idx self)
              (update_idx (idx self) set_council_message_null (suggestions w))
            = Some (set_council_message_null self)) as Hs1
      by (rewrite fetchrow_update_idx by reflexivity; rewrite Hs; reflexivity).
    assert (∀ now,
              fetchrow_idx (idx self)
                (update_idx (idx self) (set_public (next_id w) reason who now)
                   (update_idx (idx self) set_council_message_null (suggestions w)))
              = Some (set_public (next_id w) reason who now
                        (set_council_message_null self))) as Hs2
      by (intros now; rewrite fetchrow_update_idx by reflexivity; rewrite Hs1;
          reflexivity).
    unfold Suggestion.move_to_public_queue, Suggestion.is_in_public_queue.
    rewrite Hp.
    cbv [bind get_user get_emoji gets ret raise emit modify channel_send emoji_delete
           Suggestion.delete_from_council_queue get_message message_delete execute
           Suggestion.update_inplace Suggestion.delete_from_suggestions_channel
           try_except user_send].
    simpl. rewrite (bool_decide_eq_true_2 _ He). rewrite Hm.
    destruct (bool_decide (user_id self ∈ users w)); simpl.
    all: rewrite bool_decide_eq_true_2 by set_solver; simpl.
    all: rewrite Hs1; simpl.
    all: destruct (suggestions_message_id self) as [sm|]; simpl.
    all: try (destruct (sm =? 0); simpl).
    all: repeat match goal with
         | |- context [bool_decide ?P] => destruct (bool_decide P); simpl
         end.
    all: rewrite ?Hs2; simpl.
    all: repeat match goal with
         | |- context [bool_decide ?P] => destruct (bool_decide P); simpl
         end.
    all: rewrite ?Hs2; simpl.
    all: split; [|split; [reflexivity | split; [reflexivity | set_solver]]].
    all: repeat first [ apply list_elem_of_here | apply list_elem_of_further ]. }
  simpl. repeat split; try assumption; reflexivity.
Qed.

Lemma move_to_public_queue_effect_witness :
  fetchrow_idx 1 (suggestions (world_of [council_row 1 2 1])) = Some (council_row 1 2 1)
  ∧ council_approved (council_row 1 2 1) = None
  ∧ emoji_id (council_row 1 2 1) ∈ emojis (world_of [council_row 1 2 1])
  ∧ council_message_id (council_row 1 2 1) = Some 301
  ∧ (council_queue demo_config, 301) ∈ messages (world_of [council_row 1 2 1])
  ∧ ∃ row,
      (Suggestion.move_to_public_queue demo_config (Some 8) None (council_row 1 2 1)
         (world_of [council_row 1 2 1])).2 = Return row
      ∧ public_message_id row = Some 1000.
Proof.
  assert (emoji_id (council_row 1 2 1) ∈ emojis (world_of [council_row 1 2 1])) as He
    by (apply (bool_decide_unpack _); vm_compute; exact I).
  assert ((council_queue demo_config, 301) ∈ messages (world_of [council_row 1 2 1]))
    as Hin by (apply (bool_decide_unpack _); vm_compute; exact I).
  split; [reflexivity|]. split; [reflexivity|]. split; [exact He|].
  split; [reflexivity|]. split; [exact Hin|].
  destruct (move_to_public_queue_effect demo_config (Some 8) None (council_row 1 2 1)
              (world_of [council_row 1 2 1]) 301 eq_refl eq_refl He eq_refl Hin)
    as (row & Hret & _ & _ & Hpub & _).
  exists row. split; [exact Hret | exact Hpub].
Defined.

(** ** The vote that decides *)

Lemma check_council_votes_promotes cfg r :
  promotes cfg r = true →
  Suggestion.check_council_votes cfg r
  = (s <- Suggestion.reset_votes r ;; Suggestion.move_to_public_queue cfg None None s).
Proof.
  unfold promotes, Suggestion.check_council_votes. intros H.
  apply andb_true_iff in H as [H1 H2]. apply negb_true_iff in H1.
  rewrite H1, H2. reflexivity.
Qed.

Lemma check_council_votes_denies cfg r :
  denies cfg r = true →
  Suggestion.check_council_votes cfg r = Suggestion.deny cfg None None false r.
Proof.
  unfold denies, Suggestion.check_council_votes. intros H.
  apply andb_true_iff in H as [H H3]. apply andb_true_iff in H as [H1 H2].
  apply negb_true_iff in H1, H2. rewrite H1, H2, H3. reflexivity.
Qed.

Lemma check_council_votes_neither cfg r :
  promotes cfg r = false → denies cfg r = false →
  Suggestion.check_council_votes cfg r = ret r.
Proof.
  unfold promotes, denies, Suggestion.check_council_votes. intros H1 H2.
  destruct (upvotes r + downvotes r <? required_votes cfg); [reflexivity|].
  destruct (upvotes r - downvotes r >=? required_difference cfg); [discriminate|].
  destruct (downvotes r - upvotes r >=? required_difference cfg);
    [discriminate | reflexivity].
Qed.

(** A vote on a suggestion of the council queue whose emoji and council
    message are there.  The vote is counted and written to the ledger.  If
    the thresholds then call for a promotion, the suggestion ends in the
    public queue with a tally of zero; if they call for a denial, it ends
    denied with the tally the vote left; otherwise the two writes are all
    that happened. *)
Theorem council_vote_decides cfg vote_emoji vote_type message_id who self w m :
  fetchrow_idx (idx self) (suggestions w) = Some self →
  council_approved self = None →
  public_message_id self = None →
  emoji_id self ∈ emojis w →
  council_message_id self = Some m →
  (council_queue cfg, m) ∈ messages w →
  let approval := opt_is vote_emoji (approve_emoji_id cfg) in
  let self' := set_vote_target approval vote_type self in
  let r := Suggestion.process_vote cfg vote_emoji vote_type message_id who self w in
  council_votes r.1
  = upsert_vote (idx self) who (if approval then Has_approved else Has_denied)
      (match vote_type with YAY => true | NAY => false end) (council_votes w)
  ∧ (if promotes cfg self' then
       (∃ row, r.2 = Return row)
       ∧ state (idx self) r.1 = Some (Some true)
       ∧ tally (idx self) r.1 = Some (0, 0)
     else if denies cfg self' then
       (∃ row, r.2 = Return row)
       ∧ state (idx self) r.1 = Some (Some false)
       ∧ tally (idx self) r.1 = Some (upvotes self', downvotes self')
     else r = (vote_written cfg vote_emoji vote_type who self w, Return self')).
Proof.
  intros Hs Hp Hpub He Hm Hin approval self' r.
  pose proof (vote_written_found cfg vote_emoji vote_type who self w Hs) as Hw.
  fold approval self' in Hw.
  assert (r = Suggestion.check_council_votes cfg self'
                (vote_written cfg vote_emoji vote_type who self w)) as Hr
    by (unfold r; rewrite process_vote_found by exact Hs; rewrite Hpub; reflexivity).
  assert (council_votes (vote_written cfg vote_emoji vote_type who self w)
          = upsert_vote (idx self) who (if approval then Has_approved else Has_denied)
              (match vote_type with YAY => true | NAY => false end) (council_votes w))
    as Hledger by (unfold vote_written; rewrite Hpub; reflexivity).
  assert (emoji_id self' ∈ emojis (vote_written cfg vote_emoji vote_type who self w))
    as He' by (unfold vote_written; rewrite Hpub; exact He).
  assert ((council_queue cfg, m)
            ∈ messages (vote_written cfg vote_emoji vote_type who self w))
    as Hin' by (unfold vote_written; rewrite Hpub; exact Hin).
  split; [rewrite Hr, check_council_votes_ledger; exact Hledger|].
  destruct (check_council_votes_effect cfg self' _ Hw) as [_ Ht].
  destruct (promotes cfg self') eqn:Hpro; [|destruct (denies cfg self') eqn:Hden].
  - rewrite Hr.
    destruct (move_to_public_queue_succeeds cfg None None (set_votes_zero self')
                (with_suggestions (update_idx (idx self') set_votes_zero)
                   (vote_written cfg vote_emoji vote_type who self w)) m)
      as [Hret Hrow]; [| | exact He' | exact Hm | exact Hin' |].
    + simpl. rewrite fetchrow_update_idx by reflexivity. rewrite Hw. reflexivity.
    + simpl. rewrite Hp. discriminate.
    + rewrite check_council_votes_promotes by exact Hpro. unfold bind.
      rewrite reset_votes_found by exact Hw.
      split; [eauto|]. split.
      * unfold state. change (idx (set_votes_zero self')) with (idx self) in Hrow.
        rewrite Hrow. reflexivity.
      * rewrite check_council_votes_promotes in Ht by exact Hpro. unfold bind in Ht.
        rewrite reset_votes_found in Ht by exact Hw. exact Ht.
  - rewrite Hr. rewrite check_council_votes_denies by exact Hden.
    rewrite check_council_votes_denies in Ht by exact Hden.
    destruct (deny_succeeds cfg None None false self' _ m Hw Hp He' Hm Hin')
      as [Hret Hrow].
    split; [eauto|]. split; [|exact Ht].
    unfold state. change (idx self') with (idx self) in Hrow. rewrite Hrow.
    reflexivity.
  - rewrite Hr. rewrite check_council_votes_neither by assumption. reflexivity.
Qed.

Lemma council_vote_decides_witness :
  fetchrow_idx 1 (suggestions (world_of [council_row 1 3 1])) = Some (council_row 1 3 1)
  ∧ council_approved (council_row 1 3 1) = None
  ∧ public_message_id (council_row 1 3 1) = None
  ∧ emoji_id (council_row 1 3 1) ∈ emojis (world_of [council_row 1 3 1])
  ∧ council_message_id (council_row 1 3 1) = Some 301
  ∧ (council_queue demo_config, 301) ∈ messages (world_of [council_row 1 3 1])
  ∧ state 1 (Suggestion.process_vote demo_config (Some 100) YAY 301 7
               (council_row 1 3 1) (world_of [council_row 1 3 1])).1
    = Some (Some true).
Proof.
  assert (emoji_id (council_row 1 3 1) ∈ emojis (world_of [council_row 1 3 1])) as He
    by (apply (bool_decide_unpack _); vm_compute; exact I).
  assert ((council_queue demo_config, 301) ∈ messages (world_of [council_row 1 3 1]))
    as Hin by (apply (bool_decide_unpack _); vm_compute; exact I).
  split; [reflexivity|]. split; [reflexivity|]. split; [reflexivity|].
  split; [exact He|]. split; [reflexivity|]. split; [exact Hin|].
  destruct (council_vote_decides demo_config (Some 100) YAY 301 7 (council_row 1 3 1)
              (world_of [council_row 1 3 1]) 301 eq_refl eq_refl eq_refl He eq_refl Hin)
    as [_ H].
  simpl in H. destruct H as (_ & H & _). exact H.
Defined.

(** The same vote where the emoji of the suggestion is gone.  A promotion
    that is due zeroes the tally and then gives up without an error: the
    suggestion stays in the council queue with a tally of (0, 0).  A denial
    that is due ends in [RuntimeError], after the vote was counted and
    written to the ledger, and the suggestion stays in the council queue. *)
Theorem council_vote_without_emoji cfg vote_emoji vote_type message_id who self w :
  fetchrow_idx (idx self) (suggestions w) = Some self →
  council_approved self = None →
  public_message_id self = None →
  emoji_id self ∉ emojis w →
  let approval := opt_is vote_emoji (approve_emoji_id cfg) in
  let self' := set_vote_target approval vote_type self in
  let r := Suggestion.process_vote cfg vote_emoji vote_type message_id who self w in
  state (idx self) r.1 = Some None
  ∧ council_votes r.1
    = upsert_vote (idx self) who (if approval then Has_approved else Has_denied)
        (match vote_type with YAY => true | NAY => false end) (council_votes w)
  ∧ (if promotes cfg self' then
       r.2 = Return (set_votes_zero self') ∧ tally (idx self) r.1 = Some (0, 0)
     else if denies cfg self' then
       r.2 = Raise (RuntimeError "Error denying -- the uploaded emoji wasn't found.")
       ∧ tally (idx self) r.1 = Some (upvotes self', downvotes self')
     else r = (vote_written cfg vote_emoji vote_type who self w, Return self')).
Proof.
  intros Hs Hp Hpub He approval self' r.
  pose proof (vote_written_found cfg vote_emoji vote_type who self w Hs) as Hw.
  fold approval self' in Hw.
  assert (r = Suggestion.check_council_votes cfg self'
                (vote_written cfg vote_emoji vote_type who self w)) as Hr
    by (unfold r; rewrite process_vote_found by exact Hs; rewrite Hpub; reflexivity).
  assert (council_votes (vote_written cfg vote_emoji vote_type who self w)
          = upsert_vote (idx self) who (if approval then Has_approved else Has_denied)
              (match vote_type with YAY => true | NAY => false end) (council_votes w))
    as Hledger by (unfold vote_written; rewrite Hpub; reflexivity).
  assert (bool_decide
            (emoji_id self ∈ emojis (vote_written cfg vote_emoji vote_type who self w))
          = false) as He'
    by (unfold vote_written; rewrite Hpub; apply bool_decide_eq_false_2, He).
  destruct (check_council_votes_effect cfg self' _ Hw) as [_ Ht].
  assert (state (idx self) (vote_written cfg vote_emoji vote_type who self w)
          = Some None) as Hst
    by (unfold state; rewrite Hw; simpl; rewrite Hp; reflexivity).
  rewrite Hr. split; [|split; [rewrite check_council_votes_ledger; exact Hledger|]].
  - destruct (promotes cfg self') eqn:Hpro; [|destruct (denies cfg self') eqn:Hden].
    + rewrite check_council_votes_promotes by exact Hpro. unfold bind.
      rewrite reset_votes_found by exact Hw.
      unfold Suggestion.move_to_public_queue, Suggestion.is_in_public_queue.
      simpl. rewrite Hp.
      cbv [bind get_user get_emoji gets ret raise emit modify]. simpl.
      rewrite He'.
      destruct (bool_decide (user_id self ∈ _)); simpl; unfold state; simpl;
        rewrite fetchrow_update_idx by reflexivity; rewrite Hw; simpl;
        rewrite Hp; reflexivity.
    + rewrite check_council_votes_denies by exact Hden.
      unfold Suggestion.deny, Suggestion.is_in_public_queue, Suggestion.is_denied.
      simpl. rewrite Hp.
      cbv [bind get_user get_emoji gets ret raise emit modify]. simpl.
      rewrite He'. simpl. exact Hst.
    + rewrite check_council_votes_neither by assumption. exact Hst.
  - destruct (promotes cfg self') eqn:Hpro; [|destruct (denies cfg self') eqn:Hden].
    + split; [|exact Ht].
      rewrite check_council_votes_promotes by exact Hpro. unfold bind.
      rewrite reset_votes_found by exact Hw.
      unfold Suggestion.move_to_public_queue, Suggestion.is_in_public_queue.
      simpl. rewrite Hp.
      cbv [bind get_user get_emoji gets ret raise emit modify]. simpl.
      rewrite He'. destruct (bool_decide (user_id self ∈ _)); reflexivity.
    + split; [|exact Ht].
      rewrite check_council_votes_denies by exact Hden.
      unfold Suggestion.deny, Suggestion.is_in_public_queue, Suggestion.is_denied.
      simpl. rewrite Hp.
      cbv [bind get_user get_emoji gets ret raise emit modify]. simpl.
      rewrite He'. reflexivity.
    + rewrite check_council_votes_neither by assumption. reflexivity.
Qed.

Lemma council_vote_without_emoji_witness :
  fetchrow_idx 1 (suggestions (with_emojis (λ _, ∅) (world_of [council_row 1 3 1])))
  = Some (council_row 1 3 1)
  ∧ council_approved (council_row 1 3 1) = None
  ∧ public_message_id (council_row 1 3 1) = None
  ∧ (emoji_id (council_row 1 3 1)
     ∉ emojis (with_emojis (λ _, ∅) (world_of [council_row 1 3 1])))
  ∧ tally 1 (Suggestion.process_vote demo_config (Some 100) YAY 301 7
               (council_row 1 3 1)
               (with_emojis (λ _, ∅) (world_of [council_row 1 3 1]))).1
    = Some (0, 0)
  ∧ state 1 (Suggestion.process_vote demo_config (Some 100) YAY 301 7
               (council_row 1 3 1)
               (with_emojis (λ _, ∅) (world_of [council_row 1 3 1]))).1
    = Some None.
Proof.
  assert (emoji_id (council_row 1 3 1)
          ∉ emojis (with_emojis (λ _, ∅) (world_of [council_row 1 3 1]))) as He
    by (simpl; apply not_elem_of_empty).
  split; [reflexivity|]. split; [reflexivity|]. split; [reflexivity|].
  split; [exact He|].
  destruct (council_vote_without_emoji demo_config (Some 100) YAY 301 7
              (council_row 1 3 1)
              (with_emojis (λ _, ∅) (world_of [council_row 1 3 1]))
              eq_refl eq_refl eq_refl He) as (Hst & _ & H).
  simpl in H. destruct H as [_ H]. split; [exact H | exact Hst].
Defined.

(** ** Messages that may be gone *)

(** [delete_from_suggestions_channel] never raises and writes neither table.
    A suggestion without a message in the suggestions channel, and one whose
    message id is 0, is left alone.  Otherwise the message is gone
    afterwards, and where it was gone before, a warning is logged instead of
    an error raised. *)
Theorem delete_from_suggestions_channel_total cfg self w :
  let r := Suggestion.delete_from_suggestions_channel cfg self w in
  r.2 = Return tt
  ∧ untouched w r.1
  ∧ emojis r.1 = emojis w
  ∧ match suggestions_message_id self with
    | None => r.1 = w
    | Some sm =>
        if sm =? 0 then r.1 = w
        else messages r.1 = messages w ∖ {[(suggestions_channel cfg, sm)]}
             ∧ (((suggestions_channel cfg, sm) ∉ messages w) →
                outbox r.1 = Log_suggestion_message_kept (idx self) :: outbox w)
    end.
Proof.
  unfold Suggestion.delete_from_suggestions_channel.
  destruct (suggestions_message_id self) as [sm|]; [|repeat split].
  destruct (sm =? 0); [repeat split|].
  cbv [try_except bind get_message gets ret raise message_delete modify emit].
  simpl.
  destruct (bool_decide ((suggestions_channel cfg, sm) ∈ messages w)) eqn:E; simpl.
  - apply bool_decide_eq_true_1 in E. repeat split. intros Hno. contradiction.
  - apply bool_decide_eq_false_1 in E. repeat split. set_solver.
Qed.

(** [remove_from_public_queue] writes neither table: the row keeps its state
    and its public message id.  A message that is there is deleted; one that
    is gone already is no error; a suggestion without a public message id
    makes the request fail with an [HTTPException], which is not caught. *)
Theorem remove_from_public_queue_cases cfg self w :
  let r := Suggestion.remove_from_public_queue cfg self w in
  untouched w r.1
  ∧ emojis r.1 = emojis w
  ∧ match public_message_id self with
    | None => r = (w, Raise HTTPException)
    | Some msg =>
        r.2 = Return tt
        ∧ messages r.1 = messages w ∖ {[(approval_queue cfg, msg)]}
        ∧ (((approval_queue cfg, msg) ∉ messages w) → r.1 = w)
    end.
Proof.
  unfold Suggestion.remove_from_public_queue.
  destruct (public_message_id self) as [msg|]; [|repeat split].
  cbv [try_except bind get_message gets ret raise message_delete modify emit].
  simpl.
  destruct (bool_decide ((approval_queue cfg, msg) ∈ messages w)) eqn:E; simpl.
  - apply bool_decide_eq_true_1 in E. repeat split. intros Hno. contradiction.
  - apply bool_decide_eq_false_1 in E. repeat split. set_solver.
Qed.

(** ** A suggestion is found by the message it has *)

Lemma move_to_public_queue_table cfg who reason self w m :
  fetchrow_idx (idx self) (suggestions w) = Some self →
  council_approved self = None →
  emoji_id self ∈ emojis w →
  council_message_id self = Some m →
  (council_queue cfg, m) ∈ messages w →
  suggestions (Suggestion.move_to_public_queue cfg who reason self w).1
  = update_idx (idx self)
      (set_public (next_id w) reason who (utcnow w) ∘ set_council_message_null)
      (suggestions w).
Proof.
  intros Hs Hp He Hm Hin.
  rewrite <- update_idx_compose by reflexivity.
  assert (fetchrow_idx (idx self)
            (update_idx (idx self) set_council_message_null (suggestions w))
          = Some (set_council_message_null self)) as Hs1
    by (rewrite fetchrow_update_idx by reflexivity; rewrite Hs; reflexivity).
  assert (∀ now,
            fetchrow_idx (idx self)
              (update_idx (idx self) (set_public (next_id w) reason who now)
                 (update_idx (idx self) set_council_message_null (suggestions w)))
            = Some (set_public (next_id w) reason who now
                      (set_council_message_null self))) as Hs2
    by (intros now; rewrite fetchrow_update_idx by reflexivity; rewrite Hs1;
        reflexivity).
  unfold Suggestion.move_to_public_queue, Suggestion.is_in_public_queue.
  rewrite Hp.
  cbv [bind get_user get_emoji gets ret raise emit modify channel_send emoji_delete
         Suggestion.delete_from_council_queue get_message message_delete execute
         Suggestion.update_inplace Suggestion.delete_from_suggestions_channel
         try_except user_send].
  simpl. rewrite (bool_decide_eq_true_2 _ He). rewrite Hm.
  destruct (bool_decide (user_id self ∈ users w)); simpl.
  all: rewrite bool_decide_eq_true_2 by set_solver; simpl.
  all: rewrite Hs1; simpl.
  all: destruct (suggestions_message_id self) as [sm|]; simpl.
  all: try (destruct (sm =? 0); simpl).
  all: repeat match goal with
       | |- context [bool_decide ?P] => destruct (bool_decide P); simpl
       end.
  all: rewrite ?Hs2; simpl.
  all: repeat match goal with
       | |- context [bool_decide ?P] => destruct (bool_decide P); simpl
       end.
  all: rewrite ?Hs2; simpl; reflexivity.
Qed.

Lemma deny_table cfg who reason self w m :
  fetchrow_idx (idx self) (suggestions w) = Some self →
  council_approved self = None →
  emoji_id self ∈ emojis w →
  council_message_id self = Some m →
  (council_queue cfg, m) ∈ messages w →
  suggestions (Suggestion.deny cfg who reason false self w).1
  = update_idx (idx self)
      (set_council_message_null ∘ set_denied reason who (utcnow w))
      (suggestions w).
Proof.
  intros Hs Hp He Hm Hin.
  rewrite <- update_idx_compose by reflexivity.
  assert (∀ f g : Row → Row,
            (∀ r, idx (f r) = idx r) → (∀ r, idx (g r) = idx r) →
            fetchrow_idx (idx self)
              (update_idx (idx self) g (update_idx (idx self) f (suggestions w)))
            = Some (g (f self))) as Hs2.
  { intros f g Hf Hg. rewrite !fetchrow_update_idx by assumption.
    rewrite Hs. reflexivity. }
  assert (∀ f : Row → Row,
            (∀ r, idx (f r) = idx r) →
            fetchrow_idx (idx self) (update_idx (idx self) f (suggestions w))
            = Some (f self)) as Hs1.
  { intros f Hf. rewrite !fetchrow_update_idx by assumption.
    rewrite Hs. reflexivity. }
  unfold Suggestion.deny, Suggestion.is_in_public_queue, Suggestion.is_denied.
  rewrite Hp.
  cbv [bind get_user get_emoji gets ret raise emit modify channel_send emoji_delete
         Suggestion.delete_from_council_queue get_message message_delete execute
         Suggestion.update_inplace Suggestion.delete_from_suggestions_channel
         try_except user_send].
  simpl. rewrite (bool_decide_eq_true_2 _ He). simpl.
  destruct (bool_decide (user_id self ∈ users w)); simpl.
  all: rewrite ?Hs1 by reflexivity; simpl.
  all: rewrite Hm; simpl.
  all: rewrite (bool_decide_eq_true_2 _ Hin); simpl.
  all: rewrite ?Hs2 by reflexivity; simpl.
  all: destruct (suggestions_message_id self) as [sm|]; simpl.
  all: try (destruct (sm =? 0); simpl).
  all: repeat match goal with
       | |- context [bool_decide ?P] => destruct (bool_decide P); simpl
       end.
  all: reflexivity.
Qed.

Lemma fetchrow_message_hit x i set rows :
  (∀ r, In r rows → idx r ≠ i → refers r x = false) →
  (∀ r, In r rows → idx r = i → refers (set r) x = true) →
  fetchrow_message x (update_idx i set rows) = set <$> fetchrow_idx i rows.
Proof.
  intros Hothers Hhit. unfold fetchrow_message, fetchrow_idx, update_idx.
  induction rows as [|r rows IH]; [reflexivity|]. simpl.
  destruct (idx r =? i) eqn:E.
  - fold (refers (set r) x). rewrite (Hhit r); [reflexivity|left; reflexivity|lia].
  - fold (refers r x). rewrite (Hothers r); [|left; reflexivity|lia].
    apply IH; intros r' Hin; [apply Hothers | apply Hhit]; right; exact Hin.
Qed.

Lemma fetchrow_message_miss x i set rows :
  (∀ r, In r rows → idx r ≠ i → refers r x = false) →
  (∀ r, In r rows → idx r = i → refers (set r) x = false) →
  fetchrow_message x (update_idx i set rows) = None.
Proof.
  intros Hothers Hmiss. unfold fetchrow_message, update_idx.
  induction rows as [|r rows IH]; [reflexivity|]. simpl.
  destruct (idx r =? i) eqn:E.
  - fold (refers (set r) x). rewrite (Hmiss r); [|left; reflexivity|lia].
    apply IH; intros r' Hin; [apply Hothers | apply Hmiss]; right; exact Hin.
  - fold (refers r x). rewrite (Hothers r); [|left; reflexivity|lia].
    apply IH; intros r' Hin; [apply Hothers | apply Hmiss]; right; exact Hin.
Qed.

(** After a transition, reactions reach the suggestion through its new
    message only.  Let the suggestion be the one row of its key, and let no
    other row refer to its council message or to the id of the message to
    come.  Then a suggestion moved to the public queue is the one
    [get_from_message] returns for its public message, and for the council
    message of a suggestion moved or denied [get_from_message] raises
    [NotFound]. *)
Theorem message_follows_suggestion cfg who reason self w m :
  fetchrow_idx (idx self) (suggestions w) = Some self →
  council_approved self = None →
  public_message_id self = None →
  emoji_id self ∈ emojis w →
  council_message_id self = Some m →
  (council_queue cfg, m) ∈ messages w →
  m ≠ next_id w →
  (∀ r, In r (suggestions w) →
        r = self
        ∨ (idx r ≠ idx self ∧ refers r m = false ∧ refers r (next_id w) = false)) →
  let moved := (Suggestion.move_to_public_queue cfg who reason self w).1 in
  let denied := (Suggestion.deny cfg who reason false self w).1 in
  Suggestion.get_from_message (next_id w) moved
  = (moved, Return (set_public (next_id w) reason who (utcnow w)
                      (set_council_message_null self)))
  ∧ Suggestion.get_from_message m moved
    = (moved, Raise (SuggestionNotFound "Suggestion not found."))
  ∧ Suggestion.get_from_message m denied
    = (denied, Raise (SuggestionNotFound "Suggestion not found.")).
Proof.
  intros Hs Hp Hpub He Hm Hin Hfresh Hrows moved denied.
  assert (∀ x, (x = m ∨ x = next_id w) →
               ∀ r, In r (suggestions w) → idx r ≠ idx self → refers r x = false)
    as Hothers.
  { intros x Hx r Hr Hne. destruct (Hrows r Hr) as [->|(_ & H1 & H2)]; [done|].
    destruct Hx as [->| ->]; assumption. }
  assert (∀ r, In r (suggestions w) → idx r = idx self → r = self) as Hkey.
  { intros r Hr Hi. destruct (Hrows r Hr) as [->|(Hne & _)]; [reflexivity | done]. }
  unfold Suggestion.get_from_message, bind, gets. simpl.
  unfold moved, denied.
  rewrite (move_to_public_queue_table cfg who reason self w m Hs Hp He Hm Hin).
  rewrite (deny_table cfg who reason self w m Hs Hp He Hm Hin).
  rewrite fetchrow_message_hit, Hs; [| apply Hothers; auto |].
  - rewrite !fetchrow_message_miss; [repeat split | apply Hothers; auto | |
                                     apply Hothers; auto |].
    + intros r Hr Hi. rewrite (Hkey r Hr Hi). unfold refers. simpl.
      rewrite Hpub. reflexivity.
    + intros r Hr Hi. unfold refers. simpl.
      destruct (Z.eqb_spec (next_id w) m); [congruence | reflexivity].
  - intros r Hr Hi. unfold refers. simpl. rewrite Z.eqb_refl. reflexivity.
Qed.

Lemma message_follows_suggestion_witness :
  fetchrow_idx 1 (suggestions (world_of [council_row 1 2 0; council_row 2 0 0]))
  = Some (council_row 1 2 0)
  ∧ (emoji_id (council_row 1 2 0)
     ∈ emojis (world_of [council_row 1 2 0; council_row 2 0 0]))
  ∧ ((council_queue demo_config, 301)
     ∈ messages (world_of [council_row 1 2 0; council_row 2 0 0]))
  ∧ 301 ≠ next_id (world_of [council_row 1 2 0; council_row 2 0 0])
  ∧ (Suggestion.get_from_message 301
       (Suggestion.deny demo_config (Some 8) None false (council_row 1 2 0)
          (world_of [council_row 1 2 0; council_row 2 0 0])).1).2
    = Raise (SuggestionNotFound "Suggestion not found.").
Proof.
  assert (emoji_id (council_row 1 2 0)
          ∈ emojis (world_of [council_row 1 2 0; council_row 2 0 0])) as He
    by (apply (bool_decide_unpack _); vm_compute; exact I).
  assert ((council_queue demo_config, 301)
          ∈ messages (world_of [council_row 1 2 0; council_row 2 0 0])) as Hin
    by (apply (bool_decide_unpack _); vm_compute; exact I).
  assert (301 ≠ next_id (world_of [council_row 1 2 0; council_row 2 0 0])) as Hfresh
    by (simpl; lia).
  assert (∀ r, In r (suggestions (world_of [council_row 1 2 0; council_row 2 0 0])) →
               r = council_row 1 2 0
               ∨ (idx r ≠ idx (council_row 1 2 0) ∧ refers r 301 = false
                  ∧ refers r (next_id (world_of [council_row 1 2 0; council_row 2 0 0]))
                    = false)) as Hrows.
  { intros r [<-|[<-|[]]]; [left; reflexivity|].
    right. split; [simpl; lia | split; reflexivity]. }
  split; [reflexivity|]. split; [exact He|]. split; [exact Hin|].
  split; [exact Hfresh|].
  destruct (message_follows_suggestion demo_config (Some 8) None (council_row 1 2 0)
              (world_of [council_row 1 2 0; council_row 2 0 0]) 301
              eq_refl eq_refl eq_refl He eq_refl Hin Hfresh Hrows) as (_ & _ & H).
  rewrite H. reflexivity.
Defined.

(** ** Which reactions are votes *)

(** [is_vote] holds for the approve and the deny emoji in the council queue
    and in the approval queue, and for nothing else.  A reaction of the bot
    itself and a reaction that is no vote are dropped: nothing is written
    and nothing is raised.  A vote on a message that no suggestion refers to
    ends in [NotFound], with nothing written. *)
Theorem reactions_that_count cfg payload vote_type w :
  (BlobQueue.is_vote cfg (payload_emoji payload) (payload_channel_id payload) = true
   ↔ ∃ id, payload_emoji payload = Some id
           ∧ (id = approve_emoji_id cfg ∨ id = deny_emoji_id cfg)
           ∧ (payload_channel_id payload = council_queue cfg
              ∨ payload_channel_id payload = approval_queue cfg))
  ∧ (¬ counted cfg payload →
     BlobQueue.process_raw_reaction cfg payload vote_type w = (w, Return tt))
  ∧ (counted cfg payload →
     fetchrow_message (payload_message_id payload) (suggestions w) = None →
     BlobQueue.process_raw_reaction cfg payload vote_type w
     = (w, Raise (SuggestionNotFound "Suggestion not found."))).
Proof.
  split; [|split].
  - unfold BlobQueue.is_vote. destruct (payload_emoji payload) as [id|].
    + rewrite <- (negb_involutive
                    ((payload_channel_id payload =? council_queue cfg)
                     || (payload_channel_id payload =? approval_queue cfg))).
      destruct (negb ((id =? approve_emoji_id cfg) || (id =? deny_emoji_id cfg)))
        eqn:E.
      * apply negb_true_iff, orb_false_iff in E as [E1 E2].
        apply Z.eqb_neq in E1, E2. split; [discriminate|].
        intros (id' & [= <-] & [?|?] & _); contradiction.
      * apply negb_false_iff, orb_true_iff in E.
        rewrite negb_involutive, orb_true_iff, !Z.eqb_eq.
        rewrite !Z.eqb_eq in E. split.
        -- intros H. exists id. auto.
        -- intros (id' & [= <-] & _ & H). exact H.
    + split; [discriminate|]. intros (id & H & _). discriminate.
  - intros Hno. unfold BlobQueue.process_raw_reaction, counted in *.
    destruct (Z.eqb_spec (payload_user_id payload) (bot_user_id cfg)); [reflexivity|].
    destruct (BlobQueue.is_vote cfg _ _); [|reflexivity].
    exfalso. apply Hno. split; [assumption | reflexivity].
  - intros [Hbot Hvote] Hnone. unfold BlobQueue.process_raw_reaction.
    rewrite Hvote.
    destruct (Z.eqb_spec (payload_user_id payload) (bot_user_id cfg)); [done|].
    simpl. cbv [bind Suggestion.get_from_message gets]. rewrite Hnone.
    reflexivity.
Qed.

Lemma reactions_that_count_witness :
  ¬ counted demo_config (mkPayload (Some 100) 10 301 999)
  ∧ BlobQueue.process_raw_reaction demo_config (mkPayload (Some 100) 10 301 999) YAY
      (world_of [council_row 1 0 0])
    = (world_of [council_row 1 0 0], Return tt).
Proof.
  assert (¬ counted demo_config (mkPayload (Some 100) 10 301 999)) as Hno
    by (intros [H _]; apply H; reflexivity).
  split; [exact Hno|].
  destruct (reactions_that_count demo_config (mkPayload (Some 100) 10 301 999) YAY
              (world_of [council_row 1 0 0])) as (_ & H & _).
  apply H, Hno.
Defined.

(** ** Votes in the public queue add up *)

Lemma net_votes_from cfg events t :
  fold_left
    (λ t e,
       if opt_is (payload_emoji e.1) (approve_emoji_id cfg)
       then (operator e.2 t.1 1, t.2) else (t.1, operator e.2 t.2 1))
    events t
  = (t.1 + (net_votes cfg events).1, t.2 + (net_votes cfg events).2).
Proof.
  unfold net_votes. revert t. induction events as [|e events IH]; intros [a b].
  - simpl. f_equal; lia.
  - simpl. rewrite IH. rewrite (IH (if opt_is _ _ then _ else _)).
    destruct (opt_is (payload_emoji e.1) (approve_emoji_id cfg)), e.2; simpl;
      f_equal; lia.
Qed.

Lemma net_votes_cons cfg p vt events :
  net_votes cfg ((p, vt) :: events)
  = if opt_is (payload_emoji p) (approve_emoji_id cfg)
    then (operator vt 0 1 + (net_votes cfg events).1, (net_votes cfg events).2)
    else ((net_votes cfg events).1, operator vt 0 1 + (net_votes cfg events).2).
Proof.
  unfold net_votes at 1. simpl. rewrite net_votes_from.
  destruct (opt_is (payload_emoji p) (approve_emoji_id cfg)); reflexivity.
Qed.



(** ** What [vote_info] shows of a vote *)

Lemma vote_entry_key i who votes v :
  vote_entry i who votes = Some v → suggestion_index v = i ∧ voter_id v = who.
Proof.
  unfold vote_entry. intros H. apply find_some in H as [_ H].
  apply same_key_true in H. injection H. auto.
Qed.



(** ** Names of temporary emoji *)

Lemma valid_name_char_underscore : valid_name_char "_"%char = true.
Proof. reflexivity. Qed.

(** [clean_emoji_name] keeps the length of a name and leaves only letters,
    digits and underscores in it; a name made of these is returned as it is,
    so cleaning twice is cleaning once. *)
Theorem clean_emoji_name_valid s :
  String.length (clean_emoji_name s) = String.length s
  ∧ (∀ n c, String.get n (clean_emoji_name s) = Some c → valid_name_char c = true)
  ∧ ((∀ n c, String.get n s = Some c → valid_name_char c = true) →
     clean_emoji_name s = s)
  ∧ clean_emoji_name (clean_emoji_name s) = clean_emoji_name s.
Proof.
  assert (∀ s n c, String.get n (clean_emoji_name s) = Some c →
                   valid_name_char c = true) as Hvalid.
  { clear s. induction s as [|a s IH]; intros n c; simpl; [discriminate|].
    destruct n as [|n].
    - intros [= <-]. destruct (valid_name_char a) eqn:E; [exact E | reflexivity].
    - apply IH. }
  assert (∀ s, (∀ n c, String.get n s = Some c → valid_name_char c = true) →
               clean_emoji_name s = s) as Hid.
  { clear s. induction s as [|a s IH]; intros H; simpl; [reflexivity|].
    rewrite (H 0%nat a eq_refl). f_equal. apply IH.
    intros n c Hn. apply (H (S n) c). exact Hn. }
  split; [|split; [apply Hvalid | split; [apply Hid | apply Hid, Hvalid]]].
  induction s as [|a s IH]; simpl; [reflexivity | f_equal; exact IH].
Qed.

(** ** The VS command and the tables *)

(** However a VS command ends, refused, declined, confirmed or with an
    error, it has written neither the [suggestions] table nor the ledger, so
    every entry keeps its state, its tally and its public message id; and it
    leaves the VS lock as it found it. *)
Theorem vs_never_writes cfg emoji decision w :
  let r := BlobQueue.vs cfg emoji decision w in
  untouched w r.1 ∧ vs_lock r.1 = vs_lock w.
Proof.
  assert (spec untouched any
            (if (List.length emoji <? 2)%nat then
               emit (Ctx_send "Need at least 2 emoji to do VS vote.")
             else if (6 <? List.length emoji)%nat then
               emit (Ctx_send "Refusing to do VS vote of greater than 6 emoji.")
             else if (size (list_to_set (C:=gset Z) (entry_id <$> emoji))
                      <? List.length emoji)%nat then
               emit (Ctx_send "Can't have a VS vote with the same emoji appearing more than once.")
             else
               temp_emotes <- BlobQueue.create_temp_emotes 0 emoji ;;
               if declined decision then for_each temp_emotes emoji_delete
               else
                 vs_message <- channel_send (approval_queue cfg) temp_emotes ;;
                 BlobQueue.react_and_delete vs_message 1 temp_emotes ;;;
                 merge_list <- BlobQueue.merge cfg emoji ;;
                 emit (Ctx_vs_created merge_list))) as Hbody.
  { pose proof untouched_refl as Hr. pose proof untouched_trans as Ht.
    pose proof untouched_discord as Hd.
    destruct (_ <? 2)%nat; [apply discord_emit; assumption|].
    destruct (6 <? _)%nat; [apply discord_emit; assumption|].
    destruct (_ <? _)%nat; [apply discord_emit; assumption|].
    eapply (spec_bind _ Ht); [apply discord_create_temp_emotes; assumption|].
    intros temps _.
    destruct (declined decision); [apply discord_delete_all; assumption|].
    eapply (spec_bind _ Ht); [apply discord_channel_send; assumption|].
    intros msg _.
    eapply (spec_bind _ Ht); [apply discord_react_and_delete; assumption|].
    intros _ _.
    eapply (spec_bind _ Ht); [apply discord_merge; assumption|].
    intros merged _. apply discord_emit; assumption. }
  unfold BlobQueue.vs, bind, gets. simpl.
  destruct (vs_lock w) eqn:Hlock.
  - simpl. split; [split; reflexivity | exact Hlock].
  - unfold BlobQueue.under_vs_lock.
    specialize (Hbody (with_vs_lock true w)).
    match goal with
    | |- context [let (_, _) := ?body (with_vs_lock true w) in _] =>
        change (body (with_vs_lock true w)) with
          ((if (List.length emoji <? 2)%nat then
              emit (Ctx_send "Need at least 2 emoji to do VS vote.")
            else if (6 <? List.length emoji)%nat then
              emit (Ctx_send "Refusing to do VS vote of greater than 6 emoji.")
            else if (size (list_to_set (C:=gset Z) (entry_id <$> emoji))
                     <? List.length emoji)%nat then
              emit (Ctx_send "Can't have a VS vote with the same emoji appearing more than once.")
            else
              temp_emotes <- BlobQueue.create_temp_emotes 0 emoji ;;
              if declined decision then for_each temp_emotes emoji_delete
              else
                vs_message <- channel_send (approval_queue cfg) temp_emotes ;;
                BlobQueue.react_and_delete vs_message 1 temp_emotes ;;;
                merge_list <- BlobQueue.merge cfg emoji ;;
                emit (Ctx_vs_created merge_list)) (with_vs_lock true w))
    end.
    destruct (_ (with_vs_lock true w)) as [w' o]. simpl in *.
    destruct Hbody as [[Hs Hv] _]. split; [split; assumption | reflexivity].
Qed.

Lemma create_temp_emotes_next index emoji w :
  next_id (BlobQueue.create_temp_emotes index emoji w).1
  = next_id w + Z.of_nat (List.length emoji).
Proof.
  revert index w. induction emoji as [|e emoji IH]; intros index w.
  - simpl. lia.
  - simpl BlobQueue.create_temp_emotes.
    set (name := clean_emoji_name _). set (animated := endswith _ _).
    unfold bind at 1.
    change (create_custom_emoji animated name w)
      with (with_outbox (cons (Emoji_created (next_id w) animated name))
              (with_emojis (λ s, {[next_id w]} ∪ s)
                 (with_next_id (next_id w + 1) w)), Return (next_id w)).
    unfold bind.
    match goal with
    | |- context [BlobQueue.create_temp_emotes (S index) emoji ?w1] =>
        specialize (IH (S index) w1);
        destruct (BlobQueue.create_temp_emotes (S index) emoji w1) as [w' [a|x]]
    end; simpl in *; rewrite IH; simpl List.length; lia.
Qed.

Lemma react_and_delete_run msg index temps w :
  ∃ w',
    BlobQueue.react_and_delete msg index temps w = (w', Return tt)
    ∧ same_tables w w'
    ∧ emojis w' = emojis w ∖ list_to_set temps
    ∧ next_id w' = next_id w.
Proof.
  revert index w. induction temps as [|t temps IH]; intros index w.
  - exists w. rewrite list_to_set_nil. unfold same_tables. repeat split.
    apply leibniz_equiv. set_solver.
  - simpl BlobQueue.react_and_delete.
    set (w1 := with_outbox (cons (Emoji_deleted t))
                 (with_emojis (λ s, s ∖ {[t]})
                    (with_outbox
                       (cons (Reaction_added msg (pretty index +:+ " keycap"))) w))).
    destruct (IH (S index) w1) as (w' & E & (Hs & Hv & Hm & Hl) & He & Hn).
    exists w'. split; [|split; [|split]].
    + cbv [bind emit modify emoji_delete]. cbv [bind emit modify] in E.
      fold w1. exact E.
    + unfold same_tables. rewrite Hs, Hv, Hm, Hl. repeat split.
    + rewrite He, list_to_set_cons.
      change (emojis w1) with (emojis w ∖ {[t]}).
      apply leibniz_equiv. set_solver.
    + rewrite Hn. reflexivity.
Qed.

Lemma merge_run cfg emoji w :
  (∀ e s, In e emoji → entry_suggestion e = Some s → public_message_id s ≠ None) →
  ∃ w',
    BlobQueue.merge cfg emoji w = (w', Return (vs_report emoji))
    ∧ emojis w' = emojis w
    ∧ next_id w' = next_id w
    ∧ messages w' = messages w ∖ list_to_set (vs_withdrawn cfg emoji).
Proof.
  revert w. induction emoji as [|e emoji IH]; intros w Hpub.
  - exists w. repeat split. change (vs_withdrawn cfg []) with (@nil (Z * Z)).
    rewrite list_to_set_nil. apply leibniz_equiv. set_solver.
  - simpl BlobQueue.merge.
    destruct (entry_suggestion e) as [s|] eqn:Es.
    + destruct (public_message_id s) as [pm|] eqn:Ep;
        [|exfalso; apply (Hpub e s); [left; reflexivity | exact Es | exact Ep]].
      assert (vs_report (e :: emoji)
              = (idx s, upvotes s, downvotes s) :: vs_report emoji) as ->
        by (unfold vs_report; simpl; rewrite Es; reflexivity).
      assert (vs_withdrawn cfg (e :: emoji)
              = (approval_queue cfg, pm) :: vs_withdrawn cfg emoji) as ->
        by (unfold vs_withdrawn; simpl; rewrite Es; simpl; rewrite Ep; reflexivity).
      assert (∃ w1, Suggestion.remove_from_public_queue cfg s w = (w1, Return tt)
                    ∧ emojis w1 = emojis w ∧ next_id w1 = next_id w
                    ∧ messages w1 = messages w ∖ {[(approval_queue cfg, pm)]})
        as (w1 & E1 & He1 & Hn1 & Hm1).
      { unfold Suggestion.remove_from_public_queue. rewrite Ep.
        cbv [try_except bind get_message gets ret raise message_delete modify emit].
        simpl.
        destruct (bool_decide ((approval_queue cfg, pm) ∈ messages w)) eqn:E; simpl.
        - eexists. repeat split.
        - apply bool_decide_eq_false_1 in E. exists w. repeat split.
          apply leibniz_equiv. set_solver. }
      destruct (IH w1) as (w' & E & He & Hn & Hm);
        [intros e' s' Hin; apply Hpub; right; exact Hin|].
      exists w'. unfold bind at 1. rewrite E1. unfold bind. rewrite E.
      split; [reflexivity|]. rewrite He, Hn, Hm, He1, Hn1, Hm1.
      repeat split. rewrite list_to_set_cons.
      apply leibniz_equiv. set_solver.
    + assert (vs_report (e :: emoji) = vs_report emoji) as ->
        by (unfold vs_report; simpl; rewrite Es; reflexivity).
      assert (vs_withdrawn cfg (e :: emoji) = vs_withdrawn cfg emoji) as ->
        by (unfold vs_withdrawn; simpl; rewrite Es; reflexivity).
      apply IH. intros e' s' Hin. apply Hpub. right. exact Hin.
Qed.

(** A VS vote that is confirmed, for two to six entries with distinct ids
    whose suggestions all have a public message, returns normally.  One
    message is posted in the approval queue, after the temporary emoji were
    created, and the public messages of the entries are deleted; every
    temporary emoji is deleted again; and the answer reports key and tally of
    every entry that is a suggestion, in the order of the entries.  The
    uploads to the buffer guild are taken to succeed, as [create_custom_emoji]
    has it. *)
Theorem vs_confirmed cfg emoji w :
  vs_lock w = false →
  (2 ≤ List.length emoji ≤ 6)%nat →
  NoDup (entry_id <$> emoji) →
  (∀ e s, In e emoji → entry_suggestion e = Some s → public_message_id s ≠ None) →
  let r := BlobQueue.vs cfg emoji (Some true) w in
  let n := Z.of_nat (List.length emoji) in
  r.2 = Return tt
  ∧ head (outbox r.1) = Some (Ctx_vs_created (vs_report emoji))
  ∧ next_id r.1 = next_id w + n + 1
  ∧ messages r.1
    = ({[(approval_queue cfg, next_id w + n)]} ∪ messages w)
      ∖ list_to_set (vs_withdrawn cfg emoji)
  ∧ emojis r.1 = emojis w ∖ list_to_set (seqZ (next_id w) n)
  ∧ vs_lock r.1 = false.
Proof.
  intros Hlock [Hlo Hhi] Hnd Hpub r n.
  set (temps := seqZ (next_id w) n).
  destruct (create_temp_emotes_run 0 emoji (with_vs_lock true w))
    as (w1 & E1 & (_ & _ & Hm1 & _) & He1).
  pose proof (create_temp_emotes_next 0 emoji (with_vs_lock true w)) as Hn1.
  rewrite E1 in Hn1. simpl in Hn1, E1, He1, Hm1. fold n in Hn1, E1, He1.
  fold temps in E1, He1.
  set (w2 := with_outbox (cons (Message_sent (approval_queue cfg) (next_id w1) temps))
               (with_messages (λ s, {[(approval_queue cfg, next_id w1)]} ∪ s)
                  (with_next_id (next_id w1 + 1) w1))).
  destruct (react_and_delete_run (next_id w1) 1 temps w2)
    as (w3 & E3 & (_ & _ & Hm3 & _) & He3 & Hn3).
  destruct (merge_run cfg emoji w3 Hpub) as (w4 & E4 & He4 & Hn4 & Hm4).
  assert (r = (with_vs_lock false
                 (with_outbox (cons (Ctx_vs_created (vs_report emoji))) w4),
               Return tt)) as ->.
  { unfold r, BlobQueue.vs, bind at 1, gets. rewrite Hlock.
    unfold BlobQueue.under_vs_lock.
    destruct (Nat.ltb_spec (List.length emoji) 2); [lia|].
    destruct (Nat.ltb_spec 6 (List.length emoji)); [lia|].
    rewrite size_list_to_set, length_fmap by exact Hnd.
    rewrite Nat.ltb_irrefl. unfold bind at 1. rewrite E1. simpl.
    unfold bind at 1.
    change (channel_send (approval_queue cfg) temps w1) with (w2, Return (next_id w1)).
    unfold bind at 1. rewrite E3. unfold bind at 1. rewrite E4. reflexivity. }
  simpl. rewrite He4, Hn4, Hm4, He3, Hn3, Hm3. simpl. rewrite Hn1, He1, Hm1.
  repeat split.
  apply leibniz_equiv. set_solver.
Qed.

Lemma vs_confirmed_witness :
  vs_lock (world_of [queued_row 1 2 0; queued_row 2 0 1]) = false
  ∧ (BlobQueue.vs demo_config
       [mkVsEntry (Some (queued_row 1 2 0)) 201 "201.png" "a";
        mkVsEntry (Some (queued_row 2 0 1)) 202 "202.gif" "b"]
       (Some true) (world_of [queued_row 1 2 0; queued_row 2 0 1])).2 = Return tt
  ∧ head (outbox
            (BlobQueue.vs demo_config
               [mkVsEntry (Some (queued_row 1 2 0)) 201 "201.png" "a";
                mkVsEntry (Some (queued_row 2 0 1)) 202 "202.gif" "b"]
               (Some true) (world_of [queued_row 1 2 0; queued_row 2 0 1])).1)
    = Some (Ctx_vs_created [(1, 2, 0); (2, 0, 1)]).
Proof.
  split; [reflexivity|].
  assert (NoDup (entry_id <$> [mkVsEntry (Some (queued_row 1 2 0)) 201 "201.png" "a";
                                mkVsEntry (Some (queued_row 2 0 1)) 202 "202.gif" "b"]))
    as Hnd.
  { simpl. apply NoDup_cons. split; [|apply NoDup_singleton].
    intros H%list_elem_of_singleton. discriminate H. }
  assert (∀ e s,
            In e [mkVsEntry (Some (queued_row 1 2 0)) 201 "201.png" "a";
                  mkVsEntry (Some (queued_row 2 0 1)) 202 "202.gif" "b"] →
            entry_suggestion e = Some s → public_message_id s ≠ None) as Hpub.
  { intros e s [<-|[<-|[]]] [= <-]; discriminate. }
  destruct (vs_confirmed demo_config
              [mkVsEntry (Some (queued_row 1 2 0)) 201 "201.png" "a";
               mkVsEntry (Some (queued_row 2 0 1)) 202 "202.gif" "b"]
              (world_of [queued_row 1 2 0; queued_row 2 0 1])
              eq_refl (conj (le_n 2) (le_S _ _ (le_S _ _ (le_S _ _ (le_S _ _ (le_n 2))))))
              Hnd Hpub) as (Hret & Hhead & _).
  split; [exact Hret | exact Hhead].
Defined.

(** ** The revoke wizard *)

Lemma untouched_keeps i w w' : untouched w w' → keeps i w w'.
Proof.
  intros [Hs Hv]. destruct (keeps_refl i w) as [_ (set & Hset & Heq)].
  split; [exact Hv|]. exists set. split; [exact Hset | congruence].
Qed.

Lemma fetch_pending_In author rows c :
  In c (BlobQueue.fetch_pending author rows) →
  In c rows ∧ user_id c = author ∧ council_approved c = None.
Proof.
  unfold BlobQueue.fetch_pending. rewrite filter_In, andb_true_iff, Z.eqb_eq.
  intros (Hin & Hu & Hc). destruct (council_approved c); [discriminate | auto].
Qed.

(** What the wizard does to the tables: nothing, or the denial of one
    pending submission of the author. *)
Lemma revoke_reach cfg author ctx_message answers w :
  let w' := (BlobQueue.revoke cfg author ctx_message answers w).1 in
  untouched w w'
  ∨ ∃ c, In c (BlobQueue.fetch_pending author (suggestions w)) ∧ keeps (idx c) w w'.
Proof.
  pose proof untouched_refl as Hr. pose proof untouched_trans as Ht.
  pose proof untouched_discord as Hd.
  set (reach := λ w', untouched w w'
     ∨ ∃ c, In c (BlobQueue.fetch_pending author (suggestions w)) ∧ keeps (idx c) w w').
  change (reach (BlobQueue.revoke cfg author ctx_message answers w).1).
  assert (∀ w', untouched w w' → reach w') as Hleft by (intros w' H; left; exact H).
  unfold BlobQueue.revoke.
  set (prelude := match ctx_message with
                  | Some (channel, message) => message_delete channel message
                  | None => ret tt
                  end).
  assert (spec untouched any prelude) as Hpre.
  { unfold prelude. destruct ctx_message as [[c m]|];
      [apply discord_message_delete | apply discord_pass]; assumption. }
  unfold bind at 1. specialize (Hpre w).
  destruct (prelude w) as [w0 [[]|e]]; simpl in Hpre; destruct Hpre as [H0 _];
    [|apply Hleft; exact H0].
  unfold bind at 1, gets.
  assert (BlobQueue.fetch_pending author (suggestions w0)
          = BlobQueue.fetch_pending author (suggestions w)) as Hsub
    by (destruct H0 as [-> _]; reflexivity).
  rewrite Hsub.
  destruct (BlobQueue.fetch_pending author (suggestions w)) as [|first rest] eqn:Ef.
  - apply Hleft. apply (Ht _ _ _ H0).
    apply (spec_bind untouched Ht any any).
    + apply (spec_try_except untouched Ht);
        [apply discord_user_send | apply discord_emit]; assumption.
    + intros _ _. apply discord_pass; assumption.
  - set (ask := try_except _ _ _).
    assert (spec untouched any ask) as Hask.
    { unfold ask. apply (spec_try_except untouched Ht).
      - apply (spec_bind untouched Ht any any);
          [apply discord_user_send; assumption|].
        intros _ _. apply discord_pass; assumption.
      - apply (spec_bind untouched Ht any any); [apply discord_emit; assumption|].
        intros _ _. apply discord_pass; assumption. }
    unfold bind at 1. specialize (Hask w0).
    destruct (ask w0) as [w1 [reached|e]]; simpl in Hask; destruct Hask as [H1 _];
      [|apply Hleft; eapply Ht; eassumption].
    destruct reached; [|apply Hleft; simpl; eapply Ht; eassumption].
    pose proof (discord_pick untouched Hr Ht Hd author first (first :: rest) 0 answers w1)
      as Hpick.
    unfold bind at 1.
    destruct (BlobQueue.pick author first (first :: rest) 0 answers w1)
      as [w2 [picked|e]]; simpl in Hpick; destruct Hpick as [H2 Hin];
      [|apply Hleft; eapply Ht; [eassumption | eapply Ht; eassumption]].
    assert (untouched w w2) as H02
      by (eapply Ht; [eassumption | eapply Ht; eassumption]).
    destruct picked as [| | | |c]; try (apply Hleft; exact H02).
    right. exists c. split; [destruct Hin as [->|Hin]; [left; reflexivity | exact Hin]|].
    apply (keeps_trans _ _ w2); [apply untouched_keeps, H02|].
    pose proof (keeps_deny cfg (idx c) (Some author) (Some "Manually revoked") true c
                  eq_refl w2) as Hdeny.
    unfold bind at 1.
    destruct (Suggestion.deny cfg (Some author) (Some "Manually revoked") true c w2)
      as [w3 [row|e]]; simpl in Hdeny; destruct Hdeny as [H3 _]; [|exact H3].
    apply (keeps_trans _ _ w3); [exact H3|]. apply untouched_keeps.
    apply (spec_bind untouched Ht any any); [apply discord_emit; assumption|].
    intros _ _. apply (spec_bind untouched Ht any any);
      [apply discord_user_send; assumption|].
    intros _ _. apply discord_pass; assumption.
Qed.

(** The wizard can only touch what its author may revoke.  A suggestion
    whose key is not that of a submission of the author that is still in the
    council queue has the same row after the wizard as before, whatever the
    author answers, and the ledger is never written. *)
Theorem revoke_only_own_pending cfg author ctx_message answers w j :
  (∀ c, In c (suggestions w) → user_id c = author → council_approved c = None →
        idx c ≠ j) →
  let w' := (BlobQueue.revoke cfg author ctx_message answers w).1 in
  fetchrow_idx j (suggestions w') = fetchrow_idx j (suggestions w)
  ∧ council_votes w' = council_votes w.
Proof.
  intros Hown.
  destruct (revoke_reach cfg author ctx_message answers w)
    as [[Hs Hv]|(c & Hc & [Hv (set & Hset & Hs)])]; simpl.
  - rewrite Hs. auto.
  - split; [|exact Hv]. rewrite Hs.
    apply fetchrow_update_other; [intros r; apply Hset|].
    apply fetch_pending_In in Hc as (Hin & Hu & Hp).
    intros ->. apply (Hown c Hin Hu Hp). reflexivity.
Qed.

Lemma revoke_only_own_pending_witness :
  (∀ c, In c (suggestions (world_of [council_row 1 0 0; queued_row 2 3 0])) →
        user_id c = 50 → council_approved c = None → idx c ≠ 2)
  ∧ fetchrow_idx 2
      (suggestions
         (BlobQueue.revoke demo_config 50 None [Some 1]
            (world_of [council_row 1 0 0; queued_row 2 3 0])).1)
    = Some (queued_row 2 3 0).
Proof.
  assert (∀ c, In c (suggestions (world_of [council_row 1 0 0; queued_row 2 3 0])) →
               user_id c = 50 → council_approved c = None → idx c ≠ 2) as Hown.
  { intros c [<-|[<-|[]]] _ Hp; [simpl; lia | discriminate Hp]. }
  split; [exact Hown|].
  destruct (revoke_only_own_pending demo_config 50 None [Some 1]
              (world_of [council_row 1 0 0; queued_row 2 3 0]) 2 Hown) as [H _].
  rewrite H. reflexivity.
Defined.

(** A denial that revokes writes to nobody and leaves the set of users who
    cannot be written to as it was. *)
Lemma deny_revoke_quiet cfg who reason self w m :
  fetchrow_idx (idx self) (suggestions w) = Some self →
  council_approved self = None →
  emoji_id self ∈ emojis w →
  council_message_id self = Some m →
  (council_queue cfg, m) ∈ messages w →
  let w' := (Suggestion.deny cfg who reason true self w).1 in
  dm_closed w' = dm_closed w
  ∧ ∀ u t, Direct_message u t ∈ outbox w' → Direct_message u t ∈ outbox w.
Proof.
  intros Hs Hp He Hm Hin.
  assert (∀ f g h : Row → Row,
            (∀ r, idx (f r) = idx r) → (∀ r, idx (g r) = idx r) →
            (∀ r, idx (h r) = idx r) →
            fetchrow_idx (idx self)
              (update_idx (idx self) h
                 (update_idx (idx self) g (update_idx (idx self) f (suggestions w))))
            = Some (h (g (f self)))) as Hs3.
  { intros f g h Hf Hg Hh. rewrite !fetchrow_update_idx by assumption.
    rewrite Hs. reflexivity. }
  assert (∀ f g : Row → Row,
            (∀ r, idx (f r) = idx r) → (∀ r, idx (g r) = idx r) →
            fetchrow_idx (idx self)
              (update_idx (idx self) g (update_idx (idx self) f (suggestions w)))
            = Some (g (f self))) as Hs2.
  { intros f g Hf Hg. rewrite !fetchrow_update_idx by assumption.
    rewrite Hs. reflexivity. }
  unfold Suggestion.deny, Suggestion.is_in_public_queue, Suggestion.is_denied.
  rewrite Hp.
  cbv [bind get_user get_emoji gets ret raise emit modify channel_send emoji_delete
         Suggestion.delete_from_council_queue get_message message_delete execute
         Suggestion.update_inplace Suggestion.delete_from_suggestions_channel
         try_except user_send].
  simpl. rewrite (bool_decide_eq_true_2 _ He). simpl.
  destruct (bool_decide (user_id self ∈ users w)); simpl.
  all: rewrite ?Hs2 by reflexivity; simpl.
  all: rewrite Hm; simpl.
  all: rewrite (bool_decide_eq_true_2 _ Hin); simpl.
  all: rewrite ?Hs3, ?Hs2 by reflexivity; simpl.
  all: destruct (suggestions_message_id self) as [sm|]; simpl.
  all: try (destruct (sm =? 0); simpl).
  all: repeat match goal with
       | |- context [bool_decide ?P] => destruct (bool_decide P); simpl
       end.
  all: rewrite ?Hs3, ?Hs2 by reflexivity; simpl.
  all: split; [reflexivity|]; intros u t Hdm.
  all: repeat (apply elem_of_cons in Hdm as [Hdm|Hdm]; [discriminate Hdm|]).
  all: exact Hdm.
Qed.

(** The wizard revokes what the author picks.  Where the author can be
    written to and the first answer is the number of one of their pending
    submissions, that submission is the one denied: its row ends denied and
    revoked, forced by the author with the reason "Manually revoked".  The
    last word is the confirmation sent to the author, and nobody is sent
    the notice of a denial. *)
Theorem revoke_revokes_choice cfg author ctx_message index rest w chosen m :
  author ∉ dm_closed w →
  1 ≤ index →
  BlobQueue.fetch_pending author (suggestions w) !! Z.to_nat (index - 1) = Some chosen →
  fetchrow_idx (idx chosen) (suggestions w) = Some chosen →
  emoji_id chosen ∈ emojis w →
  council_message_id chosen = Some m →
  (council_queue cfg, m) ∈ messages w →
  ctx_message ≠ Some (council_queue cfg, m) →
  let r := BlobQueue.revoke cfg author ctx_message (Some index :: rest) w in
  r.2 = Return (BlobQueue.Chose chosen)
  ∧ (∃ row,
       fetchrow_idx (idx chosen) (suggestions r.1) = Some row
       ∧ council_approved row = Some false ∧ revoked row = true
       ∧ forced_by row = Some author
       ∧ forced_reason row = Some "Manually revoked")
  ∧ head (outbox r.1) = Some (Direct_message author "Suggestion has been revoked.")
  ∧ ∀ u, Direct_message u "SUGGESTION_DENIED" ∈ outbox r.1 →
         Direct_message u "SUGGESTION_DENIED" ∈ outbox w.
Proof.
  intros Hopen Hlow Hnth Hs He Hm Hin Hctx.
  set (w0 := (match ctx_message with
              | Some (channel, message) => message_delete channel message
              | None => ret tt
              end w).1).
  assert (suggestions w0 = suggestions w ∧ dm_closed w0 = dm_closed w
          ∧ emojis w0 = emojis w ∧ (council_queue cfg, m) ∈ messages w0
          ∧ ∀ u t, Direct_message u t ∈ outbox w0 → Direct_message u t ∈ outbox w)
    as (Hs0 & Hc0 & He0 & Hin0 & Hout0).
  { unfold w0. destruct ctx_message as [[c k]|]; simpl.
    - repeat split; try reflexivity.
      + apply elem_of_difference. split; [exact Hin|].
        rewrite elem_of_singleton. intros [= <- <-]. apply Hctx. reflexivity.
      + intros u t Hdm. apply elem_of_cons in Hdm as [Hdm|Hdm];
          [discriminate Hdm | exact Hdm].
    - repeat split; try reflexivity; auto. }
  assert (BlobQueue.revoke cfg author ctx_message (Some index :: rest) w
          = (submissions <- gets (λ w, BlobQueue.fetch_pending author (suggestions w)) ;;
             match submissions with
             | [] => ret BlobQueue.No_submissions
             | first :: _ =>
                 user_send author "Please pick a suggestion to revoke by sending its number." ;;;
                 suggestion <- Suggestion.deny cfg (Some author) (Some "Manually revoked")
                                 true (List.nth (Z.to_nat (index - 1)) submissions first) ;;
                 emit (Log_forced "manually revoked" (idx suggestion) author None) ;;;
                 user_send author "Suggestion has been revoked." ;;;
                 ret (BlobQueue.Chose (List.nth (Z.to_nat (index - 1)) submissions first))
             end) w0) as Hrun.
  { assert (index ≤ Z.of_nat (List.length (BlobQueue.fetch_pending author (suggestions w))))
      as Hhigh by (pose proof (lookup_lt_Some _ _ _ Hnth); lia).
    unfold BlobQueue.revoke, w0.
    assert (∀ w1 : World, dm_closed w1 = dm_closed w → bool_decide (author ∈ dm_closed w1) = false)
      as Hsend by (intros w1 ->; apply bool_decide_eq_false_2, Hopen).
    destruct ctx_message as [[c k]|];
      cbv [bind gets ret message_delete modify emit try_except user_send]; simpl;
      destruct (BlobQueue.fetch_pending author (suggestions w)) as [|first more] eqn:Ef;
      try discriminate Hnth; simpl;
      rewrite (bool_decide_eq_false_2 _ Hopen); simpl.
    all: replace ((index >? Z.of_nat (S (List.length more))) || (index <? 1)) with false
      by (symmetry; apply orb_false_iff;
          split; [rewrite Z.gtb_ltb; apply Z.ltb_ge | apply Z.ltb_ge];
          simpl in Hhigh; lia).
    all: reflexivity. }
  assert (List.nth (Z.to_nat (index - 1)) (BlobQueue.fetch_pending author (suggestions w))
            chosen = chosen) as Hpick by (apply nth_lookup_Some with (d := chosen) in Hnth; exact Hnth).
  clearbody w0. simpl. rewrite Hrun. clear Hrun.
  cbv [bind gets ret emit modify user_send]. rewrite Hs0.
  destruct (BlobQueue.fetch_pending author (suggestions w)) as [|first more] eqn:Ef;
    [discriminate Hnth|].
  rewrite Hc0, (bool_decide_eq_false_2 _ Hopen).
  assert (List.nth (Z.to_nat (index - 1)) (first :: more) first = chosen) as ->.
  { rewrite <- Hpick. apply nth_indep. apply lookup_lt_Some in Hnth. exact Hnth. }
  set (w1 := with_outbox _ w0).
  assert (fetchrow_idx (idx chosen) (suggestions w1) = Some chosen) as Hs1
    by (unfold w1; simpl; rewrite Hs0; exact Hs).
  assert (emoji_id chosen ∈ emojis w1) as He1 by (unfold w1; simpl; rewrite He0; exact He).
  assert ((council_queue cfg, m) ∈ messages w1) as Hin1 by (unfold w1; simpl; exact Hin0).
  assert (council_approved chosen = None) as Hp.
  { apply list_elem_of_lookup_2, list_elem_of_In in Hnth. rewrite <- Ef in Hnth.
    apply fetch_pending_In in Hnth. tauto. }
  destruct (deny_succeeds cfg (Some author) (Some "Manually revoked") true chosen w1 m
              Hs1 Hp He1 Hm Hin1) as [Hret Hrow].
  destruct (deny_revoke_quiet cfg (Some author) (Some "Manually revoked") chosen w1 m
              Hs1 Hp He1 Hm Hin1) as [Hclosed Hquiet].
  destruct (Suggestion.deny cfg (Some author) (Some "Manually revoked") true chosen w1)
    as [w2 o]. simpl in Hret, Hrow, Hclosed, Hquiet. subst o. simpl.
  rewrite Hclosed, Hc0.
  rewrite (bool_decide_eq_false_2 _ Hopen). simpl.
  split; [reflexivity|]. split.
  { eexists. split; [exact Hrow|]. simpl. auto. }
  split; [reflexivity|].
  intros u Hdm.
  apply elem_of_cons in Hdm as [Hdm|Hdm]; [discriminate Hdm|].
  apply elem_of_cons in Hdm as [Hdm|Hdm]; [discriminate Hdm|].
  apply Hquiet in Hdm. simpl in Hdm.
  apply elem_of_cons in Hdm as [Hdm|Hdm]; [discriminate Hdm|].
  apply Hout0, Hdm.
Qed.

Lemma revoke_revokes_choice_witness :
  50 ∉ dm_closed (world_of [council_row 1 0 0; council_row 2 0 0])
  ∧ (BlobQueue.revoke demo_config 50 None [Some 2]
       (world_of [council_row 1 0 0; council_row 2 0 0])).2
    = Return (BlobQueue.Chose (council_row 2 0 0)).
Proof.
  assert (50 ∉ dm_closed (world_of [council_row 1 0 0; council_row 2 0 0])) as Hopen
    by (apply (bool_decide_unpack _); vm_compute; exact I).
  assert (emoji_id (council_row 2 0 0)
          ∈ emojis (world_of [council_row 1 0 0; council_row 2 0 0])) as He
    by (apply (bool_decide_unpack _); vm_compute; exact I).
  assert ((council_queue demo_config, 302)
          ∈ messages (world_of [council_row 1 0 0; council_row 2 0 0])) as Hin
    by (apply (bool_decide_unpack _); vm_compute; exact I).
  split; [exact Hopen|].
  destruct (revoke_revokes_choice demo_config 50 None 2 []
              (world_of [council_row 1 0 0; council_row 2 0 0]) (council_row 2 0 0) 302
              Hopen ltac:(lia) eq_refl eq_refl He eq_refl Hin ltac:(discriminate))
    as [H _].
  exact H.
Defined.

(** The wizard gives up after three answers it cannot use.  Where the author
    has a pending submission and can be written to, three answers that are
    not the number of one of their submissions end the wizard: it says so,
    it reads no further answer, and no table, emoji or cache entry other
    than the deleted command message has changed.  The author has been sent
    five messages. *)
Theorem revoke_gives_up cfg author ctx_message a1 a2 a3 rest w :
  author ∉ dm_closed w →
  BlobQueue.fetch_pending author (suggestions w) ≠ [] →
  let n := List.length (BlobQueue.fetch_pending author (suggestions w)) in
  refused n a1 = true → refused n a2 = true → refused n a3 = true →
  let r := BlobQueue.revoke cfg author ctx_message (a1 :: a2 :: a3 :: rest) w in
  r.2 = Return BlobQueue.Gave_up
  ∧ suggestions r.1 = suggestions w ∧ council_votes r.1 = council_votes w
  ∧ emojis r.1 = emojis w
  ∧ head (outbox r.1) = Some (Direct_message author "I give up!")
  ∧ List.length (sent_to author r.1) = (5 + List.length (sent_to author w))%nat
  ∧ r = BlobQueue.revoke cfg author ctx_message [a1; a2; a3] w.
Proof.
  intros Hopen Hsome n H1 H2 H3.
  unfold BlobQueue.revoke.
  assert (∀ w1 : World, dm_closed w1 = dm_closed w →
                        bool_decide (author ∈ dm_closed w1) = false) as Hsend
    by (intros w1 ->; apply bool_decide_eq_false_2, Hopen).
  destruct ctx_message as [[c k]|];
    cbv [bind gets ret message_delete modify emit try_except user_send]; simpl;
    fold n;
    destruct (BlobQueue.fetch_pending author (suggestions w)) as [|first more] eqn:Ef;
    try congruence; simpl;
    rewrite (bool_decide_eq_false_2 _ Hopen); simpl.
  all: destruct a1 as [i1|], a2 as [i2|], a3 as [i3|]; simpl in H1, H2, H3.
  all: cbv [bind gets ret emit modify user_send]; simpl.
  all: rewrite ?H1, ?H2, ?H3, ?(bool_decide_eq_false_2 _ Hopen); simpl.
  all: rewrite ?H1, ?H2, ?H3, ?(bool_decide_eq_false_2 _ Hopen); simpl.
  all: rewrite ?H1, ?H2, ?H3, ?(bool_decide_eq_false_2 _ Hopen); simpl.
  all: destruct rest; simpl;
    cbv [bind gets ret emit modify user_send]; simpl;
    rewrite ?(bool_decide_eq_false_2 _ Hopen); simpl.
  all: unfold sent_to; simpl; rewrite ?Z.eqb_refl; simpl.
  all: repeat split; reflexivity.
Qed.

Lemma revoke_gives_up_witness :
  50 ∉ dm_closed (world_of [council_row 1 0 0])
  ∧ (BlobQueue.revoke demo_config 50 None [None; Some 0; Some 2; Some 1]
       (world_of [council_row 1 0 0])).2 = Return BlobQueue.Gave_up.
Proof.
  assert (50 ∉ dm_closed (world_of [council_row 1 0 0])) as Hopen
    by (apply (bool_decide_unpack _); vm_compute; exact I).
  split; [exact Hopen|].
  destruct (revoke_gives_up demo_config 50 None None (Some 0) (Some 2) [Some 1]
              (world_of [council_row 1 0 0]) Hopen ltac:(discriminate)
              eq_refl eq_refl eq_refl) as [H _].
  exact H.
Defined.

(** ** The test image *)

Lemma render_frames_run {Frame Rendered : Type}
    (generate_test_frame : @BlobQueue.Image Frame → Rendered) range_left :
  ∀ frames tell frame_listing,
    (tell < List.length frames)%nat →
    BlobQueue.render_frames generate_test_frame range_left
      (BlobQueue.mkImage frames tell) frame_listing
    = frame_listing
      ++ List.map (λ j, generate_test_frame (BlobQueue.mkImage frames (tell + j)))
           (List.seq 0 (Nat.min range_left (List.length frames - tell))).
Proof.
  induction range_left as [|range_left IH]; intros frames tell frame_listing Htell.
  - simpl. rewrite app_nil_r. reflexivity.
  - cbn [BlobQueue.render_frames]. unfold BlobQueue.image_seek.
    cbn [BlobQueue.image_frames BlobQueue.image_tell].
    destruct (List.length frames - tell)%nat as [|left] eqn:Eleft; [lia|].
    rewrite <- Nat.succ_min_distr. cbn [List.seq List.map].
    rewrite Nat.add_0_r.
    destruct (Nat.ltb_spec (tell + 1) (List.length frames)) as [Hmore|Hlast].
    + rewrite IH by exact Hmore. rewrite <- app_assoc. cbn [app]. do 2 f_equal.
      replace (List.length frames - (tell + 1))%nat with left by lia.
      rewrite <- seq_shift, List.map_map.
      apply List.map_ext. intros j. do 2 f_equal. lia.
    + replace left with 0%nat by lia. rewrite Nat.min_0_r. reflexivity.
Qed.

(** The test image of an emoji.  From an image opened on one of its frames,
    every frame from there on is rendered, in order, up to 600 of them and
    no more.  The file is test.png where that is one frame and test.gif
    where it is more. *)
Theorem test_backend_frames {Frame Rendered : Type}
    (generate_test_frame : @BlobQueue.Image Frame → Rendered) frames tell :
  (tell < List.length frames)%nat →
  let rendered :=
    List.map (λ j, generate_test_frame (BlobQueue.mkImage frames (tell + j)))
      (List.seq 0 (Nat.min 600 (List.length frames - tell))) in
  BlobQueue.test_backend generate_test_frame (BlobQueue.mkImage frames tell)
  = Some (if (List.length frames - tell =? 1)%nat then "test.png" else "test.gif",
          rendered)
  ∧ (List.length rendered ≤ 600)%nat.
Proof.
  intros Htell rendered. split.
  - unfold BlobQueue.test_backend.
    rewrite render_frames_run by exact Htell. rewrite app_nil_l. fold rendered.
    assert (List.length rendered = Nat.min 600 (List.length frames - tell)) as Hlen
      by (unfold rendered; rewrite List.length_map, List.length_seq; reflexivity).
    destruct (Nat.eqb_spec (List.length frames - tell) 1) as [Hone|Hmany].
    + rewrite Hone in Hlen.
      change (Nat.min 600 1) with 1%nat in Hlen.
      destruct rendered as [|initial_frame [|second others]]; try discriminate Hlen.
      reflexivity.
    + assert (2 ≤ List.length rendered)%nat as Htwo by lia.
      destruct rendered as [|initial_frame [|second others]]; simpl in Htwo; try lia.
      reflexivity.
  - unfold rendered. rewrite List.length_map, List.length_seq. lia.
Qed.

Lemma test_backend_frames_witness :
  (0 < List.length [7; 8; 9])%nat
  ∧ BlobQueue.test_backend (λ image, List.nth (BlobQueue.image_tell image)
                                       (BlobQueue.image_frames image) 0)
      (BlobQueue.mkImage [7; 8; 9] 0)
    = Some ("test.gif", [7; 8; 9]).
Proof.
  split; [simpl; lia|].
  destruct (test_backend_frames
              (λ image, List.nth (BlobQueue.image_tell image)
                          (BlobQueue.image_frames image) 0)
              [7; 8; 9] 0 ltac:(simpl; lia)) as [H _].
  exact H.
Defined.

(** ** The configuration *)

(** What a configuration answers.  A key of the file is read from the file,
    also where the defaults have it; a key the file lacks is read from the
    defaults; a key of neither reads as nothing and raises nothing.  A file
    that is one string is the token: the token is that string, whatever the
    defaults say, and every other key is read from the defaults. *)
Theorem config_from_file_precedence {Value : Type} (of_str : string → Value)
    (default_config : gmap string Value) :
  (∀ m item,
     ∃ c, Configuration.config_from_file of_str default_config (Configuration.Loaded_map m)
          = Return c
          ∧ Configuration.getattr c item
            = match m !! item with
              | Some v => Some v
              | None => default_config !! item
              end)
  ∧ (∀ s,
       ∃ c, Configuration.config_from_file of_str default_config (Configuration.Loaded_str s)
            = Return c
            ∧ Configuration.getattr c "token" = Some (of_str s)
            ∧ ∀ item, item ≠ "token" →
                      Configuration.getattr c item = default_config !! item).
Proof.
  split.
  - intros m item. eexists. split; [reflexivity|].
    unfold Configuration.getattr, Configuration.Configuration.
    destruct (m !! item) as [v|] eqn:Em.
    + apply lookup_union_Some_l, Em.
    + apply lookup_union_r, Em.
  - intros s. eexists. split; [reflexivity|].
    unfold Configuration.getattr, Configuration.Configuration. split.
    + apply lookup_union_Some_l, lookup_singleton_eq.
    + intros item Hitem. apply lookup_union_r, lookup_singleton_ne.
      congruence.
Qed.
